(** * EXPIMAP: the expiMap model wrapper of scArches

    A shallow embedding of [scarches/models/expimap/expimap_model.py]:
    the constructor, [terms_genes], [latent_directions], [latent_enrich]
    and [load_query_data] of class [EXPIMAP], with the properties of the
    specification that concern them.

    Conventions.
    - A raised Python exception is a [Raise e] result; [ValueError] carries
      the message of the source.
    - Python [int]s are [Z]; lengths are [nat] and are injected with
      [Z.of_nat] where the source stores them.
    - Floating-point arrays are arrays over a number type [F] that comes
      with the operations of the interface [Arith] (and [Special] for
      [sqrt], [erfc], [log]).  The code is embedded once, for every such
      [F]; exact rationals [Q] and the reals [R] are instances, so rounding
      is not part of this model.
    - A write to [adata.uns] returns the updated dataset; a call that
      raises returns no dataset, so the dataset of the caller is the one it
      passed in. *)

From Stdlib Require Import ZArith QArith Qabs Reals Lra Lia.
From Stdlib Require Lqa.
From stdpp Require Import base option list gmap strings.

Set Default Proof Using "Type".
Open Scope string_scope.
Open Scope nat_scope.

(** ** Exceptions and results *)

Inductive exn : Type :=
  | ValueError (msg : string)
  | KeyError (key : string)
  | IndexError
  | TypeError
  | Unsupported.

Inductive result (A : Type) : Type :=
  | Ok (a : A)
  | Raise (e : exn).
Arguments Ok {A} a.
Arguments Raise {A} e.

#[export] Instance result_ret : MRet result := fun A a => Ok a.
#[export] Instance result_bind : MBind result := fun A B k r =>
  match r with
  | Ok a => k a
  | Raise e => Raise e
  end.

Definition is_value_error {A} (r : result A) : bool :=
  match r with
  | Raise (ValueError _) => true
  | _ => false
  end.

(** [d[key]] on a dictionary with string keys. *)
Definition getitem {V} (d : gmap string V) (key : string) : result V :=
  match d !! key with
  | Some v => Ok v
  | None => Raise (KeyError key)
  end.

(** [m x] for every [x] of a list, stopping at the first exception. *)
Fixpoint mapM {A B} (f : A → result B) (l : list A) : result (list B) :=
  match l with
  | [] => Ok []
  | x :: l' => y ← f x; ys ← mapM f l'; Ok (y :: ys)
  end.

(** ** Numbers *)

(** The float operations the source uses.  [fltb x y] is [x < y] and
    [feqb x y] is [x == y]. *)
Class Arith (F : Type) : Type := {
  f0 : F;
  f1 : F;
  f2 : F;
  fhalf : F;
  fadd : F → F → F;
  fsub : F → F → F;
  fmul : F → F → F;
  fdiv : F → F → F;
  fopp : F → F;
  fabs : F → F;
  feqb : F → F → bool;
  fltb : F → F → bool;
  of_nat : nat → F
}.

(** [np.sqrt], [scipy.special.erfc], [np.log] and the literal [1e-12]. *)
Class Special (F : Type) : Type := {
  fsqrt : F → F;
  erfc : F → F;
  flog : F → F;
  f1e_12 : F
}.

#[export] Instance Q_arith : Arith Q := {|
  f0 := 0%Q;
  f1 := 1%Q;
  f2 := 2%Q;
  fhalf := (1 # 2)%Q;
  fadd := Qplus;
  fsub := Qminus;
  fmul := Qmult;
  fdiv := Qdiv;
  fopp := Qopp;
  fabs := Qabs;
  feqb := Qeq_bool;
  fltb := fun x y => negb (Qle_bool y x);
  of_nat := fun n => inject_Z (Z.of_nat n)
|}.

(** ** Arrays *)

(** A two-dimensional float array is kept by column: one list per column,
    each over the rows.  Every reduction of the source runs along axis 0,
    so a column is what it reduces; an array with no row still has its
    columns. *)
Abbreviation matrix F := (list (list F)).

(** An integer [ndarray] of [adata.varm], by row, with its column count. *)
Record array2 : Type := {
  a_ncols : nat;
  a_rows : list (list Z)
}.

(** [a.T.tolist()] *)
Definition transpose_tolist (a : array2) : list (list Z) :=
  map (fun j => map (fun r => nth j r 0%Z) (a_rows a)) (seq 0 (a_ncols a)).

(** [torch.tensor(m)] accepts a nested list only if its rows have one
    length, and raises [ValueError] otherwise. *)
Definition rectangular {A} (m : list (list A)) : bool :=
  match m with
  | [] => true
  | r :: m' => forallb (fun r' => Nat.eqb (length r') (length r)) m'
  end.

Definition torch_tensor (m : list (list Z)) : result (list (list Z)) :=
  if rectangular m then Ok m
  else Raise (ValueError "expected sequence of equal length").

(** ** The dataset *)

Record scores (F : Type) : Type := {
  p_h0 : list F;
  p_h1 : list F;
  bf : list F
}.
Arguments p_h0 {F} s.
Arguments p_h1 {F} s.
Arguments bf {F} s.

(** What [adata.uns] holds: a list of term names, a float array, or the
    dictionary of scores that [latent_enrich] writes. *)
Inductive uns_val (F : Type) : Type :=
  | UTerms (names : list string)
  | UArray (a : list F)
  | UScores (d : gmap string (scores F)).
Arguments UTerms {F} names.
Arguments UArray {F} a.
Arguments UScores {F} d.

Record AnnData (F : Type) : Type := {
  var_names : list string;
  obs_names : list string;
  obs : gmap string (list string);
  varm : gmap string array2;
  X : list (list F);
  uns : gmap string (uns_val F)
}.
Arguments var_names {F} a.
Arguments obs_names {F} a.
Arguments obs {F} a.
Arguments varm {F} a.
Arguments X {F} a.
Arguments uns {F} a.

Definition n_vars {F} (adata : AnnData F) : nat := length (var_names adata).

(** [adata.uns[key] = v] *)
Definition set_uns {F} (adata : AnnData F) (key : string) (v : uns_val F)
  : AnnData F :=
  {| var_names := var_names adata;
     obs_names := obs_names adata;
     obs := obs adata;
     varm := varm adata;
     X := X adata;
     uns := <[key := v]> (uns adata) |}.

(** [series.unique()]: the distinct values in order of first appearance. *)
Fixpoint unique (l : list string) : list string :=
  match l with
  | [] => []
  | x :: l' => x :: filter (fun y => y ≠ x) (unique l')
  end.

(** ** The network *)

(** The arguments [EXPIMAP.__init__] hands to [expiMap], in order. *)
Record net_args : Type := {
  na_input_dim : Z;
  na_latent_dim : Z;
  na_mask : list (list Z);
  na_conditions : list string;
  na_hidden_layer_sizes : list Z;
  na_dr_rate : Q;
  na_recon_loss : string;
  na_use_l_encoder : bool;
  na_use_bn : bool;
  na_use_ln : bool;
  na_decoder_last_layer : option string;
  na_soft_mask : bool;
  na_n_ext : Z;
  na_n_ext_m : Z;
  na_use_hsic : bool;
  na_hsic_one_vs_all : bool;
  na_ext_mask : option (list (list Z));
  na_soft_ext_mask : bool
}.

(** The collaborators that are not part of this file of the source: the
    network module [expiMap] and the encoder call [get_latent] of
    [CVAELatentsMixin].  [expiMap] stands for the construction of the
    module from its arguments; the weights a new module starts from are
    drawn by the source at every construction, and no property below
    compares the networks of two constructions.  [get_latent] with
    [mean_var=False] draws a sample and takes the position in the random
    stream; with [mean_var=True] it returns means and variances. *)
Class Network (F : Type) : Type := {
  net : Type;
  expiMap : net_args → result net;
  expr_L_weight : net → matrix F;
  get_latent_sample :
    net → list (list F) → list string → nat → result (matrix F);
  get_latent_mean_var :
    net → list (list F) → list string → result (matrix F * matrix F)
}.

(** ** The wrapper *)

Section Wrapper.
Context {F : Type} {AR : Arith F} {SP : Special F} {NW : Network F}.

Record EXPIMAP : Type := {
  adata_ : AnnData F;
  condition_key_ : option string;
  conditions_ : list string;
  hidden_layer_sizes_ : list Z;
  dr_rate_ : Q;
  recon_loss_ : string;
  use_bn_ : bool;
  use_ln_ : bool;
  input_dim_ : Z;
  use_l_encoder_ : bool;
  decoder_last_layer_ : option string;
  mask_ : list (list Z);
  latent_dim_ : Z;
  ext_mask_ : option (list (list Z));
  n_ext_ : Z;
  n_ext_m_ : Z;
  soft_mask_ : bool;
  soft_ext_mask_ : bool;
  use_hsic_ : bool;
  hsic_one_vs_all_ : bool;
  model : net;
  is_trained_ : bool
}.

(** The parameters of [__init__] after [adata]. *)
Record init_params : Type := {
  condition_key : option string;
  conditions : option (list string);
  hidden_layer_sizes : list Z;
  dr_rate : Q;
  recon_loss : string;
  use_l_encoder : bool;
  use_bn : bool;
  use_ln : bool;
  mask : option (list (list Z));
  mask_key : string;
  decoder_last_layer : option string;
  soft_mask : bool;
  n_ext : Z;
  n_ext_m : Z;
  use_hsic : bool;
  hsic_one_vs_all : bool;
  ext_mask : option (list (list Z));
  soft_ext_mask : bool
}.

Definition default_params : init_params := {|
  condition_key := None;
  conditions := None;
  hidden_layer_sizes := [256%Z; 256%Z];
  dr_rate := (5 # 100)%Q;
  recon_loss := "nb";
  use_l_encoder := false;
  use_bn := false;
  use_ln := true;
  mask := None;
  mask_key := "I";
  decoder_last_layer := None;
  soft_mask := false;
  n_ext := 0%Z;
  n_ext_m := 0%Z;
  use_hsic := false;
  hsic_one_vs_all := false;
  ext_mask := None;
  soft_ext_mask := false
|}.

(** [EXPIMAP.__init__] *)
Definition init (adata : AnnData F) (p : init_params) : result EXPIMAP :=
  if bool_decide (mask p = None) && bool_decide (varm adata !! mask_key p = None)
  then Raise (ValueError "Please provide mask.")
  else
  conds ←
    match conditions p with
    | None =>
        match condition_key p with
        | Some k => col ← getitem (obs adata) k; Ok (unique col)
        | None => Ok []
        end
    | Some cs => Ok cs
    end;
  let input_dim := Z.of_nat (n_vars adata) in
  mask_list ←
    match mask p with
    | None => a ← getitem (varm adata) (mask_key p); Ok (transpose_tolist a)
    | Some m => Ok m
    end;
  mask_t ← torch_tensor mask_list;
  let latent_dim := Z.of_nat (length mask_list) in
  ext_t ←
    match ext_mask p with
    | None => Ok None
    | Some e => t ← torch_tensor e; Ok (Some t)
    end;
  let hsic := use_hsic p && (0 <? n_ext p)%Z in
  network ← expiMap {|
    na_input_dim := input_dim;
    na_latent_dim := latent_dim;
    na_mask := mask_t;
    na_conditions := conds;
    na_hidden_layer_sizes := hidden_layer_sizes p;
    na_dr_rate := dr_rate p;
    na_recon_loss := recon_loss p;
    na_use_l_encoder := use_l_encoder p;
    na_use_bn := use_bn p;
    na_use_ln := use_ln p;
    na_decoder_last_layer := decoder_last_layer p;
    na_soft_mask := soft_mask p;
    na_n_ext := n_ext p;
    na_n_ext_m := n_ext_m p;
    na_use_hsic := hsic;
    na_hsic_one_vs_all := hsic_one_vs_all p;
    na_ext_mask := ext_t;
    na_soft_ext_mask := soft_ext_mask p |};
  Ok {|
    adata_ := adata;
    condition_key_ := condition_key p;
    conditions_ := conds;
    hidden_layer_sizes_ := hidden_layer_sizes p;
    dr_rate_ := dr_rate p;
    recon_loss_ := recon_loss p;
    use_bn_ := use_bn p;
    use_ln_ := use_ln p;
    input_dim_ := input_dim;
    use_l_encoder_ := use_l_encoder p;
    decoder_last_layer_ := decoder_last_layer p;
    mask_ := mask_list;
    latent_dim_ := latent_dim;
    ext_mask_ := ext_mask p;
    n_ext_ := n_ext p;
    n_ext_m_ := n_ext_m p;
    soft_mask_ := soft_mask p;
    soft_ext_mask_ := soft_ext_mask p;
    use_hsic_ := hsic;
    hsic_one_vs_all_ := hsic_one_vs_all p;
    model := network;
    is_trained_ := false |}.

(** *** [terms_genes] *)

Inductive terms_arg : Type :=
  | TermsKey (key : string)
  | TermsList (l : list string).

(** [np.array(m, dtype=bool)]: an entry is true when it is not zero; a
    ragged nested list has no array shape and raises [ValueError]. *)
Definition np_array_bool (m : list (list Z)) : result (list (list bool)) :=
  if rectangular m then Ok (map (map (fun z => negb (z =? 0)%Z)) m)
  else Raise (ValueError "inhomogeneous shape").

(** [I[i]] *)
Definition row_at {A} (I : list A) (i : nat) : result A :=
  match I !! i with
  | Some r => Ok r
  | None => Raise IndexError
  end.

(** The entries of [xs] at the true positions of [b]. *)
Fixpoint select {A} (xs : list A) (b : list bool) : list A :=
  match xs, b with
  | x :: xs', true :: b' => x :: select xs' b'
  | _ :: xs', false :: b' => select xs' b'
  | _, _ => []
  end.

(** [index[b]] with a boolean array [b], which must be as long as the
    index. *)
Definition bool_index {A} (xs : list A) (b : list bool) : result (list A) :=
  if Nat.eqb (length b) (length xs) then Ok (select xs b)
  else Raise IndexError.

(** The dictionary comprehension over [enumerate(terms)], from position
    [i] on: a later entry of the same name replaces an earlier one. *)
Fixpoint terms_dict (I : list (list bool)) (names : list string) (i : nat)
    (terms : list string) (acc : gmap string (list string))
  : result (gmap string (list string)) :=
  match terms with
  | [] => Ok acc
  | t :: ts =>
      r ← row_at I i;
      g ← bool_index names r;
      terms_dict I names (S i) ts (<[t := g]> acc)
  end.

(** [EXPIMAP.terms_genes].  An entry of [adata.uns] that is not a list of
    names is not followed further. *)
Definition terms_genes (self : EXPIMAP) (terms : terms_arg)
  : result (gmap string (list string)) :=
  terms ←
    match terms with
    | TermsKey key =>
        v ← getitem (uns (adata_ self)) key;
        match v with
        | UTerms l => Ok l
        | _ => Raise Unsupported
        end
    | TermsList l =>
        if negb (Nat.eqb (length l) (length (mask_ self)))
        then Raise (ValueError
          "The list of terms should have the same length as the mask.")
        else Ok l
    end;
  I ← np_array_bool (mask_ self);
  terms_dict I (var_names (adata_ self)) 0 terms ∅.

(** *** [latent_directions] *)

(** [a.sum(0)] on one column. *)
Definition fsum (col : list F) : F := fold_left fadd col f0.

(** [torch.count_nonzero(w, dim=0)] on one column. *)
Definition count_nonzero (col : list F) : nat :=
  length (filter (fun w => negb (feqb w f0)) col).

(** [torch.count_nonzero(w > 0, dim=0)] on one column. *)
Definition count_positive (col : list F) : nat :=
  length (filter (fun w => fltb f0 w) col).

(** [a[cond(a)] = v] *)
Definition set_where (cond : F → bool) (v : F) (a : list F) : list F :=
  map (fun x => if cond x then v else x) a.

(** [a[m] = v] for a boolean array [m] of the length of [a]. *)
Definition set_mask (m : list bool) (v : F) (a : list F) : list F :=
  zip_with (fun (b : bool) x => if b then v else x) m a.

(** [upreg_genes / (num_nz + (num_nz == 0))] *)
Definition ratio (upreg num_nz : nat) : F :=
  fdiv (of_nat upreg) (of_nat (num_nz + (if Nat.eqb num_nz 0 then 1 else 0))).

(** The two branches of [latent_directions]: the signs and, for
    ["counts"], the confidence. *)
Definition directions_sum (w : matrix F) : list F :=
  let signs := map fsum w in
  let signs := set_where (fun s => fltb f0 s) f1 signs in
  let signs := set_where (fun s => fltb s f0) (fopp f1) signs in
  signs.

Definition directions_counts (w : matrix F) : list F * list F :=
  let num_nz := map count_nonzero w in
  let upreg_genes := map count_positive w in
  let signs := zip_with (fun u n => ratio u n) upreg_genes num_nz in
  let nz0 := map (fun n => Nat.eqb n 0) num_nz in
  let confidence := signs in
  let confidence := map (fun c => fdiv (fabs (fsub c fhalf)) fhalf) confidence in
  let confidence := set_mask nz0 f0 confidence in
  let signs := set_where (fun s => fltb fhalf s) f1 signs in
  let signs := set_where (fun s => fltb s fhalf) (fopp f1) signs in
  let signs := set_where (fun s => feqb s fhalf) f0 signs in
  let signs := set_mask nz0 f0 signs in
  (signs, confidence).

(** [EXPIMAP.latent_directions]; the result is the dataset written to. *)
Definition latent_directions (self : EXPIMAP) (method : string)
    (get_confidence : bool) (adata : option (AnnData F)) (key_added : string)
  : result (AnnData F) :=
  let adata := default (adata_ self) adata in
  let terms_weights := expr_L_weight (model self) in
  '(signs, confidence) ←
    (if String.eqb method "sum" then Ok (directions_sum terms_weights, None)
     else if String.eqb method "counts" then
       let '(s, c) := directions_counts terms_weights in Ok (s, Some c)
     else Raise (ValueError
       "Unrecognized method for getting the latent direction."));
  let adata := set_uns adata key_added (UArray signs) in
  match get_confidence, confidence with
  | true, Some c => Ok (set_uns adata (key_added +:+ "_confindence") (UArray c))
  | _, _ => Ok adata
  end.

(** *** [latent_enrich] *)

Inductive groups_arg : Type :=
  | GroupsKey (key : string)
  | GroupsDict (d : list (string * list string))
  | GroupsOther.

Inductive comparison_arg : Type :=
  | CompStr (s : string)
  | CompList (l : list string).

(** What [get_latent] returns: a sample, or means and variances. *)
Inductive latent : Type :=
  | Sampled (z : matrix F)
  | MeanVar (means vars : matrix F).

(** The position of the first [x] in [l]. *)
Fixpoint index_of (x : string) (l : list string) : option nat :=
  match l with
  | [] => None
  | y :: l' => if String.eqb x y then Some 0 else S <$> index_of x l'
  end.

(** [adata[cells]] for a list of observation names: the rows of these
    names, in the order of the list. *)
Definition subset_obs (adata : AnnData F) (cells : list string)
  : result (AnnData F) :=
  idx ← mapM (fun c => match index_of c (obs_names adata) with
                       | Some i => Ok i
                       | None => Raise (KeyError c)
                       end) cells;
  x ← mapM (row_at (X adata)) idx;
  Ok {| var_names := var_names adata;
        obs_names := cells;
        obs := (fun col => omap (fun i => col !! i) idx) <$> obs adata;
        varm := varm adata;
        X := x;
        uns := uns adata |}.

(** [cats_col[cells] = group] for every group in turn, on a series over
    [names] that starts without values. *)
Definition assign_groups (names : list string)
    (groups : list (string * list string)) : list string :=
  fold_left
    (fun col '(group, cells) =>
       zip_with (fun name c => if bool_decide (name ∈ cells) then group else c)
                names col)
    groups (replicate (length names) "nan").

(** Lines 238 to 252: the dataset, the category of every cell and the
    categories. *)
Definition resolve_groups (adata : AnnData F) (groups : groups_arg)
  : result (AnnData F * list string * list string) :=
  match groups with
  | GroupsKey key =>
      cats_col ← getitem (obs adata) key;
      Ok (adata, cats_col, unique cats_col)
  | GroupsDict d =>
      let cats := map fst d in
      let all_cells := concat (map snd d) in
      adata ← subset_obs adata all_cells;
      Ok (adata, assign_groups (obs_names adata) d, cats)
  | GroupsOther => Raise (ValueError "groups should be a string or a dict.")
  end.

(** The elements of [set(comparison)]: the characters of a string, the
    entries of a list. *)
Fixpoint chars (s : string) : list string :=
  match s with
  | EmptyString => []
  | String a s' => String a EmptyString :: chars s'
  end.

Definition comparison_elems (comparison : comparison_arg) : list string :=
  match comparison with
  | CompStr s => chars s
  | CompList l => l
  end.

(** [comparison != "rest"] *)
Definition not_rest (comparison : comparison_arg) : bool :=
  match comparison with
  | CompStr s => negb (String.eqb s "rest")
  | CompList _ => true
  end.

(** [s in t] for two strings. *)
Fixpoint is_substring (s t : string) : bool :=
  String.prefix s t ||
  match t with
  | EmptyString => false
  | String _ t' => is_substring s t'
  end.

(** [cat in comparison] *)
Definition cat_in (cat : string) (comparison : comparison_arg) : bool :=
  match comparison with
  | CompStr s => is_substring cat s
  | CompList l => bool_decide (cat ∈ l)
  end.

(** An operation on the entries of two arrays of one shape.  Arrays of
    different shapes raise; that an axis of length one is stretched is not
    followed, the two samples come from one encoder. *)
Definition same_shape (a b : matrix F) : bool :=
  Nat.eqb (length a) (length b) &&
  forallb (fun '(ca, cb) => Nat.eqb (length ca) (length cb)) (zip a b).

Definition zip_arrays (f : F → F → F) (a b : matrix F) : result (matrix F) :=
  if same_shape a b then Ok (zip_with (zip_with f) a b)
  else Raise (ValueError "operands could not be broadcast together").

(** [z *= directions]: column [j] times entry [j], or every column times
    the one entry of [directions]. *)
Definition mul_directions (z : matrix F) (directions : list F)
  : result (matrix F) :=
  if Nat.eqb (length directions) (length z)
  then Ok (zip_with (fun col d => map (fun x => fmul x d) col) z directions)
  else match directions with
       | [d] => Ok (map (map (fun x => fmul x d)) z)
       | _ => Raise (ValueError "operands could not be broadcast together")
       end.

(** [z[:, select_terms]] *)
Definition take_columns (z : matrix F) (select_terms : option (list nat))
  : result (matrix F) :=
  match select_terms with
  | None => Ok z
  | Some sel => mapM (row_at z) sel
  end.

(** [if directions is not None: z *= directions] *)
Definition apply_directions (directions : option (list F)) (z : matrix F)
  : result (matrix F) :=
  match directions with
  | Some d => mul_directions z d
  | None => Ok z
  end.

(** The array the test looks at: a sample, or the means, after the
    directions and the selection. *)
Definition tested (directions : option (list F))
    (select_terms : option (list nat)) (z : matrix F) : result (matrix F) :=
  z ← apply_directions directions z;
  take_columns z select_terms.

(** The part of an encoder output that the directions, the comparison and
    the zero test read: the sample, or the means. *)
Definition latent_values (z : latent) : matrix F :=
  match z with
  | Sampled z => z
  | MeanVar means _ => means
  end.

(** [np.abs(z).sum(0) == 0] *)
Definition zero_columns (z : matrix F) : list bool :=
  map (fun col => feqb (fsum (map fabs col)) f0) z.

(** [np.mean(a, axis=0)] on one column. *)
Definition fmean (col : list F) : F := fdiv (fsum col) (of_nat (length col)).

(** [(means1 - means0) / np.sqrt(2 * (vars0 + vars1))] *)
Definition standardized (means0 means1 vars0 vars1 : matrix F)
  : result (matrix F) :=
  diff ← zip_arrays fsub means1 means0;
  vsum ← zip_arrays fadd vars0 vars1;
  zip_arrays fdiv diff (map (map (fun v => fsqrt (fmul f2 v))) vsum).

(** Lines 296 to 327: [to_reduce] and [zeros_mask]. *)
Definition reduce_terms (exact : bool) (directions : option (list F))
    (select_terms : option (list nat)) (z0 z1 : latent)
  : result (matrix F * list bool) :=
  if negb exact then
    match z0, z1 with
    | Sampled z0, Sampled z1 =>
        z0 ← apply_directions directions z0;
        z1 ← apply_directions directions z1;
        z0 ← take_columns z0 select_terms;
        z1 ← take_columns z1 select_terms;
        to_reduce ← zip_arrays (fun a b => if fltb b a then f1 else f0) z0 z1;
        Ok (to_reduce, zip_with orb (zero_columns z0) (zero_columns z1))
    | _, _ => Raise Unsupported
    end
  else
    match z0, z1 with
    | MeanVar means0 vars0, MeanVar means1 vars1 =>
        means0 ← apply_directions directions means0;
        means1 ← apply_directions directions means1;
        means0 ← take_columns means0 select_terms;
        means1 ← take_columns means1 select_terms;
        vars0 ← take_columns vars0 select_terms;
        vars1 ← take_columns vars1 select_terms;
        to_reduce ← standardized means0 means1 vars0 vars1;
        let to_reduce := map (map (fun t => fmul fhalf (erfc t))) to_reduce in
        Ok (to_reduce, zip_with orb (zero_columns means0) (zero_columns means1))
    | _, _ => Raise Unsupported
    end.

(** Lines 329 to 338. *)
Definition bayes_factors (to_reduce : matrix F) (zeros_mask : list bool)
  : scores F :=
  let p_h0 := map fmean to_reduce in
  let p_h1 := map (fun p => fsub f1 p) p_h0 in
  let epsilon := f1e_12 in
  let bf := zip_with (fun p q => fsub (flog (fadd p epsilon))
                                      (flog (fadd q epsilon))) p_h0 p_h1 in
  {| p_h0 := set_mask zeros_mask f0 p_h0;
     p_h1 := set_mask zeros_mask f0 p_h1;
     bf := set_mask zeros_mask f0 bf |}.

Definition enrich_terms (exact : bool) (directions : option (list F))
    (select_terms : option (list nat)) (z0 z1 : latent) : result (scores F) :=
  '(to_reduce, zeros_mask) ← reduce_terms exact directions select_terms z0 z1;
  Ok (bayes_factors to_reduce zeros_mask).

(** The state around a call of [latent_enrich]: the random stream and how
    far it has been read, and the number of encoder calls made. *)
Record world : Type := {
  rng : nat → nat;
  rng_pos : nat;
  encoder_calls : nat
}.

Definition M (A : Type) : Type := world → result A * world.

Definition ret_M {A} (a : A) : M A := fun w => (Ok a, w).

Definition bind_M {A B} (m : M A) (k : A → M B) : M B := fun w =>
  match m w with
  | (Ok a, w') => k a w'
  | (Raise e, w') => (Raise e, w')
  end.

Definition lift {A} (r : result A) : M A := fun w => (r, w).

(** [np.random.choice(a, size)]: [size] indices below [a]. *)
Definition choice (a size : nat) : M (list nat) := fun w =>
  if Nat.eqb a 0 && negb (Nat.eqb size 0)
  then (Raise (ValueError
          "a must be greater than 0 unless no samples are taken"), w)
  else (Ok (map (fun k => rng w (rng_pos w + k) mod a) (seq 0 size)),
        {| rng := rng w;
           rng_pos := rng_pos w + size;
           encoder_calls := encoder_calls w |}).

(** [self.get_latent(x, c, mean=False, mean_var=exact)] *)
Definition get_latent (self : EXPIMAP) (x : list (list F)) (c : list string)
    (mean_var : bool) : M latent := fun w =>
  if mean_var then
    ('(m, v) ← get_latent_mean_var (model self) x c; Ok (MeanVar m v),
     {| rng := rng w;
        rng_pos := rng_pos w;
        encoder_calls := S (encoder_calls w) |})
  else
    (z ← get_latent_sample (model self) x c (rng_pos w); Ok (Sampled z),
     {| rng := rng w;
        rng_pos := S (rng_pos w);
        encoder_calls := S (encoder_calls w) |}).

(** [adata[mask][choice]] read at one per-cell sequence [xs]. *)
Definition sample_rows {A} (xs : list A) (mask : list bool)
    (choice : list nat) : result (list A) :=
  rows ← bool_index xs mask;
  mapM (row_at rows) choice.

Definition count_true (m : list bool) : nat := length (filter Is_true m).

(** Lines 266 to 294 for one category that is not skipped: the two groups
    of cells are drawn and the encoder is called on each of them; with the
    two outputs go the directions. *)
Definition encode_groups (self : EXPIMAP) (adata : AnnData F)
    (cats_col : list string) (comparison : comparison_arg) (cat : string)
    (n_sample : nat) (use_directions : bool) (directions_key : string)
    (exact : bool) : M (option (list F) * latent * latent) :=
  let cat_mask := map (String.eqb cat) cats_col in
  bind_M (lift (match comparison with
                | CompStr s =>
                    if String.eqb s "rest" then Ok (map negb cat_mask)
                    else Raise TypeError
                | CompList l => Ok (map (fun c => bool_decide (c ∈ l)) cats_col)
                end)) (fun others_mask =>
  bind_M (choice (count_true cat_mask) n_sample) (fun choice_1 =>
  bind_M (choice (count_true others_mask) n_sample) (fun choice_2 =>
  bind_M (lift (sample_rows (X adata) cat_mask choice_1)) (fun x_cat =>
  bind_M (lift (sample_rows (X adata) others_mask choice_2)) (fun x_others =>
  bind_M (lift (if use_directions then
                  v ← getitem (uns adata) directions_key;
                  match v with
                  | UArray d => Ok (Some d)
                  | _ => Raise Unsupported
                  end
                else Ok None)) (fun directions =>
  let obs_of mask choice :=
    match condition_key_ self with
    | Some k => col ← getitem (obs adata) k; sample_rows col mask choice
    | None => Raise (KeyError "None")
    end in
  bind_M (lift (obs_of cat_mask choice_1)) (fun c_cat =>
  bind_M (get_latent self x_cat c_cat exact) (fun z0 =>
  bind_M (lift (obs_of others_mask choice_2)) (fun c_others =>
  bind_M (get_latent self x_others c_others exact) (fun z1 =>
  ret_M (directions, z0, z1))))))))))).

(** One round of the loop, lines 266 to 338, for a category that is not
    skipped: the scores of the two encoder outputs. *)
Definition enrich_category (self : EXPIMAP) (adata : AnnData F)
    (cats_col : list string) (comparison : comparison_arg) (cat : string)
    (n_sample : nat) (use_directions : bool) (directions_key : string)
    (select_terms : option (list nat)) (exact : bool) : M (scores F) :=
  bind_M (encode_groups self adata cats_col comparison cat n_sample
            use_directions directions_key exact)
    (fun '(directions, z0, z1) =>
       lift (enrich_terms exact directions select_terms z0 z1)).

(** The state a round that returns leaves: either draw has read
    [n_sample] numbers of the stream and the encoder was called twice,
    reading one more number at either call when it samples. *)
Definition after_round (n_sample : nat) (exact : bool) (w : world) : world :=
  {| rng := rng w;
     rng_pos := if exact then rng_pos w + n_sample + n_sample
                else S (S (rng_pos w + n_sample + n_sample));
     encoder_calls := S (S (encoder_calls w)) |}.

(** The loop over the categories, lines 262 to 338. *)
Fixpoint enrich_loop (self : EXPIMAP) (adata : AnnData F)
    (cats_col : list string) (comparison : comparison_arg)
    (n_sample : nat) (use_directions : bool) (directions_key : string)
    (select_terms : option (list nat)) (exact : bool)
    (cats : list string) (acc : gmap string (scores F))
  : M (gmap string (scores F)) :=
  match cats with
  | [] => ret_M acc
  | cat :: cats' =>
      if cat_in cat comparison
      then enrich_loop self adata cats_col comparison n_sample use_directions
             directions_key select_terms exact cats' acc
      else
        bind_M (enrich_category self adata cats_col comparison cat n_sample
                  use_directions directions_key select_terms exact)
          (fun sc =>
             enrich_loop self adata cats_col comparison n_sample
               use_directions directions_key select_terms exact cats'
               (<[cat := sc]> acc))
  end.

(** Lines 259 and 260: a comparison that is a string other than ["rest"]
    becomes the list of it. *)
Definition comparison_list (comparison : comparison_arg) : comparison_arg :=
  match comparison with
  | CompStr s => if String.eqb s "rest" then comparison else CompList [s]
  | CompList _ => comparison
  end.

(** [EXPIMAP.latent_enrich]; the result is the dataset written to. *)
Definition latent_enrich (self : EXPIMAP) (groups : groups_arg)
    (comparison : comparison_arg) (n_sample : nat) (use_directions : bool)
    (directions_key : string) (select_terms : option (list nat))
    (adata : option (AnnData F)) (exact : bool) (key_added : string)
  : M (AnnData F) :=
  let adata := default (adata_ self) adata in
  bind_M (lift (resolve_groups adata groups)) (fun '(adata, cats_col, cats) =>
  if not_rest comparison &&
     forallb (fun c => bool_decide (c ∈ cats)) (comparison_elems comparison)
  then lift (Raise (ValueError
         "comparison should be 'rest' or among the passed groups"))
  else
    let comparison := comparison_list comparison in
    bind_M (enrich_loop self adata cats_col comparison n_sample
              use_directions directions_key select_terms exact cats ∅)
      (fun scores => ret_M (set_uns adata key_added (UScores scores)))).

(** *** [load_query_data] *)

Inductive reference : Type :=
  | RefPath (path : string)
  | RefModel (m : EXPIMAP).

(** The values of the keyword dictionary [params]. *)
Inductive param : Type :=
  | PData (a : AnnData F)
  | PReference (r : reference)
  | PBool (b : bool)
  | PInt (n : Z)
  | PMask (m : list (list Z)).

Definition with_model (m : EXPIMAP) (network : net) : EXPIMAP :=
  {| adata_ := adata_ m;
     condition_key_ := condition_key_ m;
     conditions_ := conditions_ m;
     hidden_layer_sizes_ := hidden_layer_sizes_ m;
     dr_rate_ := dr_rate_ m;
     recon_loss_ := recon_loss_ m;
     use_bn_ := use_bn_ m;
     use_ln_ := use_ln_ m;
     input_dim_ := input_dim_ m;
     use_l_encoder_ := use_l_encoder_ m;
     decoder_last_layer_ := decoder_last_layer_ m;
     mask_ := mask_ m;
     latent_dim_ := latent_dim_ m;
     ext_mask_ := ext_mask_ m;
     n_ext_ := n_ext_ m;
     n_ext_m_ := n_ext_m_ m;
     soft_mask_ := soft_mask_ m;
     soft_ext_mask_ := soft_ext_mask_ m;
     use_hsic_ := use_hsic_ m;
     hsic_one_vs_all_ := hsic_one_vs_all_ m;
     model := network;
     is_trained_ := is_trained_ m |}.

(** The loop of lines 375 to 379 over [named_parameters()], on the flag
    [requires_grad] of one parameter. *)
Definition unfreeze (name : string) (requires_grad : bool) : bool :=
  let g := if is_substring "ext_L.weight" name
              || is_substring "ext_L_m.weight" name
           then true else requires_grad in
  let g := if is_substring "expand_mean_encoder" name
              || is_substring "expand_var_encoder" name
           then true else g in
  g.

Section Query.
(** The base surgery [SurgeryMixin.load_query_data], on the state it works
    in, and the [requires_grad] flags of a network by parameter name. *)
Variable state : Type.
Variable base_load_query_data :
  gmap string param → state → result EXPIMAP * state.
Variable named_parameters : net → list (string * bool).
Variable set_requires_grad : net → list (string * bool) → net.

(** [EXPIMAP.load_query_data] *)
Definition load_query_data (adata : AnnData F) (reference_model : reference)
    (freeze freeze_expression unfreeze_ext remove_dropout : bool)
    (new_n_ext new_n_ext_m : option Z)
    (new_ext_mask : option (list (list Z))) (new_soft_ext_mask : bool)
    (st : state) : result EXPIMAP * state :=
  let params : gmap string param := ∅ in
  let params := <["adata" := PData adata]> params in
  let params := <["reference_model" := PReference reference_model]> params in
  let params := <["freeze" := PBool freeze]> params in
  let params := <["freeze_expression" := PBool freeze_expression]> params in
  let params := <["remove_dropout" := PBool remove_dropout]> params in
  let params :=
    match new_n_ext with
    | Some n => <["n_ext" := PInt n]> params
    | None => params
    end in
  let params : result (gmap string param) :=
    match new_n_ext_m with
    | Some n =>
        let params := <["n_ext_m" := PInt n]> params in
        match new_ext_mask with
        | None => Raise (ValueError "Provide new ext_mask")
        | Some e =>
            let params := <["ext_mask" := PMask e]> params in
            Ok (<["soft_ext_mask" := PBool new_soft_ext_mask]> params)
        end
    | None => Ok params
    end in
  match params with
  | Raise e => (Raise e, st)
  | Ok params =>
      match base_load_query_data params st with
      | (Raise e, st') => (Raise e, st')
      | (Ok new_model, st') =>
          if freeze && unfreeze_ext then
            let flags := named_parameters (model new_model) in
            let flags := map (fun '(name, g) => (name, unfreeze name g)) flags in
            (Ok (with_model new_model
                   (set_requires_grad (model new_model) flags)), st')
          else (Ok new_model, st')
      end
  end.

End Query.

End Wrapper.

(** ** Saved attributes *)

(** A value of the attribute dictionary a model is saved as.  Python
    passes such a value on whatever its type; where the code below needs a
    value of one type and finds another, the value is not followed further
    ([Unsupported]). *)
Inductive pyval : Type :=
  | PyNone
  | PyStr (s : string)
  | PyBool (b : bool)
  | PyInt (n : Z)
  | PyFloat (q : Q)
  | PyStrList (l : list string)
  | PyIntList (l : list Z)
  | PyMatrix (m : list (list Z)).

Definition as_opt_str (v : pyval) : result (option string) :=
  match v with
  | PyNone => Ok None
  | PyStr s => Ok (Some s)
  | _ => Raise Unsupported
  end.

Definition as_str (v : pyval) : result string :=
  match v with
  | PyStr s => Ok s
  | _ => Raise Unsupported
  end.

Definition as_opt_str_list (v : pyval) : result (option (list string)) :=
  match v with
  | PyNone => Ok None
  | PyStrList l => Ok (Some l)
  | _ => Raise Unsupported
  end.

Definition as_int_list (v : pyval) : result (list Z) :=
  match v with
  | PyIntList l => Ok l
  | _ => Raise Unsupported
  end.

Definition as_float (v : pyval) : result Q :=
  match v with
  | PyFloat q => Ok q
  | PyInt n => Ok (inject_Z n)
  | _ => Raise Unsupported
  end.

Definition as_bool (v : pyval) : result bool :=
  match v with
  | PyBool b => Ok b
  | _ => Raise Unsupported
  end.

Definition as_int (v : pyval) : result Z :=
  match v with
  | PyInt n => Ok n
  | _ => Raise Unsupported
  end.

Definition as_opt_matrix (v : pyval) : result (option (list (list Z))) :=
  match v with
  | PyNone => Ok None
  | PyMatrix m => Ok (Some m)
  | _ => Raise Unsupported
  end.

(** The attributes [__init__] assigns whose names end in an underscore,
    by name: the dictionary a model is saved as and reloaded from. *)
Definition attributes {F} {NW : Network F} (self : EXPIMAP)
  : gmap string pyval :=
  list_to_map [
    ("condition_key_",
       match condition_key_ self with
       | Some k => PyStr k
       | None => PyNone
       end);
    ("conditions_", PyStrList (conditions_ self));
    ("hidden_layer_sizes_", PyIntList (hidden_layer_sizes_ self));
    ("dr_rate_", PyFloat (dr_rate_ self));
    ("recon_loss_", PyStr (recon_loss_ self));
    ("use_bn_", PyBool (use_bn_ self));
    ("use_ln_", PyBool (use_ln_ self));
    ("input_dim_", PyInt (input_dim_ self));
    ("use_l_encoder_", PyBool (use_l_encoder_ self));
    ("decoder_last_layer_",
       match decoder_last_layer_ self with
       | Some a => PyStr a
       | None => PyNone
       end);
    ("mask_", PyMatrix (mask_ self));
    ("latent_dim_", PyInt (latent_dim_ self));
    ("ext_mask_",
       match ext_mask_ self with
       | Some e => PyMatrix e
       | None => PyNone
       end);
    ("n_ext_", PyInt (n_ext_ self));
    ("n_ext_m_", PyInt (n_ext_m_ self));
    ("soft_mask_", PyBool (soft_mask_ self));
    ("soft_ext_mask_", PyBool (soft_ext_mask_ self));
    ("use_hsic_", PyBool (use_hsic_ self));
    ("hsic_one_vs_all_", PyBool (hsic_one_vs_all_ self));
    ("is_trained_", PyBool (is_trained_ self))
  ].

(** [dct[key] if key in dct else dflt] *)
Definition get_or (dct : gmap string pyval) (key : string) (dflt : pyval)
  : pyval :=
  match dct !! key with
  | Some v => v
  | None => dflt
  end.

(** The entries [_get_init_params_from_dict] reads without a default, in
    the order it reads them. *)
Definition required_attributes : list string :=
  ["condition_key_"; "conditions_"; "hidden_layer_sizes_"; "dr_rate_";
   "recon_loss_"; "use_bn_"; "use_ln_"; "mask_"].

(** [EXPIMAP._get_init_params_from_dict].  The entries of the dictionary
    literal are evaluated in order, so the first required key that is
    missing is the one the [KeyError] names; the values are then read at
    the types [__init__] takes them at.  [mask_key] is not among the
    entries and keeps the default of [__init__]. *)
Definition _get_init_params_from_dict (dct : gmap string pyval)
  : result init_params :=
  v_condition_key ← getitem dct "condition_key_";
  v_conditions ← getitem dct "conditions_";
  v_hidden_layer_sizes ← getitem dct "hidden_layer_sizes_";
  v_dr_rate ← getitem dct "dr_rate_";
  v_recon_loss ← getitem dct "recon_loss_";
  v_use_bn ← getitem dct "use_bn_";
  v_use_ln ← getitem dct "use_ln_";
  v_mask ← getitem dct "mask_";
  let v_decoder_last_layer :=
    get_or dct "decoder_last_layer_" (PyStr "softmax") in
  let v_use_l_encoder := get_or dct "use_l_encoder_" (PyBool false) in
  let v_n_ext := get_or dct "n_ext_" (PyInt 0) in
  let v_n_ext_m := get_or dct "n_ext_m_" (PyInt 0) in
  let v_soft_mask := get_or dct "soft_mask_" (PyBool false) in
  let v_soft_ext_mask := get_or dct "soft_ext_mask_" (PyBool false) in
  let v_hsic_one_vs_all := get_or dct "hsic_one_vs_all_" (PyBool false) in
  let v_use_hsic := get_or dct "use_hsic_" (PyBool false) in
  let v_ext_mask := get_or dct "ext_mask_" PyNone in
  p_condition_key ← as_opt_str v_condition_key;
  p_conditions ← as_opt_str_list v_conditions;
  p_hidden_layer_sizes ← as_int_list v_hidden_layer_sizes;
  p_dr_rate ← as_float v_dr_rate;
  p_recon_loss ← as_str v_recon_loss;
  p_use_bn ← as_bool v_use_bn;
  p_use_ln ← as_bool v_use_ln;
  p_mask ← as_opt_matrix v_mask;
  p_decoder_last_layer ← as_opt_str v_decoder_last_layer;
  p_use_l_encoder ← as_bool v_use_l_encoder;
  p_n_ext ← as_int v_n_ext;
  p_n_ext_m ← as_int v_n_ext_m;
  p_soft_mask ← as_bool v_soft_mask;
  p_soft_ext_mask ← as_bool v_soft_ext_mask;
  p_hsic_one_vs_all ← as_bool v_hsic_one_vs_all;
  p_use_hsic ← as_bool v_use_hsic;
  p_ext_mask ← as_opt_matrix v_ext_mask;
  Ok {| condition_key := p_condition_key;
        conditions := p_conditions;
        hidden_layer_sizes := p_hidden_layer_sizes;
        dr_rate := p_dr_rate;
        recon_loss := p_recon_loss;
        use_l_encoder := p_use_l_encoder;
        use_bn := p_use_bn;
        use_ln := p_use_ln;
        mask := p_mask;
        mask_key := "I";
        decoder_last_layer := p_decoder_last_layer;
        soft_mask := p_soft_mask;
        n_ext := p_n_ext;
        n_ext_m := p_n_ext_m;
        use_hsic := p_use_hsic;
        hsic_one_vs_all := p_hsic_one_vs_all;
        ext_mask := p_ext_mask;
        soft_ext_mask := p_soft_ext_mask |}.

(** [n != v] for an integer [n]: a value that is no number differs from
    it, [True] is 1 and [False] is 0. *)
Definition differs_from (n : Z) (v : pyval) : bool :=
  match v with
  | PyInt z => negb (n =? z)%Z
  | PyBool b => negb (n =? (if b then 1 else 0))%Z
  | PyFloat q => negb (Qeq_bool (inject_Z n) q)
  | _ => true
  end.

(** [EXPIMAP._validate_adata] *)
Definition _validate_adata {F} (adata : AnnData F) (dct : gmap string pyval)
  : result unit :=
  v_input_dim ← getitem dct "input_dim_";
  if differs_from (Z.of_nat (n_vars adata)) v_input_dim
  then Raise (ValueError "Incorrect var dimension")
  else
    v_condition_key ← getitem dct "condition_key_";
    col ← match v_condition_key with
          | PyStr k => getitem (obs adata) k
          | PyNone => Raise (KeyError "None")
          | _ => Raise Unsupported
          end;
    let adata_conditions := unique col in
    v_conditions ← getitem dct "conditions_";
    allowed ← match v_conditions with
              | PyStrList l => Ok l
              | PyStr s => Ok (chars s)
              | _ => Raise Unsupported
              end;
    if negb (forallb (fun c => bool_decide (c ∈ allowed)) adata_conditions)
    then Raise (ValueError "Incorrect conditions")
    else Ok tt.

(** ** Number systems *)

(** The reals, with the complementary error function as the integral it
    abbreviates: [erfc x = 1 - 2/sqrt(pi) * int_0^x exp(-t^2) dt]. *)
Definition gauss (t : R) : R := exp (- (t * t)).

Definition gauss_integrable (a b : R) : Riemann_integrable gauss a b.
Proof.
  assert (C : ∀ x : R, continuity_pt gauss x).
  { intro x. apply derivable_continuous_pt. unfold gauss. reg. }
  destruct (Rle_dec a b) as [Hab | Hab].
  - apply continuity_implies_RiemannInt; [exact Hab | intros x _; apply C].
  - apply RiemannInt_P1, continuity_implies_RiemannInt;
      [lra | intros x _; apply C].
Defined.

Definition erfc_R (x : R) : R :=
  (1 - 2 / sqrt PI * RiemannInt (gauss_integrable 0 x))%R.

#[export] Instance R_arith : Arith R := {|
  f0 := 0%R;
  f1 := 1%R;
  f2 := 2%R;
  fhalf := (1 / 2)%R;
  fadd := Rplus;
  fsub := Rminus;
  fmul := Rmult;
  fdiv := Rdiv;
  fopp := Ropp;
  fabs := Rabs;
  feqb := fun x y => if Req_dec_T x y then true else false;
  fltb := fun x y => if Rlt_dec x y then true else false;
  of_nat := INR
|}.

#[export] Instance R_special : Special R := {|
  fsqrt := sqrt;
  erfc := erfc_R;
  flog := ln;
  f1e_12 := (1 / 1000000000000)%R
|}.

(** ** A network for the examples *)

(** The features [0 .. k-1] of the cells [x], by column. *)
Definition columns_of {F} {AR : Arith F} (k : nat) (x : list (list F)) : matrix F :=
  map (fun j => map (fun row => nth j row f0) x) (seq 0 k).

(** A table of decoder weights; the encoder reads the first features of a
    cell as its latent values, with variance one. *)
Definition table_network {F} {AR : Arith F} (w : matrix F) : Network F := {|
  net := matrix F;
  expiMap := fun _ => Ok w;
  expr_L_weight := fun n => n;
  get_latent_sample := fun n x _ _ => Ok (columns_of (length n) x);
  get_latent_mean_var := fun n x _ =>
    Ok (columns_of (length n) x,
        map (map (fun _ => f1)) (columns_of (length n) x))
|}.

(** The dataset of the end-to-end scenario: three terms over ten genes. *)
Definition ten_genes : list string :=
  ["g0"; "g1"; "g2"; "g3"; "g4"; "g5"; "g6"; "g7"; "g8"; "g9"].

Definition three_terms : list (list Z) :=
  [[1; 1; 0; 0; 0; 0; 0; 0; 0; 0];
   [0; 0; 1; 1; 1; 0; 0; 0; 0; 0];
   [0; 0; 0; 0; 0; 1; 1; 1; 1; 1]]%Z.

Definition example_adata {F} : AnnData F := {|
  var_names := ten_genes;
  obs_names := [];
  obs := ∅;
  varm := ∅;
  X := [];
  uns := {[ "terms" := UTerms ["A"; "B"; "C"];
            "more_terms" := UTerms ["A"; "B"; "C"; "D"];
            "fewer_terms" := UTerms ["A"; "B"] ]}
|}.

Definition example_weights : matrix Q :=
  [[1; 2; 0; -1]; [-1; 0; 0; -3]; [0; 0; 0; 0]; [1; -1; 0; 0]]%Q.

Definition example_params (ext ext_m : Z) (hsic : bool) : init_params := {|
  condition_key := None;
  conditions := None;
  hidden_layer_sizes := [256%Z; 256%Z];
  dr_rate := (5 # 100)%Q;
  recon_loss := "nb";
  use_l_encoder := false;
  use_bn := false;
  use_ln := true;
  mask := Some three_terms;
  mask_key := "I";
  decoder_last_layer := None;
  soft_mask := false;
  n_ext := ext;
  n_ext_m := ext_m;
  use_hsic := hsic;
  hsic_one_vs_all := false;
  ext_mask := None;
  soft_ext_mask := false
|}.

(** The wrapper [init] builds for [example_params]. *)
Definition example_model (ext ext_m : Z) (hsic : bool)
  : @EXPIMAP Q (table_network example_weights) := {|
  adata_ := example_adata;
  condition_key_ := None;
  conditions_ := [];
  hidden_layer_sizes_ := [256%Z; 256%Z];
  dr_rate_ := (5 # 100)%Q;
  recon_loss_ := "nb";
  use_bn_ := false;
  use_ln_ := true;
  input_dim_ := 10%Z;
  use_l_encoder_ := false;
  decoder_last_layer_ := None;
  mask_ := three_terms;
  latent_dim_ := 3%Z;
  ext_mask_ := None;
  n_ext_ := ext;
  n_ext_m_ := ext_m;
  soft_mask_ := false;
  soft_ext_mask_ := false;
  use_hsic_ := hsic && (0 <? ext)%Z;
  hsic_one_vs_all_ := false;
  model := (example_weights : @net Q (table_network example_weights));
  is_trained_ := false
|}.

(** A dataset of four cells of two types, with two features, over the
    reals; the first feature is zero in every cell of type ["T"]. *)
Definition enrich_adata : AnnData R := {|
  var_names := ["g0"; "g1"];
  obs_names := ["c0"; "c1"; "c2"; "c3"];
  obs := {[ "cell_type" := ["T"; "B"; "T"; "B"];
            "batch" := ["b"; "b"; "b"; "b"] ]};
  varm := ∅;
  X := [[0; 2]; [3; 2]; [0; 2]; [5; 2]]%R;
  uns := ∅
|}.

Definition enrich_weights : matrix R := [[1; 1]; [1; -1]]%R.

Definition enrich_model : @EXPIMAP R (table_network enrich_weights) := {|
  adata_ := enrich_adata;
  condition_key_ := Some "batch";
  conditions_ := ["b"];
  hidden_layer_sizes_ := [256%Z; 256%Z];
  dr_rate_ := (5 # 100)%Q;
  recon_loss_ := "nb";
  use_bn_ := false;
  use_ln_ := true;
  input_dim_ := 2%Z;
  use_l_encoder_ := false;
  decoder_last_layer_ := None;
  mask_ := [[1; 0]; [0; 1]]%Z;
  latent_dim_ := 2%Z;
  ext_mask_ := None;
  n_ext_ := 0%Z;
  n_ext_m_ := 0%Z;
  soft_mask_ := false;
  soft_ext_mask_ := false;
  use_hsic_ := false;
  hsic_one_vs_all_ := false;
  model := (enrich_weights : @net R (table_network enrich_weights));
  is_trained_ := true
|}.

Definition first_world : world := {|
  rng := fun k => k;
  rng_pos := 0;
  encoder_calls := 0
|}.

(** A dataset with a condition column and a mask in [varm]: three genes by
    two terms. *)
Definition batch_adata : AnnData Q := {|
  var_names := ["g0"; "g1"; "g2"];
  obs_names := ["c0"; "c1"; "c2"; "c3"];
  obs := {[ "batch" := ["b1"; "b2"; "b1"; "b2"] ]};
  varm := {[ "I" := {| a_ncols := 2;
                       a_rows := [[1; 0]; [1; 1]; [0; 1]]%Z |} ]};
  X := [[1; 0; 2]; [0; 0; 1]; [3; 1; 0]; [0; 2; 2]]%Q;
  uns := ∅
|}.

Definition batch_params : init_params := {|
  condition_key := Some "batch";
  conditions := None;
  hidden_layer_sizes := [256%Z; 256%Z];
  dr_rate := (5 # 100)%Q;
  recon_loss := "nb";
  use_l_encoder := false;
  use_bn := false;
  use_ln := true;
  mask := None;
  mask_key := "I";
  decoder_last_layer := None;
  soft_mask := false;
  n_ext := 0%Z;
  n_ext_m := 0%Z;
  use_hsic := false;
  hsic_one_vs_all := false;
  ext_mask := None;
  soft_ext_mask := false
|}.

Definition batch_model : @EXPIMAP Q (table_network example_weights) := {|
  adata_ := batch_adata;
  condition_key_ := Some "batch";
  conditions_ := ["b1"; "b2"];
  hidden_layer_sizes_ := [256%Z; 256%Z];
  dr_rate_ := (5 # 100)%Q;
  recon_loss_ := "nb";
  use_bn_ := false;
  use_ln_ := true;
  input_dim_ := 3%Z;
  use_l_encoder_ := false;
  decoder_last_layer_ := None;
  mask_ := [[1; 1; 0]; [0; 1; 1]]%Z;
  latent_dim_ := 2%Z;
  ext_mask_ := None;
  n_ext_ := 0%Z;
  n_ext_m_ := 0%Z;
  soft_mask_ := false;
  soft_ext_mask_ := false;
  use_hsic_ := false;
  hsic_one_vs_all_ := false;
  model := (example_weights : @net Q (table_network example_weights));
  is_trained_ := false
|}.

(** The attributes of a model saved before the extension parameters
    existed: the required entries only. *)
Definition legacy_attrs : gmap string pyval :=
  list_to_map [
    ("condition_key_", PyStr "batch");
    ("conditions_", PyStrList ["b1"; "b2"]);
    ("hidden_layer_sizes_", PyIntList [256%Z; 256%Z]);
    ("dr_rate_", PyFloat (5 # 100)%Q);
    ("recon_loss_", PyStr "nb");
    ("use_bn_", PyBool false);
    ("use_ln_", PyBool true);
    ("input_dim_", PyInt 3);
    ("mask_", PyMatrix [[1; 1; 0]; [0; 1; 1]]%Z)
  ].

(** * Properties *)

(** ** Results and binds *)

Lemma bind_Ok {A B} (r : result A) (k : A → result B) (b : B) :
  r ≫= k = Ok b → ∃ a, r = Ok a ∧ k a = Ok b.
Proof. destruct r as [a | e]; [eauto | discriminate]. Qed.

Ltac inv_bind H :=
  let a := fresh "a" in
  let E := fresh "E" in
  apply bind_Ok in H as (a & E & H).

(** ** Construction *)

Section Construction.
Context {F : Type} {NW : Network F}.

Lemma init_fields (adata : AnnData F) (p : init_params) (w : EXPIMAP) :
  init adata p = Ok w →
  latent_dim_ w = Z.of_nat (length (mask_ w)) ∧
  (∀ m, mask p = Some m → mask_ w = m) ∧
  n_ext_ w = n_ext p ∧ n_ext_m_ w = n_ext_m p ∧
  use_hsic_ w = use_hsic p && (0 <? n_ext p)%Z ∧
  rectangular (mask_ w) = true.
Proof.
  unfold init. case_match; [discriminate |]. intros Hi.
  inv_bind Hi. inv_bind Hi. inv_bind Hi. inv_bind Hi. inv_bind Hi.
  injection Hi as <-. simpl. repeat split.
  - intros m Hm. rewrite Hm in E0. by injection E0.
  - unfold torch_tensor in E1. by destruct (rectangular a0).
Qed.

End Construction.

(** C1 (as amended).  The latent dimension a constructed wrapper records
    is the number of rows of its mask, whatever the extension sizes; these
    are recorded next to it, in [n_ext_] and [n_ext_m_], and are not added
    to [latent_dim_]. *)
Theorem latent_dim_is_mask_rows {F : Type} {NW : Network F}
    (adata : AnnData F) (p : init_params) (w : EXPIMAP) :
  init adata p = Ok w →
  latent_dim_ w = Z.of_nat (length (mask_ w)) ∧
  (∀ m, mask p = Some m → latent_dim_ w = Z.of_nat (length m)) ∧
  n_ext_ w = n_ext p ∧ n_ext_m_ w = n_ext_m p.
Proof.
  intros Hi. destruct (init_fields adata p w Hi) as (Hl & Hm & He & Hem & _).
  repeat split; try done. intros m Hp. by rewrite Hl, (Hm m Hp).
Qed.

Lemma latent_dim_is_mask_rows_witness :
  init (NW := table_network example_weights)
       example_adata (example_params 2 1 false)
    = Ok (example_model 2 1 false) ∧
  latent_dim_ (example_model 2 1 false) = 3%Z.
Proof.
  assert (Hi : init (NW := table_network example_weights)
                 example_adata (example_params 2 1 false)
               = Ok (example_model 2 1 false)) by (vm_compute; reflexivity).
  split; [exact Hi |].
  exact (proj1 (latent_dim_is_mask_rows _ _ _ Hi)).
Defined.

(** C1 (as stated) fails: a mask of three rows with [n_ext = 1] gives a
    wrapper whose [latent_dim_] is 3 and not 3 + 1 + 0. *)
Lemma latent_dim_counterexample :
  ¬ (∀ w, init (NW := table_network example_weights)
            example_adata (example_params 1 0 false) = Ok w →
          latent_dim_ w = (Z.of_nat (length three_terms) + 1 + 0)%Z).
Proof.
  intros Hc. specialize (Hc (example_model 1 0 false)).
  assert (Hi : init (NW := table_network example_weights)
                 example_adata (example_params 1 0 false)
               = Ok (example_model 1 0 false)) by (vm_compute; reflexivity).
  apply Hc in Hi. discriminate Hi.
Qed.

(** C7 (as amended).  With [use_hsic=true] the stored flag [use_hsic_] is
    enabled if and only if [n_ext > 0], the number of unconstrained
    extension dimensions; [n_ext_m] plays no part.  With [use_hsic=false]
    it is disabled. *)
Theorem use_hsic_needs_n_ext {F : Type} {NW : Network F}
    (adata : AnnData F) (p : init_params) (w : EXPIMAP) :
  init adata p = Ok w →
  (use_hsic p = true → (use_hsic_ w = true ↔ (0 < n_ext p)%Z)) ∧
  (use_hsic p = false → use_hsic_ w = false).
Proof.
  intros Hi. destruct (init_fields adata p w Hi) as (_ & _ & _ & _ & Hh & _).
  rewrite Hh. split; intros ->; simpl; [| done].
  by rewrite Z.ltb_lt.
Qed.

Lemma use_hsic_needs_n_ext_witness :
  init (NW := table_network example_weights)
       example_adata (example_params 2 0 true)
    = Ok (example_model 2 0 true) ∧
  (use_hsic_ (example_model 2 0 true) = true ↔ (0 < 2)%Z).
Proof.
  assert (Hi : init (NW := table_network example_weights)
                 example_adata (example_params 2 0 true)
               = Ok (example_model 2 0 true)) by (vm_compute; reflexivity).
  split; [exact Hi |].
  exact (proj1 (use_hsic_needs_n_ext _ _ _ Hi) eq_refl).
Defined.

(** C7 (as stated) fails: with [use_hsic=true], [n_ext = 0] and
    [n_ext_m = 1] an extension dimension exists and the flag is off. *)
Lemma use_hsic_counterexample :
  ¬ (∀ w, init (NW := table_network example_weights)
            example_adata (example_params 0 1 true) = Ok w →
          (use_hsic_ w = true ↔ (0 < 0 + 1)%Z)).
Proof.
  intros Hc. specialize (Hc (example_model 0 1 true)).
  assert (Hi : init (NW := table_network example_weights)
                 example_adata (example_params 0 1 true)
               = Ok (example_model 0 1 true)) by (vm_compute; reflexivity).
  apply Hc in Hi. destruct Hi as [_ Hi]. discriminate Hi. lia.
Qed.

(** ** Query data *)

(** C9.  When [new_n_ext_m] is given and [new_ext_mask] is not,
    [load_query_data] raises a value error and leaves the state as it
    found it, whatever the base surgery would do: it is not reached. *)
Theorem load_query_data_needs_ext_mask {F : Type} {NW : Network F}
    (state : Type)
    (base : gmap string param → state → result EXPIMAP * state)
    (named_parameters : net → list (string * bool))
    (set_requires_grad : net → list (string * bool) → net)
    (adata : AnnData F) (reference_model : reference)
    (freeze freeze_expression unfreeze_ext remove_dropout : bool)
    (new_n_ext : option Z) (n : Z) (new_soft_ext_mask : bool) (st : state) :
  load_query_data state base named_parameters set_requires_grad
    adata reference_model freeze freeze_expression unfreeze_ext
    remove_dropout new_n_ext (Some n) None new_soft_ext_mask st
  = (Raise (ValueError "Provide new ext_mask"), st).
Proof. unfold load_query_data. by destruct new_n_ext. Qed.

(** Without [new_n_ext_m] the call is the base surgery on the keyword
    dictionary (here with [freeze=false], so that no flag is touched
    afterwards). *)
Lemma load_query_data_delegates {F : Type} {NW : Network F}
    (state : Type)
    (base : gmap string param → state → result EXPIMAP * state)
    (named_parameters : net → list (string * bool))
    (set_requires_grad : net → list (string * bool) → net)
    (adata : AnnData F) (reference_model : reference)
    (freeze_expression unfreeze_ext remove_dropout : bool)
    (new_ext_mask : option (list (list Z))) (new_soft_ext_mask : bool)
    (st : state) :
  load_query_data state base named_parameters set_requires_grad
    adata reference_model false freeze_expression unfreeze_ext
    remove_dropout None None new_ext_mask new_soft_ext_mask st
  = base (<["remove_dropout" := PBool remove_dropout]>
          (<["freeze_expression" := PBool freeze_expression]>
          (<["freeze" := PBool false]>
          (<["reference_model" := PReference reference_model]>
          (<["adata" := PData adata]> ∅))))) st.
Proof.
  unfold load_query_data. simpl.
  by destruct (base _ st) as [[m | e] st'].
Qed.

(** ** Terms and genes *)

Lemma map_fmap {A B} (f : A → B) (l : list A) : map f l = f <$> l.
Proof. reflexivity. Qed.

Lemma rectangular_Forall {A} (m : list (list A)) (n : nat) :
  Forall (fun r => length r = n) m → rectangular m = true.
Proof.
  destruct m as [| r m]; [done |]. intros Hm. simpl.
  apply Forall_cons in Hm as [Hr Hm]. apply forallb_forall.
  intros r' Hin. apply Nat.eqb_eq. rewrite Hr.
  rewrite Forall_forall in Hm. apply Hm. by apply list_elem_of_In.
Qed.

Lemma last_occurrence (l : list string) (t : string) :
  t ∈ l → ∃ j, l !! j = Some t ∧ ∀ j', j < j' → l !! j' ≠ Some t.
Proof.
  induction l as [| x l IH]; [by intros ?%elem_of_nil |].
  intros Hin. destruct (decide (t ∈ l)) as [Hl | Hl].
  - destruct (IH Hl) as (j & Hj & Hlast). exists (S j). split; [done |].
    intros [| j'] Hlt; [lia |]. simpl. apply Hlast. lia.
  - apply elem_of_cons in Hin as [-> | Hin]; [| done].
    exists 0. split; [done |]. intros [| j'] Hlt; [lia |]. simpl.
    intros Hj'. apply Hl. by eapply list_elem_of_lookup_2.
Qed.

Section TermsGenes.
Context {F : Type} {NW : Network F}.

Lemma bool_index_Ok {A} (xs : list A) (b : list bool) (g : list A) :
  bool_index xs b = Ok g → length b = length xs ∧ g = select xs b.
Proof.
  unfold bool_index. destruct (Nat.eqb_spec (length b) (length xs));
    [| discriminate].
  by intros [= <-].
Qed.

Lemma row_at_Ok {A} (I : list A) (i : nat) (r : A) :
  row_at I i = Ok r → I !! i = Some r.
Proof. unfold row_at. destruct (I !! i); [by intros [= ->] | discriminate]. Qed.

(** What the comprehension leaves at a name: the genes of the row of its
    last position, or what was there before. *)
Lemma terms_dict_lookup (I : list (list bool)) (names : list string)
    (terms : list string) :
  ∀ i acc d, terms_dict I names i terms acc = Ok d →
  ∀ t, ((t ∉ terms) ∧ d !! t = acc !! t) ∨
       (∃ j r, terms !! j = Some t ∧
               (∀ j', j < j' → terms !! j' ≠ Some t) ∧
               I !! (i + j) = Some r ∧ length r = length names ∧
               d !! t = Some (select names r)).
Proof.
  induction terms as [| t0 ts IH]; intros i acc d Hd t.
  - injection Hd as <-. left. split; [apply not_elem_of_nil | done].
  - simpl in Hd. inv_bind Hd. inv_bind Hd.
    apply row_at_Ok in E. apply bool_index_Ok in E0 as [Hlen ->].
    destruct (IH _ _ _ Hd t) as [[Hnot Hlook] | (j & r & Hj & Hlast & Hr & Hl & Hlook)].
    + destruct (decide (t = t0)) as [-> | Hne].
      * right. exists 0, a. rewrite Nat.add_0_r.
        rewrite lookup_insert_eq in Hlook. repeat split; try done.
        intros [| j'] Hlt; [lia |]. simpl. intros Hj'. apply Hnot.
        by eapply list_elem_of_lookup_2.
      * left. rewrite lookup_insert_ne in Hlook by done.
        split; [| done]. by intros [? | ?]%elem_of_cons.
    + right. exists (S j), r. replace (i + S j) with (S i + j) by lia.
      repeat split; try done.
      intros [| j'] Hlt; [lia |]. simpl. apply Hlast. lia.
Qed.

Lemma terms_dict_total (I : list (list bool)) (names : list string) :
  Forall (fun r => length r = length names) I →
  ∀ terms i acc, i + length terms ≤ length I →
  ∃ d, terms_dict I names i terms acc = Ok d.
Proof.
  intros HI. induction terms as [| t0 ts IH]; intros i acc Hlen.
  - by eexists.
  - simpl in *. destruct (lookup_lt_is_Some_2 I i) as [r Hr]; [lia |].
    unfold row_at. rewrite Hr. simpl. unfold bool_index.
    rewrite Forall_lookup in HI. rewrite (HI _ _ Hr), Nat.eqb_refl. simpl.
    apply IH. lia.
Qed.

(** Past the last row the comprehension stops with an index error,
    whatever it met before. *)
Lemma terms_dict_overrun (I : list (list bool)) (names : list string) :
  ∀ terms i acc, i ≤ length I → length I < i + length terms →
  ∃ e, terms_dict I names i terms acc = Raise e ∧ e = IndexError.
Proof.
  induction terms as [| t0 ts IH]; intros i acc Hi Hlen; simpl in *; [lia |].
  unfold row_at. destruct (I !! i) as [r |] eqn:Hr; [| by eexists].
  simpl. unfold bool_index. destruct (Nat.eqb _ _); [| by eexists]. simpl.
  apply lookup_lt_Some in Hr. apply IH; lia.
Qed.

Lemma select_ones (names : list string) (row : list Z) :
  length row = length names →
  Forall (fun z => z = 0%Z ∨ z = 1%Z) row →
  select names (map (fun z => negb (z =? 0)%Z) row)
  = (filter (fun gz => gz.2 = 1%Z) (zip names row)).*1.
Proof.
  revert row. induction names as [| g names IH]; intros [| z row] Hlen Hb;
    try done.
  apply Forall_cons in Hb as [Hz Hb]. injection Hlen as Hlen.
  simpl. rewrite filter_cons. simpl.
  destruct Hz as [-> | ->]; simpl; [| f_equal]; by apply IH.
Qed.

End TermsGenes.

Section TermsGenesClaims.
Context {F : Type} {NW : Network F}.

Lemma terms_dict_size (I : list (list bool)) (names : list string) :
  ∀ terms i acc d, terms_dict I names i terms acc = Ok d →
  size d ≤ size acc + length terms.
Proof.
  induction terms as [| t0 ts IH]; intros i acc d Hd.
  - injection Hd as <-. lia.
  - simpl in Hd. inv_bind Hd. inv_bind Hd. apply IH in Hd.
    rewrite map_size_insert in Hd. simpl. destruct (acc !! t0); simpl in Hd; lia.
Qed.

Lemma np_array_bool_Ok (m : list (list Z)) (n : nat) :
  Forall (fun r => length r = n) m →
  np_array_bool m = Ok (map (map (fun z => negb (z =? 0)%Z)) m) ∧
  Forall (fun r => length r = n) (map (map (fun z => negb (z =? 0)%Z)) m).
Proof.
  intros Hm. unfold np_array_bool. rewrite (rectangular_Forall m n Hm).
  split; [done |]. rewrite map_fmap. apply Forall_fmap.
  eapply Forall_impl; [exact Hm |]. intros r Hr. simpl.
  by rewrite length_map.
Qed.

Lemma terms_dict_keys (I : list (list bool)) (names : list string)
    (terms : list string) (d : gmap string (list string)) :
  terms_dict I names 0 terms ∅ = Ok d →
  ∀ t, is_Some (d !! t) ↔ t ∈ terms.
Proof.
  intros Hd t.
  destruct (terms_dict_lookup _ _ _ _ _ _ Hd t)
    as [[Hnot Hl] | (j & r & Hj & _ & _ & _ & Hl)]; rewrite Hl.
  - rewrite lookup_empty. split; [by intros [? ?] | done].
  - split; [intros _; by eapply list_elem_of_lookup_2 | by eexists].
Qed.

(** C8.  On a wrapper whose mask is a 0/1 matrix with one entry per gene
    in every row, [terms_genes] with an explicit list raises a value error
    exactly when the length of the list differs from the number of mask
    rows.  On a list of the right length it returns a dictionary whose keys
    are the names of the list, and the name at a position (at its last
    position, if the list repeats it) is mapped to the names of the genes
    whose entry in the mask row of that position is 1, in gene order. *)
Theorem terms_genes_of_list (self : EXPIMAP) (l : list string) :
  Forall (fun row => length row = n_vars (adata_ self)) (mask_ self) →
  Forall (Forall (fun z => z = 0%Z ∨ z = 1%Z)) (mask_ self) →
  (is_value_error (terms_genes self (TermsList l)) = true
   ↔ length l ≠ length (mask_ self)) ∧
  (length l = length (mask_ self) →
   ∃ d, terms_genes self (TermsList l) = Ok d ∧
     (∀ t, is_Some (d !! t) ↔ t ∈ l) ∧
     (∀ i t, l !! i = Some t → (∀ j, i < j → l !! j ≠ Some t) →
        ∃ row, mask_ self !! i = Some row ∧
          d !! t = Some (filter (fun gz => gz.2 = 1%Z)
                           (zip (var_names (adata_ self)) row)).*1)).
Proof.
  intros Hw Hb.
  destruct (np_array_bool_Ok _ _ Hw) as [HI HIw].
  assert (Hlist : length l = length (mask_ self) →
    ∃ d, terms_genes self (TermsList l) = Ok d ∧
         terms_dict (map (map (fun z => negb (z =? 0)%Z)) (mask_ self))
           (var_names (adata_ self)) 0 l ∅ = Ok d).
  { intros Hlen. unfold terms_genes. rewrite Hlen, Nat.eqb_refl. simpl.
    rewrite HI. simpl.
    destruct (terms_dict_total _ _ HIw l 0 ∅) as [d Hd].
    - rewrite length_map. lia.
    - exists d. by rewrite Hd. }
  split.
  - destruct (decide (length l = length (mask_ self))) as [Hlen | Hlen].
    + destruct (Hlist Hlen) as (d & -> & _). simpl. split; [done | tauto].
    + unfold terms_genes. apply Nat.eqb_neq in Hlen as Hlen'.
      rewrite Hlen'. simpl. done.
  - intros Hlen. destruct (Hlist Hlen) as (d & Hd & Hdict).
    exists d. split; [done |]. split; [exact (terms_dict_keys _ _ _ _ Hdict) |].
    intros i t Hi Hlast.
    destruct (terms_dict_lookup _ _ _ _ _ _ Hdict t)
      as [[Hnot _] | (j & r & Hj & Hjlast & Hr & Hrl & Hl)].
    { exfalso. apply Hnot. by eapply list_elem_of_lookup_2. }
    assert (j = i) as ->.
    { destruct (Nat.lt_trichotomy i j) as [Hlt | [-> | Hlt]]; [| done |].
      - by destruct (Hlast j Hlt).
      - by destruct (Hjlast i Hlt). }
    simpl in Hr. rewrite map_fmap, list_lookup_fmap in Hr.
    destruct (mask_ self !! i) as [row |] eqn:Hrow; [| discriminate].
    injection Hr as <-. exists row. split; [done |]. rewrite Hl. f_equal.
    rewrite Forall_lookup in Hw. rewrite Forall_lookup in Hb.
    apply select_ones; [by apply (Hw _ _ Hrow) | by apply (Hb _ _ Hrow)].
Qed.

(** C10.  With a key of [adata.uns] the list of names found there is not
    checked against the mask: a list longer than the mask has rows ends in
    an index error, and not in the value error the same names raise when
    they are passed as a list; a shorter list returns a dictionary with no
    more entries than the list has names, so with fewer than the mask has
    rows. *)
Theorem terms_genes_of_key_unchecked (self : EXPIMAP) (key : string)
    (l : list string) :
  uns (adata_ self) !! key = Some (UTerms l) →
  Forall (fun row => length row = n_vars (adata_ self)) (mask_ self) →
  (length (mask_ self) < length l →
     terms_genes self (TermsKey key) = Raise IndexError ∧
     is_value_error (terms_genes self (TermsList l)) = true) ∧
  (length l < length (mask_ self) →
     ∃ d, terms_genes self (TermsKey key) = Ok d ∧
          (∀ t, is_Some (d !! t) ↔ t ∈ l) ∧
          size d ≤ length l ∧ size d < length (mask_ self)).
Proof.
  intros Hkey Hw.
  destruct (np_array_bool_Ok _ _ Hw) as [HI HIw].
  assert (Hrun : terms_genes self (TermsKey key)
    = terms_dict (map (map (fun z => negb (z =? 0)%Z)) (mask_ self))
        (var_names (adata_ self)) 0 l ∅).
  { unfold terms_genes, getitem. rewrite Hkey. simpl. by rewrite HI. }
  split; intros Hlen.
  - split.
    + rewrite Hrun.
      destruct (terms_dict_overrun
                  (map (map (fun z => negb (z =? 0)%Z)) (mask_ self))
                  (var_names (adata_ self)) l 0 ∅) as (e & -> & ->);
        [lia | rewrite length_map; lia | done].
    + unfold terms_genes.
      assert (Hne : Nat.eqb (length l) (length (mask_ self)) = false)
        by (apply Nat.eqb_neq; lia).
      by rewrite Hne.
  - destruct (terms_dict_total _ _ HIw l 0 ∅) as [d Hd];
      [rewrite length_map; lia |].
    exists d. rewrite Hrun. split; [done |].
    split; [exact (terms_dict_keys _ _ _ _ Hd) |].
    apply terms_dict_size in Hd. rewrite map_size_empty in Hd. lia.
Qed.

End TermsGenesClaims.

Lemma example_mask_fits :
  Forall (fun row => length row = n_vars (adata_ (example_model 0 0 false)))
         (mask_ (example_model 0 0 false)).
Proof. repeat constructor. Defined.

Lemma terms_genes_of_list_witness :
  ∃ d, terms_genes (example_model 0 0 false) (TermsList ["A"; "B"; "C"]) = Ok d
       ∧ d !! "B" = Some ["g2"; "g3"; "g4"].
Proof.
  destruct (terms_genes_of_list (example_model 0 0 false) ["A"; "B"; "C"])
    as [_ Hok].
  - exact example_mask_fits.
  - repeat (apply Forall_cons_2;
              [repeat (apply Forall_cons_2; [lia |]); apply Forall_nil_2 |]).
    apply Forall_nil_2.
  - destruct (Hok eq_refl) as (d & Hd & _ & Hrows). exists d. split; [done |].
    destruct (Hrows 1 "B" eq_refl) as (row & Hrow & ->).
    + intros [| [| [| j]]] Hlt; try lia; done.
    + injection Hrow as <-. reflexivity.
Defined.

Lemma terms_genes_of_key_unchecked_witness :
  terms_genes (example_model 0 0 false) (TermsKey "more_terms")
    = Raise IndexError ∧
  ∃ d, terms_genes (example_model 0 0 false) (TermsKey "fewer_terms") = Ok d
       ∧ size d ≤ 2.
Proof.
  split.
  - refine (proj1 (proj1 (terms_genes_of_key_unchecked
              (example_model 0 0 false) "more_terms" ["A"; "B"; "C"; "D"]
              _ example_mask_fits) _)).
    + vm_compute; reflexivity.
    + simpl; lia.
  - destruct (proj2 (terms_genes_of_key_unchecked
              (example_model 0 0 false) "fewer_terms" ["A"; "B"]
              ltac:(vm_compute; reflexivity) example_mask_fits))
      as (d & Hd & _ & Hsize & _).
    + simpl; lia.
    + exists d. split; [exact Hd | exact Hsize].
Defined.

(** The end-to-end scenario of the specification. *)
Example terms_genes_scenario :
  init (NW := table_network example_weights)
       example_adata (example_params 0 0 false)
    = Ok (example_model 0 0 false) ∧
  latent_dim_ (example_model 0 0 false) = 3%Z ∧
  terms_genes (example_model 0 0 false) (TermsList ["A"; "B"; "C"])
    = Ok {[ "A" := ["g0"; "g1"];
            "B" := ["g2"; "g3"; "g4"];
            "C" := ["g5"; "g6"; "g7"; "g8"; "g9"] ]}.
Proof. repeat split; vm_compute; reflexivity. Qed.

Example terms_genes_repeated_name :
  terms_genes (example_model 0 0 false) (TermsList ["A"; "B"; "A"])
    = Ok {[ "A" := ["g5"; "g6"; "g7"; "g8"; "g9"];
            "B" := ["g2"; "g3"; "g4"] ]}.
Proof. vm_compute; reflexivity. Qed.

(** ** Latent directions *)

Section Arrays.
Context {F : Type} {AR : Arith F}.

Lemma set_where_lookup (cond : F → bool) (v : F) (a : list F) (t : nat) :
  set_where cond v a !! t = (fun x => if cond x then v else x) <$> a !! t.
Proof. unfold set_where. rewrite map_fmap. apply list_lookup_fmap. Qed.

Lemma set_mask_lookup (m : list bool) (v : F) (a : list F) (t : nat)
    (b : bool) (x : F) :
  m !! t = Some b → a !! t = Some x →
  set_mask m v a !! t = Some (if b then v else x).
Proof.
  intros Hm Ha. unfold set_mask. rewrite lookup_zip_with, Hm. simpl.
  by rewrite Ha.
Qed.

Lemma map_lookup {A B} (f : A → B) (l : list A) (t : nat) (x : A) :
  l !! t = Some x → map f l !! t = Some (f x).
Proof. intros Hl. by rewrite map_fmap, list_lookup_fmap, Hl. Qed.

(** The sign and the confidence of one column, before any number is
    compared. *)
Lemma directions_counts_lookup (w : matrix F) (t : nat) (col : list F) :
  w !! t = Some col →
  let n := count_nonzero col in
  let r := ratio (count_positive col) n in
  (directions_counts w).1 !! t
    = Some (if Nat.eqb n 0 then f0
            else let s := if fltb fhalf r then f1 else r in
                 let s := if fltb s fhalf then fopp f1 else s in
                 if feqb s fhalf then f0 else s) ∧
  (directions_counts w).2 !! t
    = Some (if Nat.eqb n 0 then f0
            else fdiv (fabs (fsub r fhalf)) fhalf).
Proof.
  intros Hw n r. unfold directions_counts. simpl.
  assert (Hr : zip_with (fun u n => ratio u n)
                 (map count_positive w) (map count_nonzero w) !! t = Some r).
  { rewrite lookup_zip_with, (map_lookup _ _ _ _ Hw). simpl.
    by rewrite (map_lookup _ _ _ _ Hw). }
  assert (Hz : map (fun n => Nat.eqb n 0) (map count_nonzero w) !! t
               = Some (Nat.eqb n 0)).
  { apply (map_lookup (fun k => Nat.eqb k 0)). by apply map_lookup. }
  split.
  - erewrite set_mask_lookup; [reflexivity | exact Hz |].
    rewrite !set_where_lookup, Hr. reflexivity.
  - erewrite set_mask_lookup; [reflexivity | exact Hz |].
    by apply (map_lookup (fun c => fdiv (fabs (fsub c fhalf)) fhalf)).
Qed.

Lemma app_not_self (k a : string) : a ≠ "" → k ≠ k +:+ a.
Proof.
  intros Ha. induction k as [| c k IH]; intros Hk.
  - change ("" +:+ a) with a in Hk. by apply Ha.
  - change (String c k +:+ a) with (String c (k +:+ a)) in Hk.
    injection Hk as Hk. by apply IH.
Qed.

End Arrays.

Section DirectionsRun.
Context {F : Type} {AR : Arith F} {NW : Network F}.

Lemma latent_directions_counts_run (self : EXPIMAP) (get_confidence : bool)
    (adata : option (AnnData F)) (key_added : string) :
  latent_directions self "counts" get_confidence adata key_added
  = Ok (let w := directions_counts (expr_L_weight (model self)) in
        let written :=
          set_uns (default (adata_ self) adata) key_added (UArray w.1) in
        if get_confidence
        then set_uns written (key_added +:+ "_confindence") (UArray w.2)
        else written).
Proof.
  unfold latent_directions.
  destruct (directions_counts (expr_L_weight (model self))) as [s c].
  destruct get_confidence; reflexivity.
Qed.

Lemma latent_directions_signs_key (self : EXPIMAP) (get_confidence : bool)
    (adata : option (AnnData F)) (key_added : string) (adata' : AnnData F) :
  latent_directions self "counts" get_confidence adata key_added = Ok adata' →
  uns adata' !! key_added
  = Some (UArray (directions_counts (expr_L_weight (model self))).1).
Proof.
  rewrite latent_directions_counts_run. intros [= <-].
  destruct get_confidence; simpl; [| by rewrite lookup_insert_eq].
  rewrite lookup_insert_ne, lookup_insert_eq; [done |].
  intros Heq. by apply (app_not_self key_added "_confindence").
Qed.

End DirectionsRun.

Section Directions.
Context {NW : Network Q}.


End Directions.


Example directions_counts_example :
  let '(signs, confidence) := directions_counts example_weights in
  signs = [1; - (1); 0; 0]%Q ∧ map Qred confidence = [1 # 3; 1; 0; 0]%Q.
Proof. vm_compute. split; reflexivity. Qed.

Example directions_sum_example :
  directions_sum example_weights = [1; - (1); 0; 0]%Q.
Proof. vm_compute. reflexivity. Qed.

Section ConfidenceKey.
Context {F : Type} {AR : Arith F} {NW : Network F}.

(** C6 (what the code does).  With method ["counts"] and
    [get_confidence=true] the confidence array is written under the key
    with ["_confindence"] appended, and the entry under the key with
    ["_confidence"] appended is left as it was; the sign array is written
    under the key itself. *)
Theorem latent_directions_confidence_key (self : EXPIMAP)
    (adata : option (AnnData F)) (key_added : string) :
  ∃ adata',
    latent_directions self "counts" true adata key_added = Ok adata' ∧
    uns adata' !! key_added
      = Some (UArray (directions_counts (expr_L_weight (model self))).1) ∧
    uns adata' !! (key_added +:+ "_confindence")
      = Some (UArray (directions_counts (expr_L_weight (model self))).2) ∧
    uns adata' !! (key_added +:+ "_confidence")
      = uns (default (adata_ self) adata) !! (key_added +:+ "_confidence").
Proof.
  eexists.
  split; [exact (latent_directions_counts_run self true adata key_added) |].
  split; [exact (latent_directions_signs_key self true adata key_added _
                   (latent_directions_counts_run self true adata key_added)) |].
  simpl. split; [by rewrite lookup_insert_eq |].
  rewrite !lookup_insert_ne; [done | |].
  - intros Heq. symmetry in Heq.
    by apply (app_not_self key_added "_confidence").
  - intros Heq. by apply (inj (String.app key_added)) in Heq.
Qed.

End ConfidenceKey.

(** The failing input of C6: nothing is stored under
    ["directions_confidence"]. *)
Example confidence_key_misspelt :
  ∃ adata',
    latent_directions (NW := table_network example_weights)
      (example_model 0 0 false) "counts" true None "directions" = Ok adata' ∧
    uns adata' !! "directions_confidence" = None ∧
    is_Some (uns adata' !! "directions_confindence").
Proof. eexists. split; [reflexivity |]. split; [| eexists]; vm_compute; reflexivity. Qed.

(** ** Latent enrichment *)

Section Enrich.
Context {F : Type} {AR : Arith F} {SP : Special F} {NW : Network F}.

Lemma not_rest_true (comparison : comparison_arg) :
  comparison ≠ CompStr "rest" → not_rest comparison = true.
Proof.
  destruct comparison as [s | l]; [| done]. intros Hne. simpl.
  destruct (String.eqb_spec s "rest") as [-> | _]; [by destruct Hne | done].
Qed.

(** C2.  When the groups resolve to the categories [cats], a comparison
    that is not the string ["rest"] and whose elements all lie in [cats]
    makes [latent_enrich] raise a value error; the state is the one of the
    call, so no index was drawn and the encoder was not called, and no
    dataset is returned, so nothing was written. *)
Theorem latent_enrich_rejects_groups (self : EXPIMAP) (groups : groups_arg)
    (comparison : comparison_arg) (n_sample : nat) (use_directions : bool)
    (directions_key : string) (select_terms : option (list nat))
    (adata : option (AnnData F)) (exact : bool) (key_added : string)
    (w : world) (adata' : AnnData F) (cats_col cats : list string) :
  resolve_groups (default (adata_ self) adata) groups
    = Ok (adata', cats_col, cats) →
  comparison ≠ CompStr "rest" →
  (∀ c, c ∈ comparison_elems comparison → c ∈ cats) →
  latent_enrich self groups comparison n_sample use_directions
    directions_key select_terms adata exact key_added w
  = (Raise (ValueError
       "comparison should be 'rest' or among the passed groups"), w).
Proof.
  intros Hg Hrest Hsub. unfold latent_enrich, bind_M, lift. rewrite Hg.
  rewrite (not_rest_true _ Hrest).
  assert (Hall : forallb (fun c => bool_decide (c ∈ cats))
                   (comparison_elems comparison) = true).
  { apply forallb_forall. intros c Hc. apply bool_decide_eq_true.
    apply Hsub. by apply list_elem_of_In. }
  by rewrite Hall.
Qed.

End Enrich.

Lemma latent_enrich_rejects_groups_witness :
  latent_enrich (NW := table_network enrich_weights) enrich_model
    (GroupsKey "cell_type") (CompList ["B"]) 5000 false "directions" None
    None true "bf_scores" first_world
  = (Raise (ValueError
       "comparison should be 'rest' or among the passed groups"),
     first_world).
Proof.
  apply (latent_enrich_rejects_groups (NW := table_network enrich_weights)
           enrich_model (GroupsKey "cell_type") (CompList ["B"]) 5000 false
           "directions" None None true "bf_scores" first_world
           enrich_adata ["T"; "B"; "T"; "B"] ["T"; "B"]).
  - reflexivity.
  - discriminate.
  - intros c Hc. apply list_elem_of_singleton in Hc as ->.
    apply list_elem_of_further, list_elem_of_here.
Defined.

(** A single category name is rejected as well when each of its characters
    is a category. *)
Example latent_enrich_rejects_characters :
  ∀ w,
  latent_enrich (NW := table_network enrich_weights) enrich_model
    (GroupsKey "cell_type") (CompStr "TB") 5000 false "directions" None
    None true "bf_scores" w
  = (Raise (ValueError
       "comparison should be 'rest' or among the passed groups"), w).
Proof. intros w. vm_compute. reflexivity. Qed.

Section EnrichTerms.
Context {F : Type} {AR : Arith F} {SP : Special F} {NW : Network F}.

Lemma same_shape_spec (a b : matrix F) :
  same_shape a b = true →
  length a = length b ∧
  ∀ t ca cb, a !! t = Some ca → b !! t = Some cb → length ca = length cb.
Proof.
  unfold same_shape. intros [Hl Hc]%andb_true_iff.
  apply Nat.eqb_eq in Hl. split; [done |]. intros t ca cb Ha Hb.
  rewrite forallb_forall in Hc. apply Nat.eqb_eq.
  apply (Hc (ca, cb)), list_elem_of_In, (list_elem_of_lookup_2 _ t).
  rewrite lookup_zip_with, Ha. simpl. by rewrite Hb.
Qed.

Lemma zip_arrays_Ok (f : F → F → F) (a b c : matrix F) :
  zip_arrays f a b = Ok c →
  same_shape a b = true ∧ c = zip_with (zip_with f) a b.
Proof.
  unfold zip_arrays. destruct (same_shape a b); [| discriminate].
  by intros [= <-].
Qed.

Lemma zip_arrays_length (f : F → F → F) (a b c : matrix F) :
  zip_arrays f a b = Ok c → length c = length a ∧ length c = length b.
Proof.
  intros [Hs ->]%zip_arrays_Ok. apply same_shape_spec in Hs as [Hl _].
  rewrite length_zip_with_l_eq by done. by rewrite Hl.
Qed.

Lemma zero_columns_lookup (z : matrix F) (t : nat) (col : list F) :
  z !! t = Some col →
  zero_columns z !! t = Some (feqb (fsum (map fabs col)) f0).
Proof.
  intros Hz. unfold zero_columns.
  by apply (map_lookup (fun col => feqb (fsum (map fabs col)) f0)).
Qed.

Lemma zeros_mask_lookup (a0 a1 : matrix F) (t : nat) (c0 c1 : list F) :
  a0 !! t = Some c0 → a1 !! t = Some c1 →
  zip_with orb (zero_columns a0) (zero_columns a1) !! t
  = Some (feqb (fsum (map fabs c0)) f0 || feqb (fsum (map fabs c1)) f0).
Proof.
  intros H0 H1. rewrite lookup_zip_with, (zero_columns_lookup _ _ _ H0).
  simpl. by rewrite (zero_columns_lookup _ _ _ H1).
Qed.

(** What [bayes_factors] stores for a term, flagged or not. *)
Lemma bayes_factors_lookup (to_reduce : matrix F) (zeros_mask : list bool)
    (t : nat) (col : list F) (flag : bool) :
  to_reduce !! t = Some col → zeros_mask !! t = Some flag →
  let p := fmean col in
  let q := fsub f1 p in
  p_h0 (bayes_factors to_reduce zeros_mask) !! t
    = Some (if flag then f0 else p) ∧
  p_h1 (bayes_factors to_reduce zeros_mask) !! t
    = Some (if flag then f0 else q) ∧
  bf (bayes_factors to_reduce zeros_mask) !! t
    = Some (if flag then f0
            else fsub (flog (fadd p f1e_12)) (flog (fadd q f1e_12))).
Proof.
  intros Ht Hz p q. unfold bayes_factors. simpl.
  assert (Hp : map fmean to_reduce !! t = Some p) by by apply map_lookup.
  assert (Hq : map (fun p => fsub f1 p) (map fmean to_reduce) !! t = Some q)
    by by apply (map_lookup (fun p => fsub f1 p)).
  repeat split; (erewrite set_mask_lookup; [reflexivity | exact Hz |]);
    try done.
  by rewrite lookup_zip_with, Hp; simpl; rewrite Hq.
Qed.

Lemma tested_Ok (directions : option (list F))
    (select_terms : option (list nat)) (z b a : matrix F) :
  apply_directions directions z = Ok b → take_columns b select_terms = Ok a →
  tested directions select_terms z = Ok a.
Proof. intros Hb Ha. unfold tested. by rewrite Hb. Qed.

(** The shape of a successful run of lines 296 to 327. *)
Lemma reduce_terms_inv (exact : bool) (directions : option (list F))
    (select_terms : option (list nat)) (z0 z1 : latent)
    (to_reduce : matrix F) (zeros_mask : list bool) :
  reduce_terms exact directions select_terms z0 z1
    = Ok (to_reduce, zeros_mask) →
  ∃ a0 a1,
    tested directions select_terms (latent_values z0) = Ok a0 ∧
    tested directions select_terms (latent_values z1) = Ok a1 ∧
    length a0 = length to_reduce ∧ length a1 = length to_reduce ∧
    zeros_mask = zip_with orb (zero_columns a0) (zero_columns a1) ∧
    (exact = false →
       to_reduce
       = zip_with (zip_with (fun a b => if fltb b a then f1 else f0)) a0 a1) ∧
    (exact = true →
       ∃ m0 v0 m1 v1 w0 w1 z,
         z0 = MeanVar m0 v0 ∧ z1 = MeanVar m1 v1 ∧
         take_columns v0 select_terms = Ok w0 ∧
         take_columns v1 select_terms = Ok w1 ∧
         standardized a0 a1 w0 w1 = Ok z ∧
         to_reduce = map (map (fun t => fmul fhalf (erfc t))) z).
Proof.
  unfold reduce_terms. destruct exact; simpl.
  - destruct z0 as [| m0 v0], z1 as [| m1 v1]; try discriminate.
    intros Hr. inv_bind Hr. inv_bind Hr. inv_bind Hr. inv_bind Hr.
    inv_bind Hr. inv_bind Hr. inv_bind Hr. injection Hr as <- <-.
    exists a1, a2. simpl.
    split; [by eapply tested_Ok |]. split; [by eapply tested_Ok |].
    assert (Hlen : length a5 = length a1 ∧ length a5 = length a2).
    { unfold standardized in E5. inv_bind E5. inv_bind E5.
      destruct (zip_arrays_length _ _ _ _ E5) as [H1 _].
      destruct (zip_arrays_length _ _ _ _ E6) as [H2 H3]. lia. }
    rewrite length_map. repeat split; try lia.
    intros _. by exists m0, v0, m1, v1, a3, a4, a5.
  - destruct z0 as [z0 |], z1 as [z1 |]; try discriminate.
    intros Hr. inv_bind Hr. inv_bind Hr. inv_bind Hr. inv_bind Hr.
    inv_bind Hr. injection Hr as <- <-.
    exists a1, a2. simpl.
    split; [by eapply tested_Ok |]. split; [by eapply tested_Ok |].
    destruct (zip_arrays_length _ _ _ _ E3) as [H1 H2].
    apply zip_arrays_Ok in E3 as [_ ->].
    repeat split; try done; by rewrite <- ?H1, <- ?H2.
Qed.

(** The scores of two encoder outputs: a term whose column in one of
    them has absolute values that sum to exactly 0 gets 0 three times. *)
Lemma enrich_terms_zero_sum (exact : bool) (directions : option (list F))
    (select_terms : option (list nat)) (z0 z1 : latent) (sc : scores F)
    (a0 a1 : matrix F) (t : nat) (col : list F) :
  enrich_terms exact directions select_terms z0 z1 = Ok sc →
  tested directions select_terms (latent_values z0) = Ok a0 →
  tested directions select_terms (latent_values z1) = Ok a1 →
  a0 !! t = Some col ∨ a1 !! t = Some col →
  feqb (fsum (map fabs col)) f0 = true →
  p_h0 sc !! t = Some f0 ∧ p_h1 sc !! t = Some f0 ∧ bf sc !! t = Some f0.
Proof.
  intros He H0 H1 Hcol Hzero. unfold enrich_terms in He. inv_bind He.
  destruct a as [to_reduce zeros_mask]. injection He as <-.
  apply reduce_terms_inv in E
    as (b0 & b1 & Hb0 & Hb1 & Hl0 & Hl1 & -> & _).
  rewrite H0 in Hb0. rewrite H1 in Hb1.
  injection Hb0 as <-. injection Hb1 as <-.
  assert (Ht : t < length to_reduce).
  { destruct Hcol as [Hc | Hc]; apply lookup_lt_Some in Hc; lia. }
  destruct (lookup_lt_is_Some_2 to_reduce t Ht) as [x Hx].
  destruct (lookup_lt_is_Some_2 a0 t) as [c0 Hc0]; [lia |].
  destruct (lookup_lt_is_Some_2 a1 t) as [c1 Hc1]; [lia |].
  assert (Hflag : zip_with orb (zero_columns a0) (zero_columns a1) !! t
                  = Some true).
  { rewrite (zeros_mask_lookup _ _ _ _ _ Hc0 Hc1). f_equal.
    destruct Hcol as [Hc | Hc]; rewrite Hc in *.
    - injection Hc0 as <-. by rewrite Hzero.
    - injection Hc1 as <-. rewrite Hzero. apply orb_true_r. }
  exact (bayes_factors_lookup _ _ _ _ _ Hx Hflag).
Qed.

End EnrichTerms.

(** ** Latent enrichment over the reals *)

Lemma erfc_R_0 : erfc_R 0 = 1%R.
Proof. unfold erfc_R. rewrite RiemannInt_P9. lra. Qed.

Lemma feqb_R_true (x y : R) : feqb x y = true ↔ x = y.
Proof. simpl. destruct (Req_dec_T x y); split; try done. Qed.

Lemma fsum_R_replicate (n : nat) (x acc : R) :
  fold_left Rplus (replicate n x) acc = (acc + INR n * x)%R.
Proof.
  revert acc. induction n as [| n IH]; intros acc.
  - simpl. lra.
  - change (replicate (S n) x) with (x :: replicate n x).
    cbn [fold_left]. rewrite IH, S_INR. lra.
Qed.

Lemma fmean_R_half (n : nat) :
  n ≠ 0 → fmean (replicate n (1 / 2)%R) = (1 / 2)%R.
Proof.
  intros Hn. unfold fmean, fsum. cbn [fadd fdiv f0 of_nat R_arith].
  rewrite fsum_R_replicate, length_replicate.
  apply not_0_INR in Hn. field. exact Hn.
Qed.

Lemma equal_means_standardized (col cv : list R) :
  length cv = length col →
  zip_with Rdiv (zip_with Rminus col col) cv = replicate (length col) 0%R.
Proof.
  revert cv. induction col as [| x col IH]; intros [| y cv] Hlen; try done.
  simpl in *. rewrite IH by lia. f_equal. unfold Rdiv, Rminus.
  rewrite Rplus_opp_r. apply Rmult_0_l.
Qed.

(** The scores of two encoder outputs with the same means at a term,
    over the reals. *)
Lemma enrich_terms_equal_means (directions : option (list R))
    (select_terms : option (list nat)) (m0 v0 m1 v1 : matrix R)
    (sc : scores R) (a0 a1 w0 w1 : matrix R) (t : nat) (col c0 c1 : list R) :
  enrich_terms true directions select_terms (MeanVar m0 v0) (MeanVar m1 v1)
    = Ok sc →
  tested directions select_terms m0 = Ok a0 →
  tested directions select_terms m1 = Ok a1 →
  take_columns v0 select_terms = Ok w0 →
  take_columns v1 select_terms = Ok w1 →
  a0 !! t = Some col → a1 !! t = Some col →
  w0 !! t = Some c0 → w1 !! t = Some c1 →
  Forall (fun v => (0 < v)%R) c0 → Forall (fun v => (0 < v)%R) c1 →
  fsum (map Rabs col) ≠ 0%R →
  ∃ z to_reduce zeros_mask,
    standardized a0 a1 w0 w1 = Ok z ∧
    z !! t = Some (replicate (length col) 0%R) ∧
    reduce_terms true directions select_terms (MeanVar m0 v0) (MeanVar m1 v1)
      = Ok (to_reduce, zeros_mask) ∧
    to_reduce !! t = Some (replicate (length col) (1 / 2)%R) ∧
    zeros_mask !! t = Some false ∧
    p_h0 sc !! t = Some (1 / 2)%R ∧
    p_h1 sc !! t = Some (1 / 2)%R ∧
    bf sc !! t = Some 0%R.
Proof.
  intros He H0 H1 Hw0 Hw1 Hc0 Hc1 Hv0 Hv1 _ _ Hnz.
  unfold enrich_terms in He. inv_bind He.
  destruct a as [to_reduce zeros_mask]. injection He as <-.
  pose proof E as Hred.
  apply reduce_terms_inv in E
    as (b0 & b1 & Hb0 & Hb1 & _ & _ & -> & _ & Hex).
  destruct (Hex eq_refl)
    as (m0' & v0' & m1' & v1' & w0' & w1' & z
        & [= <- <-] & [= <- <-] & Hw0' & Hw1' & Hz & ->).
  simpl in Hb0, Hb1. rewrite H0 in Hb0. rewrite H1 in Hb1.
  rewrite Hw0 in Hw0'. rewrite Hw1 in Hw1'.
  injection Hb0 as <-. injection Hb1 as <-.
  injection Hw0' as <-. injection Hw1' as <-.
  assert (Hzt : z !! t = Some (replicate (length col) 0%R)).
  { unfold standardized in Hz. inv_bind Hz. inv_bind Hz.
    apply zip_arrays_Ok in E as [_ ->]. apply zip_arrays_Ok in E0 as [_ ->].
    apply zip_arrays_Ok in Hz as [Hs ->].
    apply same_shape_spec in Hs as [_ Hs].
    assert (Hd : zip_with (zip_with fsub) a1 a0 !! t
                 = Some (zip_with Rminus col col)).
    { rewrite lookup_zip_with, Hc1. simpl. by rewrite Hc0. }
    assert (Hq : map (map (fun v => fsqrt (fmul f2 v)))
                   (zip_with (zip_with fadd) w0 w1) !! t
                 = Some (map (fun v => fsqrt (fmul f2 v))
                           (zip_with Rplus c0 c1))).
    { apply (map_lookup (map (fun v => fsqrt (fmul f2 v)))).
      rewrite lookup_zip_with, Hv0. simpl. by rewrite Hv1. }
    rewrite lookup_zip_with, Hd, Hq. cbn [mbind option_bind]. f_equal.
    apply equal_means_standardized.
    rewrite <- (Hs _ _ _ Hd Hq). by apply length_zip_with_l_eq. }
  assert (Htr : map (map (fun x => fmul fhalf (erfc x))) z !! t
                = Some (replicate (length col) (1 / 2)%R)).
  { rewrite (map_lookup _ _ _ _ Hzt). f_equal.
    rewrite map_fmap, fmap_replicate. f_equal.
    cbn [fmul fhalf erfc R_arith R_special]. rewrite erfc_R_0. lra. }
  assert (Hnz' : feqb (fsum (map fabs col)) f0 = false).
  { apply not_true_iff_false. rewrite feqb_R_true. exact Hnz. }
  assert (Hflag : zip_with orb (zero_columns a0) (zero_columns a1) !! t
                  = Some false).
  { rewrite (zeros_mask_lookup _ _ _ _ _ Hc0 Hc1). by rewrite Hnz'. }
  assert (Hn : length col ≠ 0).
  { intros Hl. apply Hnz. by destruct col. }
  destruct (bayes_factors_lookup _ _ _ _ _ Htr Hflag) as (Hp & Hq & Hb).
  rewrite (fmean_R_half _ Hn) in Hp, Hq, Hb.
  exists z, (map (map (fun x => fmul fhalf (erfc x))) z),
    (zip_with orb (zero_columns a0) (zero_columns a1)).
  repeat split; try done.
  - rewrite Hq. f_equal. cbn [fsub f1 R_arith]. lra.
  - rewrite Hb. f_equal. cbn [fsub fadd f1 flog f1e_12 R_arith R_special].
    replace (1 - 1 / 2)%R with (1 / 2)%R by lra. lra.
Qed.

(** ** From the stored scores to the test *)

Section Stored.
Context {F : Type} {AR : Arith F} {SP : Special F} {NW : Network F}.

Lemma bind_M_Ok {A B} (m : M A) (k : A → M B) (w w' : world) (b : B) :
  bind_M m k w = (Ok b, w') →
  ∃ a w1, m w = (Ok a, w1) ∧ k a w1 = (Ok b, w').
Proof.
  unfold bind_M. destruct (m w) as [[a | e] w1]; [eauto | discriminate].
Qed.

Lemma lift_Ok {A} (r : result A) (w w' : world) (a : A) :
  lift r w = (Ok a, w') → r = Ok a ∧ w' = w.
Proof. unfold lift. by intros [= -> ->]. Qed.

Lemma choice_Ok (a size : nat) (w w' : world) (l : list nat) :
  choice a size w = (Ok l, w') →
  encoder_calls w' = encoder_calls w ∧ rng w' = rng w ∧ length l = size.
Proof.
  unfold choice. destruct (_ && _); [discriminate |]. intros [= <- <-].
  by rewrite length_map, length_seq.
Qed.

Lemma choice_world (a size : nat) (w w' : world) (l : list nat) :
  choice a size w = (Ok l, w') →
  w' = {| rng := rng w;
          rng_pos := rng_pos w + size;
          encoder_calls := encoder_calls w |}.
Proof.
  unfold choice. destruct (_ && _); [discriminate |]. by intros [= _ <-].
Qed.

Lemma get_latent_Ok (self : EXPIMAP) (x : list (list F)) (c : list string)
    (mean_var : bool) (w w' : world) (z : latent) :
  get_latent self x c mean_var w = (Ok z, w') →
  encoder_calls w' = S (encoder_calls w) ∧ rng w' = rng w.
Proof. unfold get_latent. destruct mean_var; by intros [= _ <-]. Qed.

Lemma get_latent_world (self : EXPIMAP) (x : list (list F))
    (c : list string) (mean_var : bool) (w w' : world) (z : latent) :
  get_latent self x c mean_var w = (Ok z, w') →
  w' = {| rng := rng w;
          rng_pos := if mean_var then rng_pos w else S (rng_pos w);
          encoder_calls := S (encoder_calls w) |}.
Proof. unfold get_latent. destruct mean_var; by intros [= _ <-]. Qed.

(** The two groups of a round that returns were encoded in a state that
    is a function of the one the round began in. *)
Lemma encode_groups_world (self : EXPIMAP) (adata : AnnData F)
    (cats_col : list string) (comparison : comparison_arg) (cat : string)
    (n_sample : nat) (use_directions : bool) (directions_key : string)
    (exact : bool) (w w' : world) (r : option (list F) * latent * latent) :
  encode_groups self adata cats_col comparison cat n_sample use_directions
    directions_key exact w = (Ok r, w') →
  w' = after_round n_sample exact w.
Proof.
  unfold encode_groups. intros Hc.
  apply bind_M_Ok in Hc as (? & w1 & [_ ->]%lift_Ok & Hc).
  apply bind_M_Ok in Hc as (? & w2 & ->%choice_world & Hc).
  apply bind_M_Ok in Hc as (? & w3 & ->%choice_world & Hc).
  apply bind_M_Ok in Hc as (? & w4 & [_ ->]%lift_Ok & Hc).
  apply bind_M_Ok in Hc as (? & w5 & [_ ->]%lift_Ok & Hc).
  apply bind_M_Ok in Hc as (? & w6 & [_ ->]%lift_Ok & Hc).
  apply bind_M_Ok in Hc as (? & w7 & [_ ->]%lift_Ok & Hc).
  apply bind_M_Ok in Hc as (? & w8 & ->%get_latent_world & Hc).
  apply bind_M_Ok in Hc as (? & w9 & [_ ->]%lift_Ok & Hc).
  apply bind_M_Ok in Hc as (? & w10 & ->%get_latent_world & Hc).
  injection Hc as _ <-. unfold after_round. by destruct exact.
Qed.

(** A round that returns: the scores are those of the two encoder
    outputs of the round. *)
Lemma enrich_category_inv (self : EXPIMAP) (adata : AnnData F)
    (cats_col : list string) (comparison : comparison_arg) (cat : string)
    (n_sample : nat) (use_directions : bool) (directions_key : string)
    (select_terms : option (list nat)) (exact : bool) (w w' : world)
    (sc : scores F) :
  enrich_category self adata cats_col comparison cat n_sample use_directions
    directions_key select_terms exact w = (Ok sc, w') →
  ∃ directions z0 z1,
    encode_groups self adata cats_col comparison cat n_sample use_directions
      directions_key exact w = (Ok (directions, z0, z1), w') ∧
    enrich_terms exact directions select_terms z0 z1 = Ok sc.
Proof.
  unfold enrich_category. intros Hc.
  apply bind_M_Ok in Hc as ([[directions z0] z1] & w1 & He & Hc).
  apply lift_Ok in Hc as [Hc ->]. by exists directions, z0, z1.
Qed.

Lemma enrich_category_Ok (self : EXPIMAP) (adata : AnnData F)
    (cats_col : list string) (comparison : comparison_arg) (cat : string)
    (n_sample : nat) (use_directions : bool) (directions_key : string)
    (select_terms : option (list nat)) (exact : bool) (w w' : world)
    (sc : scores F) :
  enrich_category self adata cats_col comparison cat n_sample use_directions
    directions_key select_terms exact w = (Ok sc, w') →
  ∃ directions z0 z1,
    enrich_terms exact directions select_terms z0 z1 = Ok sc.
Proof.
  intros (directions & z0 & z1 & _ & He)%enrich_category_inv. eauto.
Qed.

Lemma enrich_category_world (self : EXPIMAP) (adata : AnnData F)
    (cats_col : list string) (comparison : comparison_arg) (cat : string)
    (n_sample : nat) (use_directions : bool) (directions_key : string)
    (select_terms : option (list nat)) (exact : bool) (w w' : world)
    (sc : scores F) :
  enrich_category self adata cats_col comparison cat n_sample use_directions
    directions_key select_terms exact w = (Ok sc, w') →
  w' = after_round n_sample exact w.
Proof.
  intros (directions & z0 & z1 & He & _)%enrich_category_inv.
  by eapply encode_groups_world.
Qed.

(** One round of the loop that returns called the encoder twice. *)
Lemma enrich_category_calls (self : EXPIMAP) (adata : AnnData F)
    (cats_col : list string) (comparison : comparison_arg) (cat : string)
    (n_sample : nat) (use_directions : bool) (directions_key : string)
    (select_terms : option (list nat)) (exact : bool) (w w' : world)
    (sc : scores F) :
  enrich_category self adata cats_col comparison cat n_sample use_directions
    directions_key select_terms exact w = (Ok sc, w') →
  encoder_calls w' = encoder_calls w + 2 ∧ rng w' = rng w.
Proof.
  intros ->%enrich_category_world. simpl. split; [lia | done].
Qed.

(** Every score the loop stores is the result of [enrich_terms] on two
    encoder outputs. *)
Lemma enrich_loop_Ok (self : EXPIMAP) (adata : AnnData F)
    (cats_col : list string) (comparison : comparison_arg)
    (n_sample : nat) (use_directions : bool) (directions_key : string)
    (select_terms : option (list nat)) (exact : bool)
    (P : scores F → Prop) :
  (∀ sc directions z0 z1,
     enrich_terms exact directions select_terms z0 z1 = Ok sc → P sc) →
  ∀ cats acc w d w',
    map_Forall (fun _ sc => P sc) acc →
    enrich_loop self adata cats_col comparison n_sample use_directions
      directions_key select_terms exact cats acc w = (Ok d, w') →
    map_Forall (fun _ sc => P sc) d.
Proof.
  intros HP. induction cats as [| cat cats IH]; intros acc w d w' Hacc Hl.
  - by injection Hl as <- _.
  - simpl in Hl. destruct (cat_in cat comparison); [by eapply IH |].
    apply bind_M_Ok in Hl as (sc & w1 & Hsc & Hl).
    apply enrich_category_Ok in Hsc as (directions & z0 & z1 & Hsc).
    eapply IH; [| exact Hl]. apply map_Forall_insert_2; [| done].
    by eapply HP.
Qed.

Lemma latent_enrich_Ok (self : EXPIMAP) (groups : groups_arg)
    (comparison : comparison_arg) (n_sample : nat) (use_directions : bool)
    (directions_key : string) (select_terms : option (list nat))
    (adata : option (AnnData F)) (exact : bool) (key_added : string)
    (w w' : world) (adata' : AnnData F) :
  latent_enrich self groups comparison n_sample use_directions
    directions_key select_terms adata exact key_added w = (Ok adata', w') →
  ∃ d, uns adata' !! key_added = Some (UScores d) ∧
       ∀ cat sc, d !! cat = Some sc →
         ∃ directions z0 z1,
           enrich_terms exact directions select_terms z0 z1 = Ok sc.
Proof.
  unfold latent_enrich. intros Hl.
  apply bind_M_Ok in Hl as ([[ad cats_col] cats] & w1 & _ & Hl).
  destruct (_ && _); [discriminate |].
  apply bind_M_Ok in Hl as (d & w2 & Hloop & Hl).
  injection Hl as <- _. exists d. split; [apply lookup_insert_eq |].
  intros cat sc Hsc.
  eapply (enrich_loop_Ok _ _ _ _ _ _ _ _ _
            (fun sc => ∃ directions z0 z1,
               enrich_terms exact directions select_terms z0 z1 = Ok sc))
    in Hloop; [by apply (Hloop cat sc) | by eauto | apply map_Forall_empty].
Qed.

(** What the loop that returns has stored and how often it called the
    encoder. *)
Lemma enrich_loop_run (self : EXPIMAP) (adata : AnnData F)
    (cats_col : list string) (comparison : comparison_arg)
    (n_sample : nat) (use_directions : bool) (directions_key : string)
    (select_terms : option (list nat)) (exact : bool) :
  ∀ cats acc w d w',
    enrich_loop self adata cats_col comparison n_sample use_directions
      directions_key select_terms exact cats acc w = (Ok d, w') →
    (∀ cat, is_Some (d !! cat) ↔
            is_Some (acc !! cat) ∨
            (cat ∈ cats ∧ cat_in cat comparison = false)) ∧
    encoder_calls w' = encoder_calls w +
      2 * length (filter (fun cat => cat_in cat comparison = false) cats) ∧
    rng w' = rng w.
Proof.
  induction cats as [| cat cats IH]; intros acc w d w' Hl.
  - injection Hl as <- <-. split; [| split; [simpl; lia | done]].
    intros cat. rewrite elem_of_nil. tauto.
  - simpl in Hl. rewrite filter_cons.
    destruct (cat_in cat comparison) eqn:Hcat.
    + apply IH in Hl as (Hk & Hc & Hr).
      rewrite decide_False by (simpl; congruence).
      split; [| done]. intros c. rewrite Hk, elem_of_cons.
      split; [tauto |]. intros [? | [[-> | ?] Hc']]; [tauto | | tauto].
      congruence.
    + apply bind_M_Ok in Hl as (sc & w1 & Hsc & Hl).
      apply enrich_category_calls in Hsc as [Hc1 Hr1].
      apply IH in Hl as (Hk & Hc & Hr).
      rewrite decide_True by (simpl; congruence). cbn [length].
      split; [| split; [lia | congruence]].
      intros c. rewrite Hk, elem_of_cons.
      destruct (decide (c = cat)) as [-> | Hne].
      * rewrite lookup_insert_eq. split; [| by eauto]. intros _. by eauto.
      * rewrite lookup_insert_ne by done. tauto.
Qed.

(** The loop leaves the entry of a category it does not come to. *)
Lemma enrich_loop_keeps (self : EXPIMAP) (adata : AnnData F)
    (cats_col : list string) (comparison : comparison_arg)
    (n_sample : nat) (use_directions : bool) (directions_key : string)
    (select_terms : option (list nat)) (exact : bool) :
  ∀ cats acc w d w',
    enrich_loop self adata cats_col comparison n_sample use_directions
      directions_key select_terms exact cats acc w = (Ok d, w') →
    ∀ c, c ∉ cats → d !! c = acc !! c.
Proof.
  induction cats as [| h cats IH]; intros acc w d w' Hl c Hc.
  - by injection Hl as <- _.
  - apply not_elem_of_cons in Hc as [Hne Hc]. simpl in Hl.
    destruct (cat_in h comparison); [by eapply IH |].
    apply bind_M_Ok in Hl as (sc & w1 & _ & Hl).
    rewrite (IH _ _ _ _ Hl c Hc). by rewrite lookup_insert_ne.
Qed.

(** The round of the [k]-th category that is not skipped begins in the
    state that [k] rounds leave, and its scores are the ones stored for
    the category. *)
Lemma enrich_loop_round (self : EXPIMAP) (adata : AnnData F)
    (cats_col : list string) (comparison : comparison_arg)
    (n_sample : nat) (use_directions : bool) (directions_key : string)
    (select_terms : option (list nat)) (exact : bool) :
  ∀ cats acc w d w',
    NoDup cats →
    enrich_loop self adata cats_col comparison n_sample use_directions
      directions_key select_terms exact cats acc w = (Ok d, w') →
    ∀ k cat,
      filter (fun c => cat_in c comparison = false) cats !! k = Some cat →
      ∃ sc,
        enrich_category self adata cats_col comparison cat n_sample
          use_directions directions_key select_terms exact
          (Nat.iter k (after_round n_sample exact) w)
        = (Ok sc, Nat.iter (S k) (after_round n_sample exact) w) ∧
        d !! cat = Some sc.
Proof.
  induction cats as [| h cats IH]; intros acc w d w' Hnd Hl k cat Hk.
  - done.
  - apply NoDup_cons in Hnd as [Hh Hnd]. simpl in Hl.
    rewrite filter_cons in Hk.
    destruct (cat_in h comparison) eqn:Hcat.
    + rewrite decide_False in Hk by (simpl; congruence). by eapply IH.
    + rewrite decide_True in Hk by (simpl; congruence).
      apply bind_M_Ok in Hl as (sc & w1 & Hsc & Hl).
      pose proof (enrich_category_world _ _ _ _ _ _ _ _ _ _ _ _ _ Hsc) as ->.
      destruct k as [| k].
      * injection Hk as <-. exists sc. split; [exact Hsc |].
        rewrite (enrich_loop_keeps _ _ _ _ _ _ _ _ _ _ _ _ _ _ Hl h Hh).
        apply lookup_insert_eq.
      * destruct (IH _ _ _ _ Hnd Hl k cat Hk) as (sc' & Hsc' & Hd).
        exists sc'. split; [| exact Hd].
        rewrite (Nat.iter_succ_r k), (Nat.iter_succ_r (S k)). exact Hsc'.
Qed.

Lemma latent_enrich_inv (self : EXPIMAP) (groups : groups_arg)
    (comparison : comparison_arg) (n_sample : nat) (use_directions : bool)
    (directions_key : string) (select_terms : option (list nat))
    (adata : option (AnnData F)) (exact : bool) (key_added : string)
    (w w' : world) (adata' ad : AnnData F) (cats_col cats : list string) :
  resolve_groups (default (adata_ self) adata) groups
    = Ok (ad, cats_col, cats) →
  latent_enrich self groups comparison n_sample use_directions
    directions_key select_terms adata exact key_added w = (Ok adata', w') →
  ∃ d,
    adata' = set_uns ad key_added (UScores d) ∧
    enrich_loop self ad cats_col
      match comparison with
      | CompStr s => if String.eqb s "rest" then comparison else CompList [s]
      | CompList _ => comparison
      end n_sample use_directions directions_key select_terms exact cats ∅ w
    = (Ok d, w').
Proof.
  intros Hg Hl. unfold latent_enrich in Hl.
  apply bind_M_Ok in Hl as ([[ad' cats_col'] cats'] & w1 & Hg' & Hl).
  apply lift_Ok in Hg' as [Hg' ->]. rewrite Hg in Hg'.
  injection Hg' as <- <- <-.
  destruct (_ && _); [discriminate |].
  apply bind_M_Ok in Hl as (d & w2 & Hloop & Hl).
  injection Hl as <- <-. by exists d.
Qed.

(** From a call that returns to the round of one category: what is
    stored for the [k]-th category that is not skipped are the scores of
    the two encoder outputs of its round. *)
Lemma latent_enrich_round (self : EXPIMAP) (groups : groups_arg)
    (comparison : comparison_arg) (n_sample : nat) (use_directions : bool)
    (directions_key : string) (select_terms : option (list nat))
    (adata : option (AnnData F)) (exact : bool) (key_added : string)
    (w w' : world) (adata' ad : AnnData F) (cats_col cats : list string)
    (k : nat) (cat : string) (directions : option (list F))
    (z0 z1 : latent) (wk : world) :
  resolve_groups (default (adata_ self) adata) groups
    = Ok (ad, cats_col, cats) →
  NoDup cats →
  latent_enrich self groups comparison n_sample use_directions
    directions_key select_terms adata exact key_added w = (Ok adata', w') →
  filter (fun c => cat_in c (comparison_list comparison) = false) cats !! k
    = Some cat →
  encode_groups self ad cats_col (comparison_list comparison) cat n_sample
    use_directions directions_key exact
    (Nat.iter k (after_round n_sample exact) w)
    = (Ok (directions, z0, z1), wk) →
  ∃ d sc,
    uns adata' !! key_added = Some (UScores d) ∧ d !! cat = Some sc ∧
    enrich_terms exact directions select_terms z0 z1 = Ok sc.
Proof.
  intros Hg Hnd Hl Hk He.
  destruct (latent_enrich_inv _ _ _ _ _ _ _ _ _ _ _ _ _ _ _ _ Hg Hl)
    as (d & -> & Hloop).
  destruct (enrich_loop_round _ _ _ _ _ _ _ _ _ _ _ _ _ _ Hnd Hloop k cat Hk)
    as (sc & Hsc & Hd).
  apply enrich_category_inv in Hsc as (directions' & z0' & z1' & He' & Hsc).
  unfold comparison_list in He. rewrite He in He'.
  injection He' as <- <- <- _.
  exists d, sc. split; [simpl; by rewrite lookup_insert_eq | done].
Qed.

(** C3.  What [latent_enrich] stores for a term whose sample sums to
    zero.  Take a call that returns and the [k]-th category it does not
    skip; in the state that [k] rounds leave, the two groups of the
    category are drawn and encoded.  A term whose column in the group-A
    sample, or in the group-B sample, after the directions and the
    selection, has absolute values that sum to exactly 0 is stored for
    the category with 0 for [p_h0], [p_h1] and [bf], whatever the other
    sample holds, with [exact] true (the samples are then the means) and
    with [exact] false; for every number system. *)
Theorem zero_sum_masking (self : EXPIMAP) (groups : groups_arg)
    (comparison : comparison_arg) (n_sample : nat) (use_directions : bool)
    (directions_key : string) (select_terms : option (list nat))
    (adata : option (AnnData F)) (exact : bool) (key_added : string)
    (w w' : world) (adata' ad : AnnData F) (cats_col cats : list string)
    (k : nat) (cat : string) (directions : option (list F))
    (z0 z1 : latent) (wk : world) (a0 a1 : matrix F) (t : nat)
    (col : list F) :
  resolve_groups (default (adata_ self) adata) groups
    = Ok (ad, cats_col, cats) →
  NoDup cats →
  latent_enrich self groups comparison n_sample use_directions
    directions_key select_terms adata exact key_added w = (Ok adata', w') →
  filter (fun c => cat_in c (comparison_list comparison) = false) cats !! k
    = Some cat →
  encode_groups self ad cats_col (comparison_list comparison) cat n_sample
    use_directions directions_key exact
    (Nat.iter k (after_round n_sample exact) w)
    = (Ok (directions, z0, z1), wk) →
  tested directions select_terms (latent_values z0) = Ok a0 →
  tested directions select_terms (latent_values z1) = Ok a1 →
  a0 !! t = Some col ∨ a1 !! t = Some col →
  feqb (fsum (map fabs col)) f0 = true →
  ∃ d sc,
    uns adata' !! key_added = Some (UScores d) ∧ d !! cat = Some sc ∧
    p_h0 sc !! t = Some f0 ∧ p_h1 sc !! t = Some f0 ∧ bf sc !! t = Some f0.
Proof.
  intros Hg Hnd Hl Hk He H0 H1 Hcol Hzero.
  destruct (latent_enrich_round _ _ _ _ _ _ _ _ _ _ _ _ _ _ _ _ _ _ _ _ _ _
              Hg Hnd Hl Hk He) as (d & sc & Hd & Hsc & Hterms).
  exists d, sc. split; [exact Hd |]. split; [exact Hsc |].
  exact (enrich_terms_zero_sum _ _ _ _ _ _ _ _ _ _ Hterms H0 H1 Hcol Hzero).
Qed.

End Stored.

Lemma elem_of_unique (l : list string) (x : string) : x ∈ unique l ↔ x ∈ l.
Proof.
  induction l as [| y l IH]; [done |]. simpl.
  rewrite !elem_of_cons, list_elem_of_filter, IH.
  destruct (decide (x = y)); tauto.
Qed.

Lemma NoDup_unique (l : list string) : NoDup (unique l).
Proof.
  induction l as [| y l IH]; simpl; [constructor |].
  apply NoDup_cons. split; [| by apply NoDup_filter].
  rewrite list_elem_of_filter. by intros [Hne _].
Qed.

Section StoredExact.
Context {NW : Network R}.

(** C4.  What [latent_enrich] stores, with [exact=true] and over the
    reals, for a term with the same means in the two groups.  Take a call
    that returns and the [k]-th category it does not skip; in the state
    that [k] rounds leave, the two groups of the category are drawn and
    encoded to means and variances.  A term whose means, after the
    directions and the selection, are the same in the two groups, cell by
    cell, whose variances are positive and which the zero-sum mask does
    not flag has a standardized difference of 0 and a [to_reduce] of 1/2
    in every cell, and is stored for the category with
    [p_h0 = p_h1 = 1/2] and [bf = 0].  (Division of reals is total, so the
    proof has no use for the sign of the variances.) *)
Theorem exact_equal_means (self : EXPIMAP) (groups : groups_arg)
    (comparison : comparison_arg) (n_sample : nat) (use_directions : bool)
    (directions_key : string) (select_terms : option (list nat))
    (adata : option (AnnData R)) (key_added : string)
    (w w' : world) (adata' ad : AnnData R) (cats_col cats : list string)
    (k : nat) (cat : string) (directions : option (list R))
    (m0 v0 m1 v1 : matrix R) (wk : world)
    (a0 a1 w0 w1 : matrix R) (t : nat) (col c0 c1 : list R) :
  resolve_groups (default (adata_ self) adata) groups
    = Ok (ad, cats_col, cats) →
  NoDup cats →
  latent_enrich self groups comparison n_sample use_directions
    directions_key select_terms adata true key_added w = (Ok adata', w') →
  filter (fun c => cat_in c (comparison_list comparison) = false) cats !! k
    = Some cat →
  encode_groups self ad cats_col (comparison_list comparison) cat n_sample
    use_directions directions_key true
    (Nat.iter k (after_round n_sample true) w)
    = (Ok (directions, MeanVar m0 v0, MeanVar m1 v1), wk) →
  tested directions select_terms m0 = Ok a0 →
  tested directions select_terms m1 = Ok a1 →
  take_columns v0 select_terms = Ok w0 →
  take_columns v1 select_terms = Ok w1 →
  a0 !! t = Some col → a1 !! t = Some col →
  w0 !! t = Some c0 → w1 !! t = Some c1 →
  Forall (fun v => (0 < v)%R) c0 → Forall (fun v => (0 < v)%R) c1 →
  fsum (map Rabs col) ≠ 0%R →
  ∃ d sc z to_reduce zeros_mask,
    uns adata' !! key_added = Some (UScores d) ∧ d !! cat = Some sc ∧
    standardized a0 a1 w0 w1 = Ok z ∧
    z !! t = Some (replicate (length col) 0%R) ∧
    reduce_terms true directions select_terms (MeanVar m0 v0) (MeanVar m1 v1)
      = Ok (to_reduce, zeros_mask) ∧
    to_reduce !! t = Some (replicate (length col) (1 / 2)%R) ∧
    zeros_mask !! t = Some false ∧
    p_h0 sc !! t = Some (1 / 2)%R ∧
    p_h1 sc !! t = Some (1 / 2)%R ∧
    bf sc !! t = Some 0%R.
Proof.
  intros Hg Hnd Hl Hk He H0 H1 Hw0 Hw1 Hc0 Hc1 Hv0 Hv1 Hp0 Hp1 Hnz.
  destruct (latent_enrich_round _ _ _ _ _ _ _ _ _ _ _ _ _ _ _ _ _ _ _ _ _ _
              Hg Hnd Hl Hk He) as (d & sc & Hd & Hsc & Hterms).
  destruct (enrich_terms_equal_means _ _ _ _ _ _ _ _ _ _ _ _ _ _ _
              Hterms H0 H1 Hw0 Hw1 Hc0 Hc1 Hv0 Hv1 Hp0 Hp1 Hnz)
    as (z & to_reduce & zeros_mask & Hres).
  by exists d, sc, z, to_reduce, zeros_mask.
Qed.

End StoredExact.

(** Two calls on the example dataset that return: by means and variances,
    and by samples. *)
Lemma enrich_example_returns (exact : bool) :
  ∃ adata' w',
    latent_enrich (NW := table_network enrich_weights) enrich_model
      (GroupsKey "cell_type") (CompStr "rest") 3 false "directions" None
      None exact "bf_scores" first_world = (Ok adata', w').
Proof.
  assert (H : match (latent_enrich (NW := table_network enrich_weights)
                       enrich_model (GroupsKey "cell_type") (CompStr "rest")
                       3 false "directions" None None exact "bf_scores"
                       first_world).1 with
              | Ok _ => true
              | Raise _ => false
              end = true) by (destruct exact; vm_compute; reflexivity).
  destruct (latent_enrich _ _ _ _ _ _ _ _ _ _ _) as [[a | e] w'];
    [eauto | discriminate].
Qed.

(** The round of the category ["T"] on the example dataset: the cells
    [c0] and [c2] against the cells [c1] and [c3], three draws each. *)
Lemma enrich_example_round (exact : bool) :
  encode_groups (NW := table_network enrich_weights) enrich_model
    enrich_adata ["T"; "B"; "T"; "B"] (CompStr "rest") "T" 3 false
    "directions" exact first_world
  = (Ok (None,
         (if exact
          then MeanVar [[0; 0; 0]; [2; 2; 2]]%R [[1; 1; 1]; [1; 1; 1]]%R
          else Sampled [[0; 0; 0]; [2; 2; 2]]%R),
         (if exact
          then MeanVar [[5; 3; 5]; [2; 2; 2]]%R [[1; 1; 1]; [1; 1; 1]]%R
          else Sampled [[5; 3; 5]; [2; 2; 2]]%R)),
     after_round 3 exact first_world).
Proof. destruct exact; vm_compute; reflexivity. Qed.

Lemma zero_sum_masking_witness :
  ∃ (adata' : AnnData R) (w' : world) (d : gmap string (scores R))
    (sc : scores R),
    latent_enrich (NW := table_network enrich_weights) enrich_model
      (GroupsKey "cell_type") (CompStr "rest") 3 false "directions" None
      None false "bf_scores" first_world = (Ok adata', w') ∧
    uns adata' !! "bf_scores" = Some (UScores d) ∧ d !! "T" = Some sc ∧
    p_h0 sc !! 0 = Some 0%R ∧ p_h1 sc !! 0 = Some 0%R ∧
    bf sc !! 0 = Some 0%R.
Proof.
  assert (Hzero : feqb (fsum (map fabs [0; 0; 0]%R)) f0 = true).
  { apply feqb_R_true. cbn. rewrite Rabs_R0. lra. }
  destruct (enrich_example_returns false) as (adata' & w' & Hrun).
  destruct (zero_sum_masking (NW := table_network enrich_weights)
              enrich_model (GroupsKey "cell_type") (CompStr "rest") 3 false
              "directions" None None false "bf_scores" first_world w' adata'
              enrich_adata ["T"; "B"; "T"; "B"] ["T"; "B"] 0 "T" None
              (Sampled [[0; 0; 0]; [2; 2; 2]]%R)
              (Sampled [[5; 3; 5]; [2; 2; 2]]%R)
              (after_round 3 false first_world)
              [[0; 0; 0]; [2; 2; 2]]%R [[5; 3; 5]; [2; 2; 2]]%R 0
              [0; 0; 0]%R eq_refl (NoDup_unique ["T"; "B"; "T"; "B"]) Hrun
              eq_refl (enrich_example_round false) eq_refl eq_refl
              (or_introl eq_refl) Hzero)
    as (d & sc & Hres).
  by exists adata', w', d, sc.
Defined.

Lemma exact_equal_means_witness :
  ∃ (adata' : AnnData R) (w' : world) (d : gmap string (scores R))
    (sc : scores R),
    latent_enrich (NW := table_network enrich_weights) enrich_model
      (GroupsKey "cell_type") (CompStr "rest") 3 false "directions" None
      None true "bf_scores" first_world = (Ok adata', w') ∧
    uns adata' !! "bf_scores" = Some (UScores d) ∧ d !! "T" = Some sc ∧
    p_h0 sc !! 1 = Some (1 / 2)%R ∧ p_h1 sc !! 1 = Some (1 / 2)%R ∧
    bf sc !! 1 = Some 0%R.
Proof.
  assert (Hv : Forall (fun v => (0 < v)%R) [1; 1; 1]%R).
  { repeat (apply Forall_cons_2; [lra |]). apply Forall_nil_2. }
  assert (Hnz : fsum (map Rabs [2; 2; 2]%R) ≠ 0%R).
  { cbn. rewrite (Rabs_right 2) by lra. lra. }
  destruct (enrich_example_returns true) as (adata' & w' & Hrun).
  destruct (exact_equal_means (NW := table_network enrich_weights)
              enrich_model (GroupsKey "cell_type") (CompStr "rest") 3 false
              "directions" None None "bf_scores" first_world w' adata'
              enrich_adata ["T"; "B"; "T"; "B"] ["T"; "B"] 0 "T" None
              [[0; 0; 0]; [2; 2; 2]]%R [[1; 1; 1]; [1; 1; 1]]%R
              [[5; 3; 5]; [2; 2; 2]]%R [[1; 1; 1]; [1; 1; 1]]%R
              (after_round 3 true first_world)
              [[0; 0; 0]; [2; 2; 2]]%R [[5; 3; 5]; [2; 2; 2]]%R
              [[1; 1; 1]; [1; 1; 1]]%R [[1; 1; 1]; [1; 1; 1]]%R
              1 [2; 2; 2]%R [1; 1; 1]%R [1; 1; 1]%R
              eq_refl (NoDup_unique ["T"; "B"; "T"; "B"]) Hrun
              eq_refl (enrich_example_round true) eq_refl eq_refl eq_refl
              eq_refl eq_refl eq_refl eq_refl eq_refl Hv Hv Hnz)
    as (d & sc & z & to_reduce & zeros_mask
        & Hd & Hsc & _ & _ & _ & _ & _ & Hp & Hq & Hb).
  by exists adata', w', d, sc.
Defined.

(** * Further properties *)

Example batch_model_built :
  init (NW := table_network example_weights) batch_adata batch_params
  = Ok batch_model.
Proof. vm_compute. reflexivity. Qed.

(** ** Construction, further *)

Section ConstructionMore.
Context {F : Type} {NW : Network F}.

(** The steps of a construction that succeeds. *)
Lemma init_inv (adata : AnnData F) (p : init_params) (w : EXPIMAP) :
  init adata p = Ok w →
  ∃ conds mask_list ext_t network,
    (mask p = None → is_Some (varm adata !! mask_key p)) ∧
    match conditions p with
    | None =>
        match condition_key p with
        | Some k => col ← getitem (obs adata) k; Ok (unique col)
        | None => Ok []
        end
    | Some cs => Ok cs
    end = Ok conds ∧
    match mask p with
    | None => a ← getitem (varm adata) (mask_key p); Ok (transpose_tolist a)
    | Some m => Ok m
    end = Ok mask_list ∧
    rectangular mask_list = true ∧
    match ext_mask p with
    | None => Ok None
    | Some e => t ← torch_tensor e; Ok (Some t)
    end = Ok ext_t ∧
    expiMap {|
      na_input_dim := Z.of_nat (n_vars adata);
      na_latent_dim := Z.of_nat (length mask_list);
      na_mask := mask_list;
      na_conditions := conds;
      na_hidden_layer_sizes := hidden_layer_sizes p;
      na_dr_rate := dr_rate p;
      na_recon_loss := recon_loss p;
      na_use_l_encoder := use_l_encoder p;
      na_use_bn := use_bn p;
      na_use_ln := use_ln p;
      na_decoder_last_layer := decoder_last_layer p;
      na_soft_mask := soft_mask p;
      na_n_ext := n_ext p;
      na_n_ext_m := n_ext_m p;
      na_use_hsic := use_hsic p && (0 <? n_ext p)%Z;
      na_hsic_one_vs_all := hsic_one_vs_all p;
      na_ext_mask := ext_t;
      na_soft_ext_mask := soft_ext_mask p |} = Ok network ∧
    w = {|
      adata_ := adata;
      condition_key_ := condition_key p;
      conditions_ := conds;
      hidden_layer_sizes_ := hidden_layer_sizes p;
      dr_rate_ := dr_rate p;
      recon_loss_ := recon_loss p;
      use_bn_ := use_bn p;
      use_ln_ := use_ln p;
      input_dim_ := Z.of_nat (n_vars adata);
      use_l_encoder_ := use_l_encoder p;
      decoder_last_layer_ := decoder_last_layer p;
      mask_ := mask_list;
      latent_dim_ := Z.of_nat (length mask_list);
      ext_mask_ := ext_mask p;
      n_ext_ := n_ext p;
      n_ext_m_ := n_ext_m p;
      soft_mask_ := soft_mask p;
      soft_ext_mask_ := soft_ext_mask p;
      use_hsic_ := use_hsic p && (0 <? n_ext p)%Z;
      hsic_one_vs_all_ := hsic_one_vs_all p;
      model := network;
      is_trained_ := false |}.
Proof.
  unfold init. destruct (_ && _) eqn:Hm; [discriminate |]. intros Hi.
  inv_bind Hi. inv_bind Hi. inv_bind Hi. inv_bind Hi. inv_bind Hi.
  injection Hi as <-.
  assert (Hr : rectangular a0 = true ∧ a1 = a0).
  { unfold torch_tensor in E1. destruct (rectangular a0); [| discriminate].
    by injection E1 as <-. }
  destruct Hr as [Hr ->].
  exists a, a0, a2, a3. repeat split; try done.
  intros Hnone. apply andb_false_iff in Hm as [Hm | Hm].
  - apply bool_decide_eq_false in Hm. by destruct Hm.
  - apply bool_decide_eq_false in Hm.
    destruct (varm adata !! mask_key p); [by eexists | done].
Qed.

(** X1.  Without a mask argument and without the mask key in [varm],
    construction raises the value error of line 76, whatever the other
    arguments are. *)
Theorem init_requires_mask (adata : AnnData F) (p : init_params) :
  mask p = None → varm adata !! mask_key p = None →
  init adata p = Raise (ValueError "Please provide mask.").
Proof.
  intros Hm Hk. unfold init.
  by rewrite (bool_decide_eq_true_2 _ Hm), (bool_decide_eq_true_2 _ Hk).
Qed.

(** X2.  The condition vocabulary of a constructed wrapper: the list given,
    as it is; without a list, the distinct values of the condition column,
    each once; without a list and without a condition key, no condition. *)
Theorem init_conditions (adata : AnnData F) (p : init_params) (w : EXPIMAP) :
  init adata p = Ok w →
  match conditions p, condition_key p with
  | Some cs, _ => conditions_ w = cs
  | None, None => conditions_ w = []
  | None, Some k =>
      ∃ col, obs adata !! k = Some col ∧ NoDup (conditions_ w) ∧
             ∀ c, c ∈ conditions_ w ↔ c ∈ col
  end.
Proof.
  intros (conds & ml & et & nw & _ & Hc & _ & _ & _ & _ & ->)%init_inv.
  simpl. destruct (conditions p) as [cs |]; [by injection Hc |].
  destruct (condition_key p) as [k |]; [| by injection Hc].
  unfold getitem in Hc. destruct (obs adata !! k) as [col |]; [| discriminate].
  injection Hc as <-. exists col. split; [done |].
  split; [apply NoDup_unique | apply elem_of_unique].
Qed.

(** X3.  A condition key that names no column of [adata.obs] makes the
    construction raise a key error for that key, when no list of conditions
    is given and a mask is. *)
Theorem init_unknown_condition_key (adata : AnnData F) (p : init_params)
    (k : string) (m : list (list Z)) :
  mask p = Some m → conditions p = None → condition_key p = Some k →
  obs adata !! k = None →
  init adata p = Raise (KeyError k).
Proof.
  intros Hm Hc Hk Ho. unfold init, getitem. rewrite Hm, Hc, Hk, Ho.
  reflexivity.
Qed.

(** X4.  When the mask comes from [adata.varm], the wrapper's mask is the
    transpose of the stored array: one row for each column of the array, as
    long as the array has rows, and the entry at row [i] and position [j]
    is the entry of the array at row [j] and column [i].  The latent
    dimension is the number of columns of the array. *)
Theorem init_mask_from_varm (adata : AnnData F) (p : init_params)
    (w : EXPIMAP) :
  init adata p = Ok w → mask p = None →
  ∃ a, varm adata !! mask_key p = Some a ∧
       latent_dim_ w = Z.of_nat (a_ncols a) ∧
       length (mask_ w) = a_ncols a ∧
       (∀ i row, mask_ w !! i = Some row → length row = length (a_rows a)) ∧
       (∀ i j r z, i < a_ncols a → a_rows a !! j = Some r → r !! i = Some z →
          ∃ row, mask_ w !! i = Some row ∧ row !! j = Some z).
Proof.
  intros (conds & ml & et & nw & _ & _ & Hml & _ & _ & _ & ->)%init_inv Hm.
  rewrite Hm in Hml. unfold getitem in Hml. simpl.
  destruct (varm adata !! mask_key p) as [a |]; [| discriminate].
  injection Hml as <-. exists a. split; [done |].
  unfold transpose_tolist. rewrite !length_map, length_seq.
  split; [done |]. split; [done |]. split.
  - intros i row Hrow. rewrite map_fmap, list_lookup_fmap in Hrow.
    destruct (seq 0 (a_ncols a) !! i); [| discriminate].
    injection Hrow as <-. apply length_map.
  - intros i j r z Hi Hr Hz. eexists. split.
    + rewrite map_fmap, list_lookup_fmap, lookup_seq_lt by done. reflexivity.
    + simpl. rewrite map_fmap, list_lookup_fmap, Hr. simpl. f_equal.
      by apply nth_lookup_Some with (d := 0%Z) in Hz.
Qed.

End ConstructionMore.

Lemma init_requires_mask_witness :
  init (NW := table_network example_weights) example_adata default_params
  = Raise (ValueError "Please provide mask.").
Proof.
  apply (init_requires_mask (NW := table_network example_weights)
           example_adata default_params); reflexivity.
Defined.

Lemma init_conditions_witness :
  ∃ col, obs batch_adata !! "batch" = Some col ∧
         NoDup (conditions_ batch_model) ∧
         ∀ c, c ∈ conditions_ batch_model ↔ c ∈ col.
Proof.
  assert (Hi : init (NW := table_network example_weights)
                 batch_adata batch_params = Ok batch_model)
    by (vm_compute; reflexivity).
  exact (init_conditions batch_adata batch_params batch_model Hi).
Defined.

Lemma init_unknown_condition_key_witness :
  init (NW := table_network example_weights) example_adata
    {| condition_key := Some "batch";
       conditions := None;
       hidden_layer_sizes := [256%Z; 256%Z];
       dr_rate := (5 # 100)%Q;
       recon_loss := "nb";
       use_l_encoder := false;
       use_bn := false;
       use_ln := true;
       mask := Some three_terms;
       mask_key := "I";
       decoder_last_layer := None;
       soft_mask := false;
       n_ext := 0%Z;
       n_ext_m := 0%Z;
       use_hsic := false;
       hsic_one_vs_all := false;
       ext_mask := None;
       soft_ext_mask := false |}
  = Raise (KeyError "batch").
Proof.
  apply (init_unknown_condition_key (NW := table_network example_weights)
           example_adata _ "batch" three_terms); reflexivity.
Defined.

Lemma init_mask_from_varm_witness :
  ∃ a, varm batch_adata !! "I" = Some a ∧
       latent_dim_ batch_model = Z.of_nat (a_ncols a) ∧
       length (mask_ batch_model) = a_ncols a.
Proof.
  assert (Hi : init (NW := table_network example_weights)
                 batch_adata batch_params = Ok batch_model)
    by (vm_compute; reflexivity).
  destruct (init_mask_from_varm batch_adata batch_params batch_model Hi
              eq_refl) as (a & Ha & Hl & Hn & _).
  exists a. split; [exact Ha |]. split; [exact Hl | exact Hn].
Defined.

(** ** Saved attributes *)

Section Persistence.
Context {F : Type} {NW : Network F}.

(** What a reload reads from the attributes of a wrapper. *)
Lemma get_init_params_of_attributes (w : EXPIMAP) :
  _get_init_params_from_dict (attributes w)
  = Ok {| condition_key := condition_key_ w;
          conditions := Some (conditions_ w);
          hidden_layer_sizes := hidden_layer_sizes_ w;
          dr_rate := dr_rate_ w;
          recon_loss := recon_loss_ w;
          use_l_encoder := use_l_encoder_ w;
          use_bn := use_bn_ w;
          use_ln := use_ln_ w;
          mask := Some (mask_ w);
          mask_key := "I";
          decoder_last_layer := decoder_last_layer_ w;
          soft_mask := soft_mask_ w;
          n_ext := n_ext_ w;
          n_ext_m := n_ext_m_ w;
          use_hsic := use_hsic_ w;
          hsic_one_vs_all := hsic_one_vs_all_ w;
          ext_mask := ext_mask_ w;
          soft_ext_mask := soft_ext_mask_ w |}.
Proof.
  destruct w as [ad ck cs hl dr rl bn ln idim le dl m ld em ne nem sm sem uh
                   ho md tr].
  destruct ck, dl, em; vm_compute; reflexivity.
Qed.

(** X5.  Save and reload: the parameters read back from the attributes of
    a wrapper that [__init__] built construct, on the same dataset, a
    wrapper with the same attributes over that dataset.  Of the network
    of the new wrapper nothing is said: the source builds a new module,
    with weights of its own. *)
Theorem reload_round_trip (adata : AnnData F) (p : init_params)
    (w : EXPIMAP) :
  init adata p = Ok w →
  ∃ p' w', _get_init_params_from_dict (attributes w) = Ok p' ∧
           init adata p' = Ok w' ∧
           attributes w' = attributes w ∧ adata_ w' = adata_ w.
Proof.
  intros (conds & ml & et & nw & _ & _ & _ & Hr & He & Hn & ->)%init_inv.
  eexists _, _. split; [apply get_init_params_of_attributes |].
  split; [| split; reflexivity].
  assert (Ht : torch_tensor ml = Ok ml) by (unfold torch_tensor; by rewrite Hr).
  unfold init. cbn -[bool_decide torch_tensor].
  rewrite bool_decide_eq_false_2 by done. cbn -[torch_tensor].
  rewrite Ht. cbn -[torch_tensor]. rewrite He. cbn -[torch_tensor].
  rewrite <- andb_assoc, andb_diag. rewrite Hn. reflexivity.
Qed.

End Persistence.

Lemma reload_round_trip_witness :
  ∃ p' w',
    _get_init_params_from_dict (attributes (example_model 2 0 true))
      = Ok p' ∧
    init (NW := table_network example_weights) example_adata p' = Ok w' ∧
    attributes w' = attributes (example_model 2 0 true) ∧
    adata_ w' = adata_ (example_model 2 0 true).
Proof.
  assert (Hi : init (NW := table_network example_weights)
                 example_adata (example_params 2 0 true)
               = Ok (example_model 2 0 true)) by (vm_compute; reflexivity).
  exact (reload_round_trip example_adata (example_params 2 0 true)
           (example_model 2 0 true) Hi).
Defined.

Lemma forallb_elem_of (l xs : list string) :
  forallb (fun c => bool_decide (c ∈ l)) xs = true ↔ ∀ c, c ∈ xs → c ∈ l.
Proof.
  rewrite forallb_forall. split.
  - intros H c Hc. eapply bool_decide_eq_true_1, H. by apply list_elem_of_In.
  - intros H c Hc. apply bool_decide_eq_true_2, H. by apply list_elem_of_In.
Qed.

(** One entry read without a default, at position [n] of the reading
    order, when the first missing entry is at [n + i]. *)
Ltac read_required dct key n i Hi Hk Hbefore :=
  let Hl := fresh "Hl" in
  destruct (dct !! key) eqn:Hl;
  [ destruct i as [| i];
    [ injection Hi as Hi; rewrite <- Hi in Hk; congruence | simpl in Hi ]
  | destruct i as [| i];
    [ injection Hi as Hi; by rewrite <- Hi
    | destruct (Hbefore n key ltac:(lia) eq_refl); congruence ] ];
  cbn [mbind result_bind].

(** X6.  A dictionary that lacks one of the eight entries read without a
    default makes [_get_init_params_from_dict] raise a key error, and the
    key it names is the first of them, in reading order, that is missing. *)
Theorem get_init_params_missing_key (dct : gmap string pyval) (i : nat)
    (k : string) :
  required_attributes !! i = Some k →
  dct !! k = None →
  (∀ j k', j < i → required_attributes !! j = Some k' →
           is_Some (dct !! k')) →
  _get_init_params_from_dict dct = Raise (KeyError k).
Proof.
  intros Hi Hk Hbefore. unfold _get_init_params_from_dict, getitem.
  unfold required_attributes in Hi. simpl in Hi.
  read_required dct "condition_key_" 0 i Hi Hk Hbefore.
  read_required dct "conditions_" 1 i Hi Hk Hbefore.
  read_required dct "hidden_layer_sizes_" 2 i Hi Hk Hbefore.
  read_required dct "dr_rate_" 3 i Hi Hk Hbefore.
  read_required dct "recon_loss_" 4 i Hi Hk Hbefore.
  read_required dct "use_bn_" 5 i Hi Hk Hbefore.
  read_required dct "use_ln_" 6 i Hi Hk Hbefore.
  read_required dct "mask_" 7 i Hi Hk Hbefore.
  discriminate.
Qed.

Lemma get_init_params_missing_key_witness :
  _get_init_params_from_dict (delete "mask_" legacy_attrs)
  = Raise (KeyError "mask_").
Proof.
  apply (get_init_params_missing_key (delete "mask_" legacy_attrs) 7 "mask_").
  - reflexivity.
  - vm_compute. reflexivity.
  - intros j k' Hj Hk'.
    do 7 (destruct j as [| j];
          [injection Hk' as <-; eexists; vm_compute; reflexivity |]).
    lia.
Defined.

(** X7.  An entry that [_get_init_params_from_dict] reads with a default
    and that the dictionary lacks gets that default: ["softmax"] for the
    last decoder layer, no extension (sizes 0, no extension mask), no soft
    masks, no HSIC term and no library-size encoder; [mask_key] is always
    ["I"]. *)
Theorem get_init_params_defaults (dct : gmap string pyval)
    (p : init_params) :
  _get_init_params_from_dict dct = Ok p →
  mask_key p = "I" ∧
  (dct !! "decoder_last_layer_" = None →
     decoder_last_layer p = Some "softmax") ∧
  (dct !! "use_l_encoder_" = None → use_l_encoder p = false) ∧
  (dct !! "n_ext_" = None → n_ext p = 0%Z) ∧
  (dct !! "n_ext_m_" = None → n_ext_m p = 0%Z) ∧
  (dct !! "soft_mask_" = None → soft_mask p = false) ∧
  (dct !! "soft_ext_mask_" = None → soft_ext_mask p = false) ∧
  (dct !! "hsic_one_vs_all_" = None → hsic_one_vs_all p = false) ∧
  (dct !! "use_hsic_" = None → use_hsic p = false) ∧
  (dct !! "ext_mask_" = None → ext_mask p = None).
Proof.
  unfold _get_init_params_from_dict. intros Hd.
  repeat inv_bind Hd. injection Hd as <-. cbn.
  split; [done |].
  repeat split; intros Hk; unfold get_or in *; rewrite Hk in *;
    by simplify_eq/=.
Qed.

Lemma get_init_params_defaults_witness :
  ∃ p, _get_init_params_from_dict legacy_attrs = Ok p ∧
       decoder_last_layer p = Some "softmax" ∧ n_ext p = 0%Z ∧
       use_hsic p = false ∧ ext_mask p = None.
Proof.
  eexists. split; [vm_compute; reflexivity |].
  match goal with
  | |- context [decoder_last_layer ?p] =>
      destruct (get_init_params_defaults legacy_attrs p
                  ltac:(vm_compute; reflexivity))
        as (_ & Hd & _ & Hn & _ & _ & _ & _ & Hh & He)
  end.
  split; [apply Hd; vm_compute; reflexivity |].
  split; [apply Hn; vm_compute; reflexivity |].
  split; [apply Hh; vm_compute; reflexivity |].
  apply He; vm_compute; reflexivity.
Defined.

(** ** Validation of a dataset against saved attributes *)

Section Validate.
Context {F : Type}.

Lemma validate_adata_run (adata : AnnData F) (dct : gmap string pyval)
    (n : Z) (k : string) (cs : list string) :
  dct !! "input_dim_" = Some (PyInt n) →
  dct !! "condition_key_" = Some (PyStr k) →
  dct !! "conditions_" = Some (PyStrList cs) →
  _validate_adata adata dct
  = if negb (Z.of_nat (n_vars adata) =? n)%Z
    then Raise (ValueError "Incorrect var dimension")
    else match obs adata !! k with
         | None => Raise (KeyError k)
         | Some col =>
             if forallb (fun c => bool_decide (c ∈ cs)) (unique col)
             then Ok tt
             else Raise (ValueError "Incorrect conditions")
         end.
Proof.
  intros Hn Hk Hc. unfold _validate_adata, getitem. rewrite Hn. simpl.
  destruct (negb _); [done |]. rewrite Hk. simpl.
  destruct (obs adata !! k) as [col |]; [| done]. simpl. rewrite Hc. simpl.
  by destruct (forallb _ _).
Qed.

(** X8.  With an integer [input_dim_], a condition key and a list of
    conditions in the dictionary, [_validate_adata] accepts a dataset
    exactly when it has [input_dim_] variables, has the condition column,
    and every value of that column is one of the conditions: the dataset
    may use fewer conditions than the model knows, not others. *)
Theorem validate_adata_accepts (adata : AnnData F) (dct : gmap string pyval)
    (n : Z) (k : string) (cs : list string) :
  dct !! "input_dim_" = Some (PyInt n) →
  dct !! "condition_key_" = Some (PyStr k) →
  dct !! "conditions_" = Some (PyStrList cs) →
  _validate_adata adata dct = Ok tt
  ↔ Z.of_nat (n_vars adata) = n ∧
    ∃ col, obs adata !! k = Some col ∧ ∀ c, c ∈ col → c ∈ cs.
Proof.
  intros Hn Hk Hc. rewrite (validate_adata_run _ _ _ _ _ Hn Hk Hc).
  destruct (Z.eqb_spec (Z.of_nat (n_vars adata)) n) as [Heq | Hne]; simpl.
  - destruct (obs adata !! k) as [col |].
    + destruct (forallb _ _) eqn:Hall.
      * split; [intros _ | done]. split; [done |]. exists col.
        split; [done |]. intros c Hin.
        apply (proj1 (forallb_elem_of cs (unique col)) Hall).
        by apply elem_of_unique.
      * split; [done |]. intros (_ & col' & [= <-] & Hsub). exfalso.
        apply not_true_iff_false in Hall. apply Hall, forallb_elem_of.
        intros c Hin. by apply Hsub, elem_of_unique.
    + split; [done |]. by intros (_ & col' & ? & _).
  - split; [done |]. by intros [? _].
Qed.

(** X9.  What [_validate_adata] raises, in the order it checks: a dataset
    with another number of variables gets the value error "Incorrect var
    dimension", whatever its conditions; one of the right dimension without
    the condition column gets a key error; one with a value of the column
    that is no condition of the model gets "Incorrect conditions". *)
Theorem validate_adata_errors (adata : AnnData F) (dct : gmap string pyval)
    (n : Z) (k : string) (cs : list string) :
  dct !! "input_dim_" = Some (PyInt n) →
  dct !! "condition_key_" = Some (PyStr k) →
  dct !! "conditions_" = Some (PyStrList cs) →
  (Z.of_nat (n_vars adata) ≠ n →
     _validate_adata adata dct = Raise (ValueError "Incorrect var dimension")) ∧
  (Z.of_nat (n_vars adata) = n → obs adata !! k = None →
     _validate_adata adata dct = Raise (KeyError k)) ∧
  (Z.of_nat (n_vars adata) = n →
     ∀ col c, obs adata !! k = Some col → c ∈ col → c ∉ cs →
     _validate_adata adata dct = Raise (ValueError "Incorrect conditions")).
Proof.
  intros Hn Hk Hc. rewrite (validate_adata_run _ _ _ _ _ Hn Hk Hc).
  split; [| split].
  - intros Hne. apply Z.eqb_neq in Hne. by rewrite Hne.
  - intros Heq Ho. apply Z.eqb_eq in Heq. by rewrite Heq, Ho.
  - intros Heq col c Ho Hin Hnot. apply Z.eqb_eq in Heq.
    rewrite Heq, Ho. simpl.
    destruct (forallb _ _) eqn:Hall; [| done]. exfalso. apply Hnot.
    apply (proj1 (forallb_elem_of cs (unique col)) Hall).
    by apply elem_of_unique.
Qed.

Lemma validate_adata_none_key (adata : AnnData F)
    (dct : gmap string pyval) :
  dct !! "input_dim_" = Some (PyInt (Z.of_nat (n_vars adata))) →
  dct !! "condition_key_" = Some PyNone →
  _validate_adata adata dct = Raise (KeyError "None").
Proof.
  intros Hn Hk. unfold _validate_adata, getitem. rewrite Hn. simpl.
  rewrite Z.eqb_refl. simpl. by rewrite Hk.
Qed.

End Validate.

Section ValidateOwn.
Context {F : Type} {NW : Network F}.

Lemma attributes_validated (w : EXPIMAP) :
  attributes w !! "input_dim_" = Some (PyInt (input_dim_ w)) ∧
  attributes w !! "condition_key_"
    = Some (match condition_key_ w with
            | Some k => PyStr k
            | None => PyNone
            end) ∧
  attributes w !! "conditions_" = Some (PyStrList (conditions_ w)).
Proof.
  destruct w as [ad ck cs hl dr rl bn ln idim le dl m ld em ne nem sm sem uh
                   ho md tr].
  repeat split; vm_compute; reflexivity.
Qed.

(** X10.  A wrapper built from a dataset with a condition key and no
    explicit condition list accepts that dataset: [_validate_adata] on the
    dataset and the attributes of the wrapper raises nothing. *)
Theorem own_data_validates (adata : AnnData F) (p : init_params)
    (w : EXPIMAP) (k : string) :
  init adata p = Ok w → conditions p = None → condition_key p = Some k →
  _validate_adata adata (attributes w) = Ok tt.
Proof.
  intros Hi Hc Hk. destruct (attributes_validated w) as (Hn & Hck & Hcs).
  destruct (init_inv adata p w Hi)
    as (conds & ml & et & nw & _ & Hconds & _ & _ & _ & _ & ->).
  rewrite Hc, Hk in Hconds. unfold getitem in Hconds.
  destruct (obs adata !! k) as [col |] eqn:Ho; [| discriminate].
  injection Hconds as <-.
  cbn [input_dim_ condition_key_ conditions_] in Hn, Hck, Hcs.
  rewrite Hk in Hn, Hck, Hcs |- *.
  rewrite (validate_adata_run _ _ _ _ _ Hn Hck Hcs), Z.eqb_refl, Ho. simpl.
  assert (Hall : forallb (fun c => bool_decide (c ∈ unique col)) (unique col)
                 = true) by by apply forallb_elem_of.
  by rewrite Hall.
Qed.

(** X11.  A wrapper built without a condition key accepts no dataset of
    its own dimension: [_validate_adata] looks the column [None] up and
    raises a key error. *)
Theorem validate_without_condition_key (adata adata' : AnnData F)
    (p : init_params) (w : EXPIMAP) :
  init adata p = Ok w → condition_key p = None →
  n_vars adata' = n_vars adata →
  _validate_adata adata' (attributes w) = Raise (KeyError "None").
Proof.
  intros Hi Hk Hn. destruct (attributes_validated w) as (Hd & Hck & _).
  destruct (init_inv adata p w Hi)
    as (conds & ml & et & nw & _ & _ & _ & _ & _ & _ & Hw).
  assert (Hf : input_dim_ w = Z.of_nat (n_vars adata') ∧
               condition_key_ w = None).
  { rewrite Hw. simpl. by rewrite Hn, Hk. }
  destruct Hf as [Hf1 Hf2]. rewrite Hf1 in Hd. rewrite Hf2 in Hck.
  exact (validate_adata_none_key adata' _ Hd Hck).
Qed.

End ValidateOwn.

Lemma validate_adata_accepts_witness :
  _validate_adata batch_adata (attributes batch_model) = Ok tt.
Proof.
  apply (validate_adata_accepts batch_adata (attributes batch_model)
           3 "batch" ["b1"; "b2"]); try (vm_compute; reflexivity).
  split; [reflexivity |]. exists ["b1"; "b2"; "b1"; "b2"].
  split; [vm_compute; reflexivity |].
  intros c Hc. rewrite !elem_of_cons in Hc. rewrite !elem_of_cons. tauto.
Defined.

Lemma validate_adata_errors_witness :
  _validate_adata (@example_adata Q) (attributes batch_model)
  = Raise (ValueError "Incorrect var dimension").
Proof.
  apply (validate_adata_errors (@example_adata Q) (attributes batch_model)
           3 "batch" ["b1"; "b2"]); try (vm_compute; reflexivity).
  intros H. vm_compute in H. discriminate H.
Defined.

Lemma own_data_validates_witness :
  _validate_adata batch_adata (attributes batch_model) = Ok tt.
Proof.
  apply (own_data_validates (NW := table_network example_weights)
           batch_adata batch_params batch_model "batch");
    vm_compute; reflexivity.
Defined.

Lemma validate_without_condition_key_witness :
  _validate_adata (@example_adata Q) (attributes (example_model 0 0 false))
  = Raise (KeyError "None").
Proof.
  apply (validate_without_condition_key
           (NW := table_network example_weights)
           example_adata example_adata (example_params 0 0 false)
           (example_model 0 0 false)); vm_compute; reflexivity.
Defined.

(** ** Terms and genes, further *)

Section TermsGenesMore.
Context {F : Type} {NW : Network F}.

Lemma terms_dict_raises (I : list (list bool)) (names : list string) :
  ∀ terms i acc e, terms_dict I names i terms acc = Raise e → e = IndexError.
Proof.
  induction terms as [| t0 ts IH]; intros i acc e; simpl; [discriminate |].
  unfold row_at. destruct (I !! i) as [r |]; [| by intros [= <-]].
  simpl. unfold bool_index. destruct (Nat.eqb _ _); [| by intros [= <-]].
  simpl. apply IH.
Qed.

(** X12.  On a wrapper that [__init__] built, [terms_genes] with a list
    raises a value error exactly when the list is not as long as the mask
    has rows: the mask of such a wrapper is rectangular, and the
    comprehension itself raises index errors only. *)
Theorem terms_genes_value_error_iff (adata : AnnData F) (p : init_params)
    (w : EXPIMAP) (l : list string) :
  init adata p = Ok w →
  is_value_error (terms_genes w (TermsList l)) = true
  ↔ length l ≠ length (mask_ w).
Proof.
  intros Hi. destruct (init_fields adata p w Hi) as (_ & _ & _ & _ & _ & Hr).
  unfold terms_genes, np_array_bool. rewrite Hr.
  destruct (Nat.eqb_spec (length l) (length (mask_ w))) as [Hl | Hl]; simpl;
    [| done].
  destruct (terms_dict _ _ 0 l ∅) as [d | e] eqn:Hd; simpl.
  - split; [done | by intros []].
  - apply terms_dict_raises in Hd as ->. split; [done | by intros []].
Qed.

(** X13.  [terms_genes] with a key of [adata.uns]: a key that is missing
    raises a key error for it; a key under which a list of names as long as
    the mask has rows is stored gives what the list itself gives. *)
Theorem terms_genes_of_key (self : EXPIMAP) (key : string) :
  (uns (adata_ self) !! key = None →
     terms_genes self (TermsKey key) = Raise (KeyError key)) ∧
  (∀ l, uns (adata_ self) !! key = Some (UTerms l) →
        length l = length (mask_ self) →
        terms_genes self (TermsKey key) = terms_genes self (TermsList l)).
Proof.
  unfold terms_genes, getitem. split.
  - by intros ->.
  - intros l -> Hl. by rewrite Hl, Nat.eqb_refl.
Qed.

Lemma select_sublist {A} (xs : list A) (b : list bool) :
  select xs b `sublist_of` xs.
Proof.
  revert b. induction xs as [| x xs IH]; intros [| [] b]; simpl;
    try apply sublist_nil_l.
  - by apply sublist_skip.
  - by apply sublist_cons.
Qed.

Lemma terms_dict_sublists (I : list (list bool)) (names : list string) :
  ∀ terms i acc d,
    map_Forall (fun _ gs => gs `sublist_of` names) acc →
    terms_dict I names i terms acc = Ok d →
    map_Forall (fun _ gs => gs `sublist_of` names) d.
Proof.
  induction terms as [| t0 ts IH]; intros i acc d Hacc Hd.
  - by injection Hd as <-.
  - simpl in Hd. inv_bind Hd. inv_bind Hd.
    apply bool_index_Ok in E0 as [_ ->]. eapply IH; [| exact Hd].
    apply map_Forall_insert_2; [apply select_sublist | done].
Qed.

(** X14.  Every gene list that [terms_genes] returns is a sublist of the
    variable names of the dataset: it holds names of the dataset only, in
    the order of the dataset, and a name once if the dataset has it once. *)
Theorem terms_genes_sublists (self : EXPIMAP) (terms : terms_arg)
    (d : gmap string (list string)) (name : string) (genes : list string) :
  terms_genes self terms = Ok d → d !! name = Some genes →
  genes `sublist_of` var_names (adata_ self) ∧
  (NoDup (var_names (adata_ self)) → NoDup genes).
Proof.
  unfold terms_genes. intros Hd Hname. inv_bind Hd. inv_bind Hd.
  apply terms_dict_sublists in Hd; [| apply map_Forall_empty].
  specialize (Hd name genes Hname). simpl in Hd.
  split; [done |]. intros Hnd. by eapply sublist_NoDup.
Qed.

End TermsGenesMore.

Lemma terms_genes_value_error_iff_witness :
  is_value_error (terms_genes (example_model 0 0 false) (TermsList ["A"]))
  = true.
Proof.
  apply (terms_genes_value_error_iff (NW := table_network example_weights)
           example_adata (example_params 0 0 false) (example_model 0 0 false)
           ["A"]).
  - vm_compute. reflexivity.
  - simpl. lia.
Defined.

Lemma terms_genes_sublists_witness :
  ["g2"; "g3"; "g4"] `sublist_of` ten_genes.
Proof.
  apply (terms_genes_sublists (NW := table_network example_weights)
           (example_model 0 0 false) (TermsList ["A"; "B"; "C"])
           {[ "A" := ["g0"; "g1"];
              "B" := ["g2"; "g3"; "g4"];
              "C" := ["g5"; "g6"; "g7"; "g8"; "g9"] ]}
           "B" ["g2"; "g3"; "g4"]); vm_compute; reflexivity.
Defined.

(** ** Latent directions, further *)

Section DirectionsMore.
Context {F : Type} {AR : Arith F} {NW : Network F}.

Lemma latent_directions_sum_run (self : EXPIMAP) (get_confidence : bool)
    (adata : option (AnnData F)) (key_added : string) :
  latent_directions self "sum" get_confidence adata key_added
  = Ok (set_uns (default (adata_ self) adata) key_added
          (UArray (directions_sum (expr_L_weight (model self))))).
Proof. unfold latent_directions. by destruct get_confidence. Qed.

Lemma directions_sum_length (w : matrix F) :
  length (directions_sum w) = length w.
Proof. unfold directions_sum, set_where. by rewrite !length_map. Qed.

Lemma directions_counts_length (w : matrix F) :
  length (directions_counts w).1 = length w ∧
  length (directions_counts w).2 = length w.
Proof.
  unfold directions_counts, set_mask, set_where. simpl.
  rewrite !length_zip_with, !length_map, !length_zip_with, !length_map. lia.
Qed.

(** X15.  A method other than ["sum"] and ["counts"] makes
    [latent_directions] raise a value error; no dataset is returned, so
    nothing was written. *)
Theorem latent_directions_unknown_method (self : EXPIMAP) (method : string)
    (get_confidence : bool) (adata : option (AnnData F))
    (key_added : string) :
  method ≠ "sum" → method ≠ "counts" →
  latent_directions self method get_confidence adata key_added
  = Raise (ValueError "Unrecognized method for getting the latent direction.").
Proof.
  intros Hs Hc. unfold latent_directions.
  apply String.eqb_neq in Hs. apply String.eqb_neq in Hc.
  by rewrite Hs, Hc.
Qed.

(** X16.  What a call of [latent_directions] that returns leaves alone and
    what it writes: the variables, observations, [obs], [varm] and [X] of
    the dataset are the ones it had, every entry of [uns] under a key other
    than [key_added] and [key_added + "_confindence"] is untouched, and
    under [key_added] there is an array with one sign for each term column
    of the decoder weights. *)
Theorem latent_directions_frame (self : EXPIMAP) (method : string)
    (get_confidence : bool) (adata : option (AnnData F))
    (key_added : string) (adata' : AnnData F) :
  latent_directions self method get_confidence adata key_added = Ok adata' →
  let before := default (adata_ self) adata in
  var_names adata' = var_names before ∧ obs_names adata' = obs_names before ∧
  obs adata' = obs before ∧ varm adata' = varm before ∧
  X adata' = X before ∧
  (∀ k, k ≠ key_added → k ≠ key_added +:+ "_confindence" →
        uns adata' !! k = uns before !! k) ∧
  ∃ signs, uns adata' !! key_added = Some (UArray signs) ∧
           length signs = length (expr_L_weight (model self)).
Proof.
  intros Hl before. unfold latent_directions in Hl. fold before in Hl.
  assert (Hkey : key_added +:+ "_confindence" ≠ key_added).
  { intros Heq. symmetry in Heq.
    by apply (app_not_self key_added "_confindence"). }
  destruct (String.eqb method "sum").
  - simpl in Hl. assert (adata' = set_uns before key_added
      (UArray (directions_sum (expr_L_weight (model self))))) as ->
      by (destruct get_confidence; by injection Hl).
    simpl. repeat split; try done.
    + intros k Hk _. by rewrite lookup_insert_ne.
    + eexists. rewrite lookup_insert_eq. split; [done |].
      apply directions_sum_length.
  - destruct (String.eqb method "counts"); [| discriminate].
    destruct (directions_counts_length (expr_L_weight (model self)))
      as [Hls _].
    destruct (directions_counts (expr_L_weight (model self))) as [s c].
    simpl in Hl, Hls. destruct get_confidence; injection Hl as <-; simpl.
    + repeat split; try done.
      * intros k Hk Hk'. by rewrite !lookup_insert_ne.
      * exists s. by rewrite lookup_insert_ne, lookup_insert_eq.
    + repeat split; try done.
      * intros k Hk _. by rewrite lookup_insert_ne.
      * exists s. by rewrite lookup_insert_eq.
Qed.

End DirectionsMore.

Section DirectionsExact.
Context {NW : Network Q}.

Lemma count_positive_le (col : list Q) :
  count_positive col ≤ count_nonzero col.
Proof.
  unfold count_positive, count_nonzero.
  induction col as [| a col IH]; [done |].
  rewrite !filter_cons.
  destruct (decide (fltb f0 a)) as [Hp | Hp].
  - destruct (decide (negb (feqb a f0))) as [Hn | Hn]; [cbn [length]; lia |].
    exfalso. apply Hn. cbn [fltb feqb f0 Q_arith] in Hp |- *.
    apply negb_prop_intro. intros Heq. apply Is_true_true in Heq.
    apply Qeq_bool_iff in Heq. apply negb_prop_elim in Hp. apply Hp. apply Is_true_true.
    apply Qle_bool_iff. rewrite Heq. apply Qle_refl.
  - destruct (decide (negb (feqb a f0))); cbn [length]; lia.
Qed.

Lemma ratio_bounds (u n : nat) :
  u ≤ n → n ≠ 0 → (0 <= ratio u n)%Q ∧ (ratio u n <= 1)%Q.
Proof.
  intros Hu Hn. unfold ratio. apply Nat.eqb_neq in Hn as Hn'.
  rewrite Hn', Nat.add_0_r. cbn [fdiv of_nat Q_arith].
  assert (Hpos : (0 < inject_Z (Z.of_nat n))%Q).
  { change 0%Q with (inject_Z 0). rewrite <- Zlt_Qlt. lia. }
  split.
  - apply Qle_shift_div_l; [done |]. rewrite Qmult_0_l.
    change 0%Q with (inject_Z 0). rewrite <- Zle_Qle. lia.
  - apply Qle_shift_div_r; [done |]. rewrite Qmult_1_l.
    rewrite <- Zle_Qle. lia.
Qed.

Lemma confidence_bounds (r : Q) :
  (0 <= r)%Q → (r <= 1)%Q →
  (0 <= Qabs (r - (1 # 2)) / (1 # 2))%Q ∧
  (Qabs (r - (1 # 2)) / (1 # 2) <= 1)%Q.
Proof.
  intros H0 H1.
  assert (Ha : (0 <= Qabs (r - (1 # 2)))%Q) by apply Qabs_nonneg.
  assert (Hb : (Qabs (r - (1 # 2)) <= 1 # 2)%Q).
  { apply Qabs_Qle_condition. split; Lqa.lra. }
  unfold Qdiv. change (/ (1 # 2))%Q with (2 # 1)%Q.
  generalize dependent (Qabs (r - (1 # 2))). intros a Ha Hb.
  split; Lqa.lra.
Qed.

Lemma counts_sign_cases (r : Q) :
  let s := if fltb fhalf r then f1 else r in
  let s := if fltb s fhalf then fopp f1 else s in
  let s := if feqb s fhalf then f0 else s in
  s = 1%Q ∨ s = (- (1))%Q ∨ s = 0%Q.
Proof.
  cbn [fltb feqb f0 f1 fhalf fopp Q_arith].
  destruct (Qle_bool r (1 # 2)) eqn:H1; cbn [negb].
  - destruct (Qle_bool (1 # 2) r) eqn:H2; cbn [negb].
    + assert (H3 : Qeq_bool r (1 # 2) = true).
      { apply Qeq_bool_iff. apply Qle_bool_iff in H1, H2.
        by apply Qle_antisym. }
      rewrite H3. tauto.
    + change (Qeq_bool (- (1)) (1 # 2)) with false. tauto.
  - change (Qle_bool (1 # 2) 1) with true. cbn [negb].
    change (Qeq_bool 1 (1 # 2)) with false. tauto.
Qed.

(** X17.  With method ["counts"] and [get_confidence=true], over exact
    rationals, the call returns; the two arrays it stores have one entry
    for each term column of the decoder weights; every stored sign is 1,
    -1 or 0, and every stored confidence lies between 0 and 1. *)
Theorem latent_directions_counts_range (self : EXPIMAP)
    (adata : option (AnnData Q)) (key_added : string) :
  ∃ adata' signs confidence,
    latent_directions self "counts" true adata key_added = Ok adata' ∧
    uns adata' !! key_added = Some (UArray signs) ∧
    uns adata' !! (key_added +:+ "_confindence") = Some (UArray confidence) ∧
    length signs = length (expr_L_weight (model self)) ∧
    length confidence = length (expr_L_weight (model self)) ∧
    Forall (fun s => s = 1%Q ∨ s = (- (1))%Q ∨ s = 0%Q) signs ∧
    Forall (fun c => (0 <= c)%Q ∧ (c <= 1)%Q) confidence.
Proof.
  set (w := expr_L_weight (model self)).
  exists (set_uns (set_uns (default (adata_ self) adata) key_added
                     (UArray (directions_counts w).1))
            (key_added +:+ "_confindence") (UArray (directions_counts w).2)),
    (directions_counts w).1, (directions_counts w).2.
  split; [exact (latent_directions_counts_run self true adata key_added) |].
  split.
  { simpl. rewrite lookup_insert_ne, lookup_insert_eq; [done |].
    intros Heq. by apply (app_not_self key_added "_confindence"). }
  split; [simpl; by rewrite lookup_insert_eq |].
  destruct (directions_counts_length w) as [Hls Hlc].
  split; [done |]. split; [done |].
  split; apply Forall_lookup_2; intros t x Hx.
  - assert (Ht : t < length w).
    { rewrite <- Hls. by eapply lookup_lt_Some. }
    destruct (lookup_lt_is_Some_2 w t Ht) as [col Hcol].
    destruct (directions_counts_lookup w t col Hcol) as [Hs _].
    rewrite Hs in Hx. apply (inj Some) in Hx. subst x.
    destruct (Nat.eqb (count_nonzero col) 0); [tauto |].
    apply counts_sign_cases.
  - assert (Ht : t < length w).
    { rewrite <- Hlc. by eapply lookup_lt_Some. }
    destruct (lookup_lt_is_Some_2 w t Ht) as [col Hcol].
    destruct (directions_counts_lookup w t col Hcol) as [_ Hc].
    rewrite Hc in Hx. apply (inj Some) in Hx. subst x.
    destruct (Nat.eqb (count_nonzero col) 0) eqn:Hn.
    + cbn [f0 Q_arith]. split; [apply Qle_refl | done].
    + apply Nat.eqb_neq in Hn.
      destruct (ratio_bounds _ _ (count_positive_le col) Hn) as [H0 H1].
      exact (confidence_bounds _ H0 H1).
Qed.

End DirectionsExact.

Section DirectionsSum.
Context {NW : Network Q}.

Lemma directions_sum_lookup (w : matrix Q) (t : nat) (col : list Q) :
  w !! t = Some col →
  directions_sum w !! t
  = Some (let s := if fltb f0 (fsum col) then f1 else fsum col in
          if fltb s f0 then fopp f1 else s).
Proof.
  intros Hw. unfold directions_sum.
  rewrite !set_where_lookup, (map_lookup fsum _ _ _ Hw). reflexivity.
Qed.

Lemma sum_sign_cases (x : Q) :
  let s := if fltb f0 x then f1 else x in
  let s := if fltb s f0 then fopp f1 else s in
  ((0 < x)%Q → s = 1%Q) ∧ ((x < 0)%Q → s = (- (1))%Q) ∧
  ((x == 0)%Q → s = x).
Proof.
  cbn [fltb f0 f1 fopp Q_arith].
  destruct (Qle_bool x 0) eqn:H1; cbn [negb].
  - apply Qle_bool_iff in H1.
    destruct (Qle_bool 0 x) eqn:H2; cbn [negb].
    + apply Qle_bool_iff in H2. split; [| split]; [| | done].
      * intros H. by apply Qlt_not_le in H.
      * intros H. by apply Qlt_not_le in H.
    + assert (H3 : ¬ (0 <= x)%Q).
      { rewrite <- Qle_bool_iff, H2. discriminate. }
      split; [| split]; [| done |].
      * intros H. by apply Qlt_le_weak in H.
      * intros H. exfalso. apply H3. rewrite H. apply Qle_refl.
  - assert (H3 : ¬ (x <= 0)%Q).
    { rewrite <- Qle_bool_iff, H1. discriminate. }
    change (Qle_bool 0 1) with true. cbn [negb]. split; [| split]; [done | |].
    + intros H. by apply Qlt_le_weak in H.
    + intros H. exfalso. apply H3. rewrite H. apply Qle_refl.
Qed.

(** X18.  With method ["sum"], over exact rationals: the sign stored for a
    term column is +1 when the weights of the column sum to more than 0,
    -1 when they sum to less than 0, and the sum itself (a zero) when they
    sum to 0.  No confidence is written in this mode, whatever
    [get_confidence] is. *)
Theorem latent_directions_sum (self : EXPIMAP) (get_confidence : bool)
    (adata : option (AnnData Q)) (key_added : string)
    (t : nat) (col : list Q) :
  expr_L_weight (model self) !! t = Some col →
  ∃ adata' signs s,
    latent_directions self "sum" get_confidence adata key_added = Ok adata' ∧
    uns adata' !! key_added = Some (UArray signs) ∧
    signs !! t = Some s ∧
    ((0 < fsum col)%Q → s = 1%Q) ∧
    ((fsum col < 0)%Q → s = (- (1))%Q) ∧
    ((fsum col == 0)%Q → s = fsum col) ∧
    uns adata' !! (key_added +:+ "_confindence")
    = uns (default (adata_ self) adata) !! (key_added +:+ "_confindence").
Proof.
  intros Hw. eexists _, _, _.
  split; [apply latent_directions_sum_run |].
  split; [simpl; by rewrite lookup_insert_eq |].
  split; [by apply directions_sum_lookup |].
  destruct (sum_sign_cases (fsum col)) as (Hp & Hn & Hz).
  split; [exact Hp |]. split; [exact Hn |]. split; [exact Hz |].
  simpl. rewrite lookup_insert_ne; [done |].
  by apply (app_not_self key_added "_confindence").
Qed.

End DirectionsSum.

Lemma latent_directions_sum_witness :
  ∃ (adata' : AnnData Q) (signs : list Q),
    latent_directions (NW := table_network example_weights)
      (example_model 0 0 false) "sum" true None "directions" = Ok adata' ∧
    uns adata' !! "directions" = Some (UArray signs) ∧
    signs !! 0 = Some 1%Q ∧
    uns adata' !! "directions_confindence" = None.
Proof.
  destruct (latent_directions_sum (NW := table_network example_weights)
              (example_model 0 0 false) true None "directions"
              0 [1; 2; 0; -1]%Q eq_refl)
    as (adata' & signs & s & Hrun & Hu & Hs & Hpos & _ & _ & Hc).
  exists adata', signs. split; [exact Hrun |]. split; [exact Hu |]. split.
  - rewrite Hs. f_equal. apply Hpos. vm_compute. reflexivity.
  - etransitivity; [exact Hc | vm_compute; reflexivity].
Defined.

Lemma latent_directions_unknown_method_witness :
  latent_directions (NW := table_network example_weights)
    (example_model 0 0 false) "mean" false None "directions"
  = Raise (ValueError "Unrecognized method for getting the latent direction.").
Proof.
  apply (latent_directions_unknown_method (NW := table_network example_weights)
           (example_model 0 0 false) "mean" false None "directions");
    discriminate.
Defined.

Lemma latent_directions_frame_witness :
  ∃ adata' : AnnData Q,
    latent_directions (NW := table_network example_weights)
      (example_model 0 0 false) "counts" true None "directions" = Ok adata' ∧
    var_names adata' = ten_genes ∧
    uns adata' !! "terms" = Some (UTerms ["A"; "B"; "C"]) ∧
    ∃ signs, uns adata' !! "directions" = Some (UArray signs) ∧
             length signs = 4.
Proof.
  eexists. split; [apply latent_directions_counts_run |].
  destruct (latent_directions_frame (NW := table_network example_weights)
              (example_model 0 0 false) "counts" true None "directions" _
              (latent_directions_counts_run _ _ _ _))
    as (Hv & _ & _ & _ & _ & Hk & Hs).
  split; [exact Hv |]. split; [| exact Hs].
  rewrite Hk; [vm_compute; reflexivity | discriminate | discriminate].
Defined.

(** ** Latent enrichment, further *)

Section EnrichMore.
Context {F : Type} {AR : Arith F} {SP : Special F} {NW : Network F}.

(** X19.  When the groups cannot be resolved, [latent_enrich] raises and
    the state is the one of the call: no index was drawn, the encoder was
    not called and nothing was written.  A [groups] that is neither a
    string nor a dict gives a value error; a string that is no column of
    [obs] gives a key error for it; a dict that lists a cell the dataset
    does not have gives a key error for such a cell. *)
Theorem latent_enrich_unknown_groups (self : EXPIMAP) (groups : groups_arg)
    (comparison : comparison_arg) (n_sample : nat) (use_directions : bool)
    (directions_key : string) (select_terms : option (list nat))
    (adata : option (AnnData F)) (exact : bool) (key_added : string)
    (w : world) :
  let before := default (adata_ self) adata in
  match groups with
  | GroupsKey key => obs before !! key = None
  | GroupsDict d => ∃ c, c ∈ concat (map snd d) ∧ c ∉ obs_names before
  | GroupsOther => True
  end →
  ∃ e,
    latent_enrich self groups comparison n_sample use_directions
      directions_key select_terms adata exact key_added w = (Raise e, w) ∧
    match groups with
    | GroupsKey key => e = KeyError key
    | GroupsDict d => ∃ c, e = KeyError c ∧ c ∈ concat (map snd d) ∧
                           c ∉ obs_names before
    | GroupsOther => e = ValueError "groups should be a string or a dict."
    end.
Proof.
  intros before Hg. unfold latent_enrich, bind_M, lift. fold before.
  destruct groups as [key | d |]; simpl.
  - unfold getitem. rewrite Hg. simpl. by eexists.
  - destruct Hg as (c & Hc & Hnot).
    assert (Hm : ∃ c', c' ∈ concat (map snd d) ∧ (c' ∉ obs_names before) ∧
              mapM (fun c => match index_of c (obs_names before) with
                             | Some i => Ok i
                             | None => Raise (KeyError c)
                             end) (concat (map snd d))
              = Raise (KeyError c')).
    { clear -Hc Hnot. induction (concat (map snd d)) as [| x l IH].
      - by apply elem_of_nil in Hc.
      - simpl. destruct (index_of x (obs_names before)) as [i |] eqn:Hi.
        + apply elem_of_cons in Hc as [-> | Hc].
          * exfalso. apply Hnot. clear -Hi.
            revert i Hi. induction (obs_names before) as [| y l' IH'];
              intros i Hi; [done |]. simpl in Hi.
            destruct (String.eqb_spec x y) as [-> | _];
              [apply list_elem_of_here |].
            destruct (index_of x l') as [j |]; [| done].
            apply list_elem_of_further. by eapply IH'.
          * destruct (IH Hc) as (c' & Hc' & Hn' & ->).
            exists c'. split; [by apply list_elem_of_further | done].
        + exists x. split; [apply list_elem_of_here |]. split; [| done].
          clear -Hi. induction (obs_names before) as [| y l' IH'];
            [apply not_elem_of_nil |]. simpl in Hi.
          destruct (String.eqb_spec x y) as [-> | Hne]; [done |].
          destruct (index_of x l') as [j |] eqn:Hj; [done |].
          apply not_elem_of_cons. split; [done | by apply IH']. }
    destruct Hm as (c' & Hc' & Hn' & Hm).
    unfold subset_obs. rewrite Hm. simpl. exists (KeyError c'). eauto.
  - by eexists.
Qed.

(** X20.  The categories that get scores.  When the groups resolve to the
    categories [cats] and [latent_enrich] returns, the scores stored under
    [key_added] have an entry exactly for the categories of [cats] that
    the loop does not skip: with comparison ["rest"] those whose name is
    no substring of ["rest"], with another string those that differ from
    it, with a list those that are not in it. *)
Theorem latent_enrich_score_keys (self : EXPIMAP) (groups : groups_arg)
    (comparison : comparison_arg) (n_sample : nat) (use_directions : bool)
    (directions_key : string) (select_terms : option (list nat))
    (adata : option (AnnData F)) (exact : bool) (key_added : string)
    (w w' : world) (adata' ad : AnnData F) (cats_col cats : list string) :
  resolve_groups (default (adata_ self) adata) groups
    = Ok (ad, cats_col, cats) →
  latent_enrich self groups comparison n_sample use_directions
    directions_key select_terms adata exact key_added w = (Ok adata', w') →
  ∃ d, uns adata' !! key_added = Some (UScores d) ∧
    ∀ cat, is_Some (d !! cat) ↔
      cat ∈ cats ∧
      match comparison with
      | CompStr s => if String.eqb s "rest"
                     then is_substring cat "rest" = false else cat ≠ s
      | CompList l => cat ∉ l
      end.
Proof.
  intros Hg Hl.
  destruct (latent_enrich_inv _ _ _ _ _ _ _ _ _ _ _ _ _ _ _ _ Hg Hl)
    as (d & -> & Hloop).
  exists d. split; [simpl; by rewrite lookup_insert_eq |].
  apply enrich_loop_run in Hloop as (Hk & _ & _).
  intros cat. rewrite Hk, lookup_empty.
  assert (Hnone : ¬ is_Some (None : option (scores F)))
    by (by intros [? ?]).
  destruct comparison as [s | l].
  - destruct (String.eqb_spec s "rest") as [-> | Hs]; simpl; [tauto |].
    rewrite bool_decide_eq_false, list_elem_of_singleton. tauto.
  - simpl. rewrite bool_decide_eq_false. tauto.
Qed.

(** X21.  The encoder is called twice for every category that gets scores:
    when the categories are distinct and [latent_enrich] returns, the
    number of encoder calls has grown by twice the number of entries of
    the stored scores, and the random stream is the one of the call. *)
Theorem latent_enrich_encoder_calls (self : EXPIMAP) (groups : groups_arg)
    (comparison : comparison_arg) (n_sample : nat) (use_directions : bool)
    (directions_key : string) (select_terms : option (list nat))
    (adata : option (AnnData F)) (exact : bool) (key_added : string)
    (w w' : world) (adata' ad : AnnData F) (cats_col cats : list string) :
  resolve_groups (default (adata_ self) adata) groups
    = Ok (ad, cats_col, cats) →
  NoDup cats →
  latent_enrich self groups comparison n_sample use_directions
    directions_key select_terms adata exact key_added w = (Ok adata', w') →
  ∃ d, uns adata' !! key_added = Some (UScores d) ∧
       encoder_calls w' = encoder_calls w + 2 * size d ∧
       rng w' = rng w.
Proof.
  intros Hg Hnd Hl.
  destruct (latent_enrich_inv _ _ _ _ _ _ _ _ _ _ _ _ _ _ _ _ Hg Hl)
    as (d & -> & Hloop).
  exists d. split; [simpl; by rewrite lookup_insert_eq |].
  apply enrich_loop_run in Hloop as (Hk & Hc & Hr).
  split; [| done]. rewrite Hc. f_equal. f_equal.
  set (P := fun cat : string => cat_in cat _ = false) in *.
  assert (Hdom : dom d = list_to_set (filter P cats)).
  { apply set_eq. intros cat.
    rewrite elem_of_dom, Hk, lookup_empty, elem_of_list_to_set,
      list_elem_of_filter.
    assert (Hnone : ¬ is_Some (None : option (scores F)))
      by (by intros [? ?]).
    unfold P. tauto. }
  rewrite <- size_dom, Hdom, size_list_to_set; [done |].
  by apply NoDup_filter.
Qed.

(** X22.  Frame of [latent_enrich]: a call that returns has written to
    [uns] under [key_added] only, and the dataset it has written to has
    the variables and [varm] of the one given; with groups named by a
    column it has its cells too, with groups given as a dict it has the
    listed cells, in the order of the dict. *)
Theorem latent_enrich_frame (self : EXPIMAP) (groups : groups_arg)
    (comparison : comparison_arg) (n_sample : nat) (use_directions : bool)
    (directions_key : string) (select_terms : option (list nat))
    (adata : option (AnnData F)) (exact : bool) (key_added : string)
    (w w' : world) (adata' : AnnData F) :
  latent_enrich self groups comparison n_sample use_directions
    directions_key select_terms adata exact key_added w = (Ok adata', w') →
  let before := default (adata_ self) adata in
  var_names adata' = var_names before ∧ varm adata' = varm before ∧
  (∀ k, k ≠ key_added → uns adata' !! k = uns before !! k) ∧
  match groups with
  | GroupsKey _ =>
      obs_names adata' = obs_names before ∧ obs adata' = obs before ∧
      X adata' = X before
  | GroupsDict d => obs_names adata' = concat (map snd d)
  | GroupsOther => False
  end.
Proof.
  intros Hl before.
  destruct (resolve_groups before groups) as [[[ad cats_col] cats] | e]
    eqn:Hg.
  2:{ unfold latent_enrich, bind_M, lift in Hl. fold before in Hl.
      by rewrite Hg in Hl. }
  destruct (latent_enrich_inv _ _ _ _ _ _ _ _ _ _ _ _ _ _ _ _ Hg Hl)
    as (d & -> & _).
  assert (Hu : ∀ k, k ≠ key_added →
            uns (set_uns ad key_added (UScores d)) !! k = uns ad !! k).
  { intros k Hk. simpl. by rewrite lookup_insert_ne. }
  destruct groups as [key | gd |]; simpl in Hg.
  - inv_bind Hg. injection Hg as <- _ _.
    do 3 (split; [first [done | exact Hu] |]). done.
  - inv_bind Hg. injection Hg as <- _ _.
    unfold subset_obs in E. inv_bind E. inv_bind E. injection E as <-.
    do 3 (split; [first [done | exact Hu] |]). done.
  - discriminate.
Qed.

End EnrichMore.

Section EnrichShapes.
Context {F : Type} {AR : Arith F} {SP : Special F} {NW : Network F}.

Lemma mapM_length {A B} (f : A → result B) (l : list A) (r : list B) :
  mapM f l = Ok r → length r = length l.
Proof.
  revert r. induction l as [| x l IH]; intros r Hr; simpl in Hr.
  - by injection Hr as <-.
  - inv_bind Hr. inv_bind Hr. injection Hr as <-. simpl. f_equal.
    by apply IH.
Qed.

Lemma unique_replicate (n : nat) (c : string) :
  unique (replicate (S n) c) = [c].
Proof.
  induction n as [| n IH]; [done |].
  change (replicate (S (S n)) c) with (c :: replicate (S n) c).
  cbn [unique]. rewrite IH, filter_cons, decide_False by (by intros []).
  done.
Qed.

Lemma count_true_replicate (n : nat) (b : bool) :
  count_true (replicate n b) = if b then n else 0.
Proof.
  unfold count_true. induction n as [| n IH]; [by destruct b |].
  change (replicate (S n) b) with (b :: replicate n b).
  rewrite filter_cons. destruct b.
  - rewrite decide_True by done. simpl. by rewrite IH.
  - rewrite decide_False by (by intros []). done.
Qed.

(** X23.  One category only: when every cell has the category [c] (whose
    name is no substring of ["rest"]) and the comparison is ["rest"], a
    call with [n_sample] above 0 raises the value error of drawing from
    an empty group, before the encoder is called. *)
Theorem latent_enrich_single_category (self : EXPIMAP) (key c : string)
    (n n_sample : nat) (use_directions : bool) (directions_key : string)
    (select_terms : option (list nat)) (adata : option (AnnData F))
    (exact : bool) (key_added : string) (w : world) :
  obs (default (adata_ self) adata) !! key = Some (replicate (S n) c) →
  is_substring c "rest" = false →
  n_sample ≠ 0 →
  ∃ w',
    latent_enrich self (GroupsKey key) (CompStr "rest") n_sample
      use_directions directions_key select_terms adata exact key_added w
    = (Raise (ValueError
         "a must be greater than 0 unless no samples are taken"), w') ∧
    encoder_calls w' = encoder_calls w.
Proof.
  intros Hobs Hsub Hn. unfold latent_enrich, bind_M at 1, lift at 1.
  cbn [resolve_groups]. unfold getitem. rewrite Hobs.
  cbn -[enrich_loop unique replicate].
  rewrite unique_replicate. unfold bind_M at 1. cbn [enrich_loop].
  unfold cat_in. rewrite Hsub.
  unfold enrich_category, encode_groups, bind_M, lift.
  cbn [String.eqb Ascii.eqb Bool.eqb].
  rewrite !map_fmap, !fmap_replicate, String.eqb_refl.
  rewrite !count_true_replicate. cbn [negb].
  unfold choice. apply Nat.eqb_neq in Hn. rewrite Hn. cbn.
  by eexists.
Qed.

(** X24.  The three arrays of every category's scores have one length,
    and with [select_terms] given it is the number of selected terms. *)
Theorem latent_enrich_score_lengths (self : EXPIMAP) (groups : groups_arg)
    (comparison : comparison_arg) (n_sample : nat) (use_directions : bool)
    (directions_key : string) (select_terms : option (list nat))
    (adata : option (AnnData F)) (exact : bool) (key_added : string)
    (w w' : world) (adata' : AnnData F) :
  latent_enrich self groups comparison n_sample use_directions
    directions_key select_terms adata exact key_added w = (Ok adata', w') →
  ∃ d, uns adata' !! key_added = Some (UScores d) ∧
    ∀ cat sc, d !! cat = Some sc →
      length (p_h1 sc) = length (p_h0 sc) ∧
      length (bf sc) = length (p_h0 sc) ∧
      match select_terms with
      | Some sel => length (p_h0 sc) = length sel
      | None => True
      end.
Proof.
  intros Hl. apply latent_enrich_Ok in Hl as (d & Hd & Hsc).
  exists d. split; [done |]. intros cat sc Hcat.
  destruct (Hsc cat sc Hcat) as (directions & z0 & z1 & He).
  unfold enrich_terms in He. inv_bind He.
  destruct a as [to_reduce zeros_mask]. injection He as <-.
  apply reduce_terms_inv in E
    as (a0 & a1 & Ha0 & _ & Hl0 & Hl1 & -> & _).
  unfold bayes_factors, set_mask, zero_columns. cbn [p_h0 p_h1 bf].
  repeat (rewrite length_zip_with || rewrite length_map).
  split; [lia |]. split; [lia |].
  destruct select_terms as [sel |]; [| done].
  unfold tested in Ha0. inv_bind Ha0. cbn [take_columns] in Ha0.
  apply mapM_length in Ha0. lia.
Qed.

End EnrichShapes.

Section EnrichSampled.
Context {NW : Network R}.

Lemma fold_Rplus_bounds (col : list R) :
  Forall (fun x => (0 <= x <= 1)%R) col →
  ∀ acc, (acc <= fold_left Rplus col acc <= acc + INR (length col))%R.
Proof.
  induction 1 as [| x col Hx _ IH]; intros acc.
  - simpl. lra.
  - cbn [fold_left]. change (length (x :: col)) with (S (length col)).
    rewrite S_INR. specialize (IH (acc + x)%R). lra.
Qed.

Lemma fmean_R_unit (col : list R) :
  Forall (fun x => (0 <= x <= 1)%R) col → (0 <= fmean col <= 1)%R.
Proof.
  intros Hcol. unfold fmean, fsum. cbn [fadd fdiv f0 of_nat R_arith].
  pose proof (fold_Rplus_bounds col Hcol 0%R) as Hs.
  destruct col as [| x col].
  - simpl. unfold Rdiv. rewrite Rmult_0_l. lra.
  - assert (Hn : (0 < INR (length (x :: col)))%R) by (apply lt_0_INR; simpl; lia).
    revert Hs Hn. generalize (fold_left Rplus (x :: col) 0%R).
    generalize (INR (length (x :: col))). intros n s Hs Hn. split.
    + apply Rmult_le_pos; [lra |]. left. by apply Rinv_0_lt_compat.
    + apply (Rmult_le_reg_r n); [done |]. unfold Rdiv.
      rewrite Rmult_assoc, Rinv_l by lra. lra.
Qed.

(** X25.  What [latent_enrich] stores with [exact=false], over the reals
    and with at least one sample.  Take a call that returns and the
    [k]-th category it does not skip; in the state that [k] rounds leave,
    the two groups of the category are drawn and encoded to samples.  For
    every term, the [p_h0] stored for the category is a probability, it
    lies between 0 and 1.  When the absolute values of the term sum to 0
    in a group, [p_h0] and [p_h1] are both 0; otherwise [p_h0] is the
    share of the draws in which the group-A value is above the group-B
    value, and [p_h1] is [1 - p_h0].  (The hypothesis on [n_sample] marks
    where the statement is meant: with no sample numpy's mean is not a
    number; the proof does not need it.) *)
Theorem sampled_probabilities (self : EXPIMAP) (groups : groups_arg)
    (comparison : comparison_arg) (n_sample : nat) (use_directions : bool)
    (directions_key : string) (select_terms : option (list nat))
    (adata : option (AnnData R)) (key_added : string)
    (w w' : world) (adata' ad : AnnData R) (cats_col cats : list string)
    (k : nat) (cat : string) (directions : option (list R))
    (z0 z1 : matrix R) (wk : world) (a0 a1 : matrix R) :
  n_sample ≠ 0 →
  resolve_groups (default (adata_ self) adata) groups
    = Ok (ad, cats_col, cats) →
  NoDup cats →
  latent_enrich self groups comparison n_sample use_directions
    directions_key select_terms adata false key_added w = (Ok adata', w') →
  filter (fun c => cat_in c (comparison_list comparison) = false) cats !! k
    = Some cat →
  encode_groups self ad cats_col (comparison_list comparison) cat n_sample
    use_directions directions_key false
    (Nat.iter k (after_round n_sample false) w)
    = (Ok (directions, Sampled z0, Sampled z1), wk) →
  tested directions select_terms z0 = Ok a0 →
  tested directions select_terms z1 = Ok a1 →
  ∃ d sc,
    uns adata' !! key_added = Some (UScores d) ∧ d !! cat = Some sc ∧
    ∀ t c0 c1, a0 !! t = Some c0 → a1 !! t = Some c1 →
      ∃ p q,
        p_h0 sc !! t = Some p ∧ p_h1 sc !! t = Some q ∧
        (0 <= p <= 1)%R ∧
        (fsum (map Rabs c0) = 0%R ∨ fsum (map Rabs c1) = 0%R →
           p = 0%R ∧ q = 0%R) ∧
        (fsum (map Rabs c0) ≠ 0%R → fsum (map Rabs c1) ≠ 0%R →
           p = fmean (zip_with (fun a b => if fltb b a then f1 else f0)
                        c0 c1) ∧
           q = (1 - p)%R).
Proof.
  intros _ Hg Hnd Hl Hk He H0 H1.
  destruct (latent_enrich_round _ _ _ _ _ _ _ _ _ _ _ _ _ _ _ _ _ _ _ _ _ _
              Hg Hnd Hl Hk He) as (d & sc & Hd & Hsc & Hterms).
  exists d, sc. split; [exact Hd |]. split; [exact Hsc |].
  intros t c0 c1 Hc0 Hc1.
  unfold enrich_terms in Hterms. inv_bind Hterms.
  destruct a as [to_reduce zeros_mask]. injection Hterms as <-.
  apply reduce_terms_inv in E
    as (b0 & b1 & Hb0 & Hb1 & _ & _ & -> & Hred & _).
  simpl in Hb0, Hb1. rewrite H0 in Hb0. rewrite H1 in Hb1.
  injection Hb0 as <-. injection Hb1 as <-.
  rewrite (Hred eq_refl).
  set (col := zip_with (fun a b => if fltb b a then f1 else f0) c0 c1).
  assert (Hcol : zip_with (zip_with
                   (fun a b => if fltb b a then f1 else f0)) a0 a1 !! t
                 = Some col).
  { rewrite lookup_zip_with, Hc0. simpl. by rewrite Hc1. }
  pose proof (zeros_mask_lookup _ _ _ _ _ Hc0 Hc1) as Hflag.
  destruct (bayes_factors_lookup _ _ _ _ _ Hcol Hflag) as (Hp & Hq & _).
  assert (Hunit : Forall (fun x => (0 <= x <= 1)%R) col).
  { apply Forall_lookup_2. intros i x Hx.
    apply lookup_zip_with_Some in Hx as (x0 & x1 & -> & _ & _).
    destruct (fltb x1 x0); cbn [f0 f1 R_arith]; lra. }
  pose proof (fmean_R_unit col Hunit) as Hm.
  eexists _, _. split; [exact Hp |]. split; [exact Hq |].
  destruct (feqb (fsum (map fabs c0)) f0) eqn:Hz0;
    [| destruct (feqb (fsum (map fabs c1)) f0) eqn:Hz1];
    cbn [orb f0 f1 fsub R_arith].
  - apply feqb_R_true in Hz0. split; [lra |]. split; [done |].
    intros Hn. by destruct Hn.
  - apply feqb_R_true in Hz1. split; [lra |]. split; [done |].
    intros _ Hn. by destruct Hn.
  - apply not_true_iff_false in Hz0, Hz1.
    rewrite feqb_R_true in Hz0, Hz1. split; [exact Hm |].
    split; [| done]. intros [Hz | Hz]; [by destruct Hz0 | by destruct Hz1].
Qed.

End EnrichSampled.

Lemma latent_enrich_unknown_groups_witness :
  latent_enrich (NW := table_network enrich_weights) enrich_model
    (GroupsKey "tissue") (CompStr "rest") 5000 false "directions" None
    None true "bf_scores" first_world
  = (Raise (KeyError "tissue"), first_world).
Proof.
  destruct (latent_enrich_unknown_groups
              (NW := table_network enrich_weights) enrich_model
              (GroupsKey "tissue") (CompStr "rest") 5000 false "directions"
              None None true "bf_scores" first_world)
    as (e & Hrun & ->); [vm_compute; reflexivity | exact Hrun].
Defined.

Lemma latent_enrich_score_keys_witness :
  ∃ (adata' : AnnData R) (w' : world) (d : gmap string (scores R)),
    latent_enrich (NW := table_network enrich_weights) enrich_model
      (GroupsKey "cell_type") (CompStr "rest") 3 false "directions" None
      None true "bf_scores" first_world = (Ok adata', w') ∧
    uns adata' !! "bf_scores" = Some (UScores d) ∧
    is_Some (d !! "T") ∧ is_Some (d !! "B") ∧ ¬ is_Some (d !! "rest").
Proof.
  destruct (enrich_example_returns true) as (adata' & w' & Hrun).
  destruct (latent_enrich_score_keys (NW := table_network enrich_weights)
              enrich_model (GroupsKey "cell_type") (CompStr "rest") 3 false
              "directions" None None true "bf_scores" first_world w' adata'
              enrich_adata ["T"; "B"; "T"; "B"] ["T"; "B"] eq_refl Hrun)
    as (d & Hd & Hk).
  exists adata', w', d. split; [exact Hrun |]. split; [exact Hd |].
  split; [| split].
  - apply Hk. split; [apply list_elem_of_here | reflexivity].
  - apply Hk. split; [apply list_elem_of_further, list_elem_of_here |].
    reflexivity.
  - intros [_ Hrest]%Hk. discriminate Hrest.
Defined.

Lemma latent_enrich_encoder_calls_witness :
  ∃ (adata' : AnnData R) (w' : world) (d : gmap string (scores R)),
    latent_enrich (NW := table_network enrich_weights) enrich_model
      (GroupsKey "cell_type") (CompStr "rest") 3 false "directions" None
      None true "bf_scores" first_world = (Ok adata', w') ∧
    uns adata' !! "bf_scores" = Some (UScores d) ∧
    encoder_calls w' = 2 * size d.
Proof.
  destruct (enrich_example_returns true) as (adata' & w' & Hrun).
  destruct (latent_enrich_encoder_calls (NW := table_network enrich_weights)
              enrich_model (GroupsKey "cell_type") (CompStr "rest") 3 false
              "directions" None None true "bf_scores" first_world w' adata'
              enrich_adata ["T"; "B"; "T"; "B"] ["T"; "B"] eq_refl
              (NoDup_unique ["T"; "B"; "T"; "B"]) Hrun)
    as (d & Hd & Hc & _).
  exists adata', w', d. split; [exact Hrun |]. split; [exact Hd |].
  exact Hc.
Defined.

Lemma latent_enrich_frame_witness :
  ∃ (adata' : AnnData R) (w' : world),
    latent_enrich (NW := table_network enrich_weights) enrich_model
      (GroupsKey "cell_type") (CompStr "rest") 3 false "directions" None
      None true "bf_scores" first_world = (Ok adata', w') ∧
    var_names adata' = ["g0"; "g1"] ∧
    obs_names adata' = ["c0"; "c1"; "c2"; "c3"] ∧
    uns adata' !! "directions" = None.
Proof.
  destruct (enrich_example_returns true) as (adata' & w' & Hrun).
  destruct (latent_enrich_frame (NW := table_network enrich_weights)
              enrich_model (GroupsKey "cell_type") (CompStr "rest") 3 false
              "directions" None None true "bf_scores" first_world w' adata'
              Hrun)
    as (Hv & _ & Hu & Ho & _ & _).
  exists adata', w'. split; [exact Hrun |]. split; [exact Hv |].
  split; [exact Ho |]. rewrite Hu; [reflexivity | discriminate].
Defined.

Lemma latent_enrich_single_category_witness :
  ∃ w',
    latent_enrich (NW := table_network enrich_weights) enrich_model
      (GroupsKey "batch") (CompStr "rest") 5000 false "directions" None
      None true "bf_scores" first_world
    = (Raise (ValueError
         "a must be greater than 0 unless no samples are taken"), w') ∧
    encoder_calls w' = encoder_calls first_world.
Proof.
  apply (latent_enrich_single_category (NW := table_network enrich_weights)
           enrich_model "batch" "b" 3 5000 false "directions" None None true
           "bf_scores" first_world).
  - vm_compute. reflexivity.
  - reflexivity.
  - discriminate.
Defined.

Lemma latent_enrich_score_lengths_witness :
  ∃ (adata' : AnnData R) (w' : world) (d : gmap string (scores R)),
    latent_enrich (NW := table_network enrich_weights) enrich_model
      (GroupsKey "cell_type") (CompStr "rest") 3 false "directions" None
      None true "bf_scores" first_world = (Ok adata', w') ∧
    uns adata' !! "bf_scores" = Some (UScores d) ∧
    ∀ cat sc, d !! cat = Some sc →
      length (p_h1 sc) = length (p_h0 sc) ∧
      length (bf sc) = length (p_h0 sc).
Proof.
  destruct (enrich_example_returns true) as (adata' & w' & Hrun).
  destruct (latent_enrich_score_lengths (NW := table_network enrich_weights)
              enrich_model (GroupsKey "cell_type") (CompStr "rest") 3 false
              "directions" None None true "bf_scores" first_world w' adata'
              Hrun)
    as (d & Hd & Hlen).
  exists adata', w', d. split; [exact Hrun |]. split; [exact Hd |].
  intros cat sc Hsc. destruct (Hlen cat sc Hsc) as (H1 & H2 & _).
  exact (conj H1 H2).
Defined.

Lemma sampled_probabilities_witness :
  ∃ (adata' : AnnData R) (w' : world) (d : gmap string (scores R))
    (sc : scores R) (p q : R),
    latent_enrich (NW := table_network enrich_weights) enrich_model
      (GroupsKey "cell_type") (CompStr "rest") 3 false "directions" None
      None false "bf_scores" first_world = (Ok adata', w') ∧
    uns adata' !! "bf_scores" = Some (UScores d) ∧ d !! "T" = Some sc ∧
    p_h0 sc !! 1 = Some p ∧ p_h1 sc !! 1 = Some q ∧
    (0 <= p <= 1)%R ∧ q = (1 - p)%R.
Proof.
  assert (Hnz : fsum (map Rabs [2; 2; 2]%R) ≠ 0%R).
  { cbn. rewrite (Rabs_right 2) by lra. lra. }
  destruct (enrich_example_returns false) as (adata' & w' & Hrun).
  destruct (sampled_probabilities (NW := table_network enrich_weights)
              enrich_model (GroupsKey "cell_type") (CompStr "rest") 3 false
              "directions" None None "bf_scores" first_world w' adata'
              enrich_adata ["T"; "B"; "T"; "B"] ["T"; "B"] 0 "T" None
              [[0; 0; 0]; [2; 2; 2]]%R [[5; 3; 5]; [2; 2; 2]]%R
              (after_round 3 false first_world)
              [[0; 0; 0]; [2; 2; 2]]%R [[5; 3; 5]; [2; 2; 2]]%R
              ltac:(discriminate) eq_refl
              (NoDup_unique ["T"; "B"; "T"; "B"]) Hrun eq_refl
              (enrich_example_round false) eq_refl eq_refl)
    as (d & sc & Hd & Hsc & Hterms).
  destruct (Hterms 1 [2; 2; 2]%R [2; 2; 2]%R eq_refl eq_refl)
    as (p & q & Hp & Hq & Hunit & _ & Hrest).
  destruct (Hrest Hnz Hnz) as [_ Hq'].
  by exists adata', w', d, sc, p, q.
Defined.

(** ** Query data, further *)

Section QueryMore.
Context {F : Type} {NW : Network F}.
Variable state : Type.
Variable base : gmap string param → state → result EXPIMAP * state.
Variable named_parameters : net → list (string * bool).
Variable set_requires_grad : net → list (string * bool) → net.

Lemma unfreeze_spec (name : string) (g : bool) :
  unfreeze name g
  = g || (is_substring "ext_L.weight" name ||
          is_substring "ext_L_m.weight" name ||
          is_substring "expand_mean_encoder" name ||
          is_substring "expand_var_encoder" name).
Proof.
  unfold unfreeze.
  destruct (is_substring "ext_L.weight" name),
    (is_substring "ext_L_m.weight" name),
    (is_substring "expand_mean_encoder" name),
    (is_substring "expand_var_encoder" name), g; reflexivity.
Qed.

Lemma with_model_same (m : EXPIMAP) (n : net) :
  with_model (with_model m n) (model m) = m.
Proof. by destruct m. Qed.

(** X26.  Arguments that do not count: without [new_n_ext_m] the call
    does not depend on [new_ext_mask] and [new_soft_ext_mask], and with
    [freeze=false] it does not depend on [unfreeze_ext]. *)
Theorem load_query_data_ignored_arguments (adata : AnnData F)
    (reference_model : reference)
    (freeze freeze_expression unfreeze_ext remove_dropout : bool)
    (new_n_ext new_n_ext_m : option Z)
    (new_ext_mask : option (list (list Z))) (new_soft_ext_mask : bool)
    (st : state) :
  (∀ mask' soft',
     load_query_data state base named_parameters set_requires_grad
       adata reference_model freeze freeze_expression unfreeze_ext
       remove_dropout new_n_ext None new_ext_mask new_soft_ext_mask st
     = load_query_data state base named_parameters set_requires_grad
         adata reference_model freeze freeze_expression unfreeze_ext
         remove_dropout new_n_ext None mask' soft' st) ∧
  (∀ unfreeze_ext',
     load_query_data state base named_parameters set_requires_grad
       adata reference_model false freeze_expression unfreeze_ext
       remove_dropout new_n_ext new_n_ext_m new_ext_mask new_soft_ext_mask st
     = load_query_data state base named_parameters set_requires_grad
         adata reference_model false freeze_expression unfreeze_ext'
         remove_dropout new_n_ext new_n_ext_m new_ext_mask new_soft_ext_mask
         st).
Proof. split; reflexivity. Qed.

(** X27.  What [load_query_data] does to the model the base surgery
    returns.  The wrapper differs from it in the network at most; the
    network is the same unless [freeze] and [unfreeze_ext] are both true,
    and then the flags it is given keep the names and the order of the
    parameters, leave every trainable parameter trainable, make the
    parameters of the extension trainable and leave every other flag as
    it was. *)
Theorem load_query_data_trainable (adata : AnnData F)
    (reference_model : reference)
    (freeze freeze_expression unfreeze_ext remove_dropout : bool)
    (new_n_ext new_n_ext_m : option Z)
    (new_ext_mask : option (list (list Z))) (new_soft_ext_mask : bool)
    (st st' : state) (m : EXPIMAP) :
  load_query_data state base named_parameters set_requires_grad
    adata reference_model freeze freeze_expression unfreeze_ext
    remove_dropout new_n_ext new_n_ext_m new_ext_mask new_soft_ext_mask st
  = (Ok m, st') →
  ∃ params new_model,
    base params st = (Ok new_model, st') ∧
    with_model m (model new_model) = new_model ∧
    (freeze && unfreeze_ext = false → m = new_model) ∧
    (freeze && unfreeze_ext = true →
       ∃ flags,
         model m = set_requires_grad (model new_model) flags ∧
         Forall2 (fun '(name, g) '(name', g') =>
                    name' = name ∧ (g = true → g' = true) ∧
                    g' = g || (is_substring "ext_L.weight" name ||
                               is_substring "ext_L_m.weight" name ||
                               is_substring "expand_mean_encoder" name ||
                               is_substring "expand_var_encoder" name))
                 (named_parameters (model new_model)) flags).
Proof.
  unfold load_query_data. intros Hl.
  match type of Hl with
  | match ?p with _ => _ end = _ => destruct p as [params | e]
  end; [| discriminate].
  destruct (base params st) as [[new_model | e] st1] eqn:Hb; [| discriminate].
  exists params, new_model.
  destruct (freeze && unfreeze_ext); injection Hl as <- <-.
  - split; [done |]. split; [apply with_model_same |].
    split; [discriminate |]. intros _. eexists. split; [reflexivity |].
    induction (named_parameters (model new_model)) as [| [name g] l IH];
      [constructor |].
    constructor; [| exact IH]. rewrite unfreeze_spec.
    split; [done |]. split; [by intros -> | done].
  - split; [done |]. split; [by destruct new_model |].
    split; [done | discriminate].
Qed.

End QueryMore.

Lemma load_query_data_trainable_witness :
  ∃ flags,
    Forall2 (fun '(name, g) '(name', g') => name' = name ∧ (g = true → g' = true))
      [("decoder.L0.ext_L.weight", false); ("encoder.FC.0.weight", false)]
      flags.
Proof.
  destruct (load_query_data_trainable (NW := table_network enrich_weights)
              unit (fun _ st => (Ok enrich_model, st))
              (fun _ => [("decoder.L0.ext_L.weight", false);
                         ("encoder.FC.0.weight", false)])
              (fun n _ => n)
              enrich_adata (RefModel enrich_model) true true true true
              None None None false tt tt enrich_model eq_refl)
    as (params & new_model & Hb & _ & _ & Hflags).
  injection Hb as <-.
  destruct (Hflags eq_refl) as (flags & _ & Hall).
  exists flags. eapply Forall2_impl; [exact Hall |].
  intros [name g] [name' g'] (Hn & Hg & _). exact (conj Hn Hg).
Defined.
